(** * pangolin-auto-whitelist: a model of [auth-api.py]

    The script tails an authentication log, turns every login it finds into
    a time-limited allow rule of a remote access-control service, and keeps
    its scan offset and its rule set in a JSON state file.

    The development follows the script top-down: Python values (strings as
    code points, exceptions, insertion-ordered dictionaries), the JSON
    reader, the helper functions and [main], then the properties.

    What the model takes from outside the script:
    - [json.loads] is written out after CPython's decoder; the interpreter's
      recursion limit and its limit on the digits of an integer are left
      out. [json.dump] is written out after CPython's encoder, with
      [float.__repr__] as a parameter.
    - The clock, [requests.put] and [requests.delete] are oracles of the
      environment [Env], asked by call number; every call is an event of
      the run's trace.
    - The log file is UTF-8 text (its bytes are the encoding of a sequence
      of code points), seen once when its size is taken and once when it is
      opened for reading.
    - [main] works on the state document at the types it uses it at (an
      integer offset, records of a rule identifier and an expiry instant);
      [load_state] is modelled on arbitrary JSON. *)

From Stdlib Require Import ZArith NArith List String Ascii Lia ZifyBool Bool DecimalString.
From Stdlib Require DecimalFacts DecimalPos.
From stdpp Require Import base option list gmap.
Import ListNotations.
Set Warnings "-register-all".
Local Open Scope Z_scope.

(** ** Python strings

    A Python [str] is a sequence of Unicode code points, not of bytes: the
    byte length of a line is the length of its UTF-8 encoding. *)

Module Py.

Abbreviation str := (list N).

(** An ASCII literal as a [str]. *)
Definition lit (s : string) : str :=
  List.map N_of_ascii (list_ascii_of_string s).

Definition ord (a : ascii) : N := N_of_ascii a.

(** The quotation mark, [chr(34)]. *)
Definition QUOTE : N := 34%N.

(** [len(chr(c).encode("utf-8"))]. *)
Definition utf8_width (c : N) : Z :=
  if (c <? 128)%N then 1
  else if (c <? 2048)%N then 2
  else if (c <? 65536)%N then 3
  else 4.

(** [len(s.encode("utf-8"))]. *)
Fixpoint utf8_len (s : str) : Z :=
  match s with
  | [] => 0
  | c :: s' => utf8_width c + utf8_len s'
  end.

Fixpoint str_eqb (s t : str) : bool :=
  match s, t with
  | [], [] => true
  | a :: s', b :: t' => (a =? b)%N && str_eqb s' t'
  | _, _ => false
  end.

(** [bool(s)] for a string. *)
Definition nonempty (s : str) : bool :=
  match s with [] => false | _ :: _ => true end.

(** [s.startswith(p)]. *)
Fixpoint startswith (p s : str) : bool :=
  match p, s with
  | [], _ => true
  | a :: p', b :: s' => (a =? b)%N && startswith p' s'
  | _ :: _, [] => false
  end.

(** [sub in s]. *)
Fixpoint contains (sub s : str) : bool :=
  startswith sub s ||
  match s with
  | [] => false
  | _ :: s' => contains sub s'
  end.

(** [s.find(sub)], with [None] for -1. *)
Fixpoint find (sub s : str) : option nat :=
  if startswith sub s then Some 0%nat
  else match s with
       | [] => None
       | _ :: s' => S <$> find sub s'
       end.

(** [s.rfind(sub)], with [None] for -1. *)
Fixpoint rfind (sub s : str) : option nat :=
  match s with
  | [] => if startswith sub [] then Some 0%nat else None
  | _ :: s' =>
      match rfind sub s' with
      | Some i => Some (S i)
      | None => if startswith sub s then Some 0%nat else None
      end
  end.

(** [s[i:j]] for indices that are not negative. *)
Definition slice (i j : nat) (s : str) : str :=
  firstn (j - i) (skipn i s).

(** [s.split(sep)[0]]. *)
Definition split_head (sep s : str) : str :=
  match find sep s with
  | Some i => firstn i s
  | None => s
  end.

End Py.
Export Py.

(** ** Exceptions

    The exception classes the script can meet. [JSONDecodeError] and
    [UnicodeDecodeError] are subclasses of [ValueError]; [SystemExit] is
    not an [Exception]. *)

Inductive exn : Type :=
| FileNotFoundError
| PermissionError
| UnicodeDecodeError
| JSONDecodeError
| ValueError
| AttributeError
| TypeError
| RequestException
| SystemExit (code : Z).

Inductive result (A : Type) : Type :=
| Ret (a : A)
| Raise (e : exn).
Arguments Ret {A} a.
Arguments Raise {A} e.

#[global] Instance result_ret : MRet result := fun _ a => Ret a.
#[global] Instance result_bind : MBind result := fun _ _ f m =>
  match m with
  | Ret a => f a
  | Raise e => Raise e
  end.

(** [try: body / except classes: handler]. *)
Definition try_except {A} (body : result A) (classes : exn -> bool)
    (handler : result A) : result A :=
  match body with
  | Ret a => Ret a
  | Raise e => if classes e then handler else Raise e
  end.

(** [except (ValueError, json.JSONDecodeError)]. *)
Definition is_ValueError (e : exn) : bool :=
  match e with
  | ValueError | JSONDecodeError | UnicodeDecodeError => true
  | _ => false
  end.

(** [except (FileNotFoundError, json.JSONDecodeError)]. *)
Definition is_FileNotFound_or_JSONDecode (e : exn) : bool :=
  match e with
  | FileNotFoundError | JSONDecodeError => true
  | _ => false
  end.

(** [except Exception]. *)
Definition is_Exception (e : exn) : bool :=
  match e with
  | SystemExit _ => false
  | _ => true
  end.

(** ** Dictionaries

    A Python [dict] keeps its keys in insertion order, and [main] walks the
    rule set in that order: an association list with first-match lookup.
    [dict_set] is [d[k] = v]: it overwrites in place or appends. *)

Section Dict.
Context {V : Type}.

Definition dict := list (str * V).

Fixpoint dict_get (k : str) (d : list (str * V)) : option V :=
  match d with
  | [] => None
  | (k', v) :: d' => if str_eqb k k' then Some v else dict_get k d'
  end.

(** [k in d]. *)
Definition dict_mem (k : str) (d : list (str * V)) : bool :=
  match dict_get k d with Some _ => true | None => false end.

Fixpoint dict_set (k : str) (v : V) (d : list (str * V)) : list (str * V) :=
  match d with
  | [] => [(k, v)]
  | (k', v') :: d' =>
      if str_eqb k k' then (k', v) :: d' else (k', v') :: dict_set k v d'
  end.

Definition dict_keys (d : list (str * V)) : list str := List.map fst d.

End Dict.
Arguments dict V : clear implicits.

(** ** JSON values

    What [json.loads] and [resp.json()] return. A JSON number without
    fraction or exponent is a Python [int]; any other is a [float], kept
    as the decimal the document wrote (sign, digits, power of ten) because
    the script only ever asks a float whether it is zero. *)

Module Json.

Inductive pyfloat : Type :=
| Fdec (neg : bool) (mant : N) (exp10 : Z)
| Fnan
| Finf (neg : bool).

Inductive json : Type :=
| JNull
| JBool (b : bool)
| JInt (n : Z)
| JFloat (f : pyfloat)
| JStr (s : str)
| JArr (items : list json)
| JObj (members : list (str * json)).

(** [float(text) == 0.0]: the decimal is zero, or rounds to zero, which a
    correctly rounded conversion to binary64 does exactly when the value is
    at most [2^-1075], half the least subnormal. *)
Definition float_is_zero (f : pyfloat) : bool :=
  match f with
  | Fdec _ m e =>
      (m =? 0)%N || ((e <? 0) && (Z.of_N m * 2 ^ 1075 <=? 10 ^ (- e)))
  | Fnan | Finf _ => false
  end.

(** [bool(v)]. *)
Definition truthy (v : json) : bool :=
  match v with
  | JNull => false
  | JBool b => b
  | JInt n => negb (n =? 0)
  | JFloat f => negb (float_is_zero f)
  | JStr s => nonempty s
  | JArr l => match l with [] => false | _ => true end
  | JObj d => match d with [] => false | _ => true end
  end.

(** [v.get(key, default)]: only a [dict] has the method. *)
Definition py_get (v : json) (key : str) (default : json) : result json :=
  match v with
  | JObj d => Ret (match dict_get key d with Some x => x | None => default end)
  | _ => Raise AttributeError
  end.

(** [key in v] for a string [key]: membership in a [dict] or a [list],
    substring of a [str], [TypeError] on anything else. *)
Definition py_in (key : str) (v : json) : result bool :=
  match v with
  | JObj d => Ret (dict_mem key d)
  | JArr l =>
      Ret (existsb (fun x => match x with JStr s => str_eqb key s | _ => false end) l)
  | JStr s => Ret (contains key s)
  | JNull | JBool _ | JInt _ | JFloat _ => Raise TypeError
  end.

(** *** The reader, after [json.decoder] and [json.scanner] *)

Definition is_ws (c : N) : bool :=
  (c =? 32)%N || (c =? 9)%N || (c =? 10)%N || (c =? 13)%N.

Fixpoint skip_ws (s : str) : str :=
  match s with
  | c :: s' => if is_ws c then skip_ws s' else s
  | [] => []
  end.

Definition is_digit (c : N) : bool := (48 <=? c)%N && (c <=? 57)%N.

Definition hex_digit (c : N) : option N :=
  if is_digit c then Some (c - 48)%N
  else if (97 <=? c)%N && (c <=? 102)%N then Some (c - 87)%N
  else if (65 <=? c)%N && (c <=? 70)%N then Some (c - 55)%N
  else None.

Definition hex4 (a b c d : N) : option N :=
  x ← hex_digit a; y ← hex_digit b; z ← hex_digit c; w ← hex_digit d;
  Some (((x * 16 + y) * 16 + z) * 16 + w)%N.

(** The character a one-letter escape stands for. *)
Definition unescape (c : N) : option N :=
  if (c =? QUOTE)%N then Some QUOTE
  else if (c =? ord "\")%N then Some (ord "\")
  else if (c =? ord "/")%N then Some (ord "/")
  else if (c =? ord "b")%N then Some 8%N
  else if (c =? ord "f")%N then Some 12%N
  else if (c =? ord "n")%N then Some 10%N
  else if (c =? ord "r")%N then Some 13%N
  else if (c =? ord "t")%N then Some 9%N
  else None.

(** The body of a string literal, from after its opening quote to its
    closing one; each character is tagged with whether a [\uXXXX] escape
    wrote it. Control characters are refused (strict mode). *)
Fixpoint scanstring (s : str) : option (list (bool * N) * str) :=
  match s with
  | [] => None
  | c :: s' =>
      if (c =? QUOTE)%N then Some ([], s')
      else if (c =? ord "\")%N then
        match s' with
        | [] => None
        | e :: s'' =>
            if (e =? ord "u")%N then
              match s'' with
              | h1 :: h2 :: h3 :: h4 :: rest =>
                  u ← hex4 h1 h2 h3 h4;
                  '(items, r) ← scanstring rest;
                  Some ((true, u) :: items, r)
              | _ => None
              end
            else
              c' ← unescape e;
              '(items, r) ← scanstring s'';
              Some ((false, c') :: items, r)
        end
      else if (c <? 32)%N then None
      else
        '(items, r) ← scanstring s';
        Some ((false, c) :: items, r)
  end.

(** Two adjacent [\uXXXX] escapes that form a surrogate pair are one
    character. *)
Fixpoint join_surrogates (items : list (bool * N)) : str :=
  match items with
  | [] => []
  | (esc, c) :: rest =>
      match rest with
      | (true, lo) :: rest' =>
          if esc && (55296 <=? c)%N && (c <=? 56319)%N
                 && (56320 <=? lo)%N && (lo <=? 57343)%N
          then (65536 + (c - 55296) * 1024 + (lo - 56320))%N :: join_surrogates rest'
          else c :: join_surrogates rest
      | _ => c :: join_surrogates rest
      end
  end.

Definition parse_string (s : str) : option (str * str) :=
  '(items, r) ← scanstring s; Some (join_surrogates items, r).

Fixpoint span_digits (s : str) : list N * str :=
  match s with
  | [] => ([], [])
  | c :: s' =>
      if is_digit c
      then let '(ds, r) := span_digits s' in ((c - 48)%N :: ds, r)
      else ([], s)
  end.

Definition digits_value (ds : list N) : N :=
  fold_left (fun acc d => (10 * acc + d)%N) ds 0%N.

(** [NUMBER_RE.match]: an optional minus, then a zero or a digit string
    that does not start with one; a fraction (a dot and at least one
    digit) and an exponent (e or E, an optional sign, at least one digit)
    are each taken only when complete. *)
Definition match_number (s : str) : option (json * str) :=
  let '(neg, s1) :=
    match s with
    | c :: r => if (c =? ord "-")%N then (true, r) else (false, s)
    | [] => (false, s)
    end in
  '(ints, r) ←
    match s1 with
    | [] => None
    | c :: r =>
        if (c =? ord "0")%N then Some ([0%N], r)
        else if is_digit c
        then let '(ds, r') := span_digits r in Some ((c - 48)%N :: ds, r')
        else None
    end;
  let '(fracs, r) :=
    match r with
    | dot :: ((d :: _) as r1) =>
        if (dot =? ord ".")%N && is_digit d then span_digits r1 else ([], r)
    | _ => ([], r)
    end in
  let '(exp, r) :=
    match r with
    | e :: r1 =>
        if (e =? ord "e")%N || (e =? ord "E")%N then
          let '(eneg, r2) :=
            match r1 with
            | sg :: r2 =>
                if (sg =? ord "-")%N then (true, r2)
                else if (sg =? ord "+")%N then (false, r2)
                else (false, r1)
            | [] => (false, r1)
            end in
          match span_digits r2 with
          | ([], _) => (None, r)
          | (eds, r3) =>
              let v := Z.of_N (digits_value eds) in
              (Some (if eneg : bool then - v else v), r3)
          end
        else (None, r)
    | [] => (None, r)
    end in
  match fracs, exp with
  | [], None =>
      let v := Z.of_N (digits_value ints) in
      Some (JInt (if neg then - v else v), r)
  | _, _ =>
      Some (JFloat (Fdec neg (digits_value (ints ++ fracs))
                         (default 0 exp - Z.of_nat (length fracs))), r)
  end.

(** [dict(pairs)]: a repeated key keeps its first place and its last
    value. *)
Definition dict_of_pairs (pairs : list (str * json)) : list (str * json) :=
  fold_left (fun d kv => dict_set (fst kv) (snd kv) d) pairs [].

(** [scan_once], [JSONObject] and [JSONArray]. Every call reads at least
    one character before it recurses, so the nesting the decoder follows
    is bounded by the length of the text; [fuel] is that bound. *)
Fixpoint scan_once (fuel : nat) (s : str) : option (json * str) :=
  match fuel with
  | O => None
  | S fuel =>
      match s with
      | [] => None
      | c :: s' =>
          if (c =? QUOTE)%N then
            '(v, r) ← parse_string s'; Some (JStr v, r)
          else if (c =? ord "{")%N then
            match skip_ws s' with
            | c1 :: r1 =>
                if (c1 =? ord "}")%N then Some (JObj [], r1)
                else '(ps, r) ← object_members fuel (c1 :: r1);
                     Some (JObj (dict_of_pairs ps), r)
            | [] => None
            end
          else if (c =? ord "[")%N then
            match skip_ws s' with
            | c1 :: r1 =>
                if (c1 =? ord "]")%N then Some (JArr [], r1)
                else '(vs, r) ← array_items fuel (c1 :: r1);
                     Some (JArr vs, r)
            | [] => None
            end
          else if startswith (lit "null") s then Some (JNull, skipn 4 s)
          else if startswith (lit "true") s then Some (JBool true, skipn 4 s)
          else if startswith (lit "false") s then Some (JBool false, skipn 5 s)
          else
            match match_number s with
            | Some vr => Some vr
            | None =>
                if startswith (lit "NaN") s then Some (JFloat Fnan, skipn 3 s)
                else if startswith (lit "Infinity") s
                then Some (JFloat (Finf false), skipn 8 s)
                else if startswith (lit "-Infinity") s
                then Some (JFloat (Finf true), skipn 9 s)
                else None
            end
      end
  end
with object_members (fuel : nat) (s : str) : option (list (str * json) * str) :=
  match fuel with
  | O => None
  | S fuel =>
      match s with
      | q :: s1 =>
          if (q =? QUOTE)%N then
            '(key, r) ← parse_string s1;
            match skip_ws r with
            | colon :: r1 =>
                if (colon =? ord ":")%N then
                  '(value, r2) ← scan_once fuel (skip_ws r1);
                  match skip_ws r2 with
                  | c :: r3 =>
                      if (c =? ord "}")%N then Some ([(key, value)], r3)
                      else if (c =? ord ",")%N then
                        '(ps, r4) ← object_members fuel (skip_ws r3);
                        Some ((key, value) :: ps, r4)
                      else None
                  | [] => None
                  end
                else None
            | [] => None
            end
          else None
      | [] => None
      end
  end
with array_items (fuel : nat) (s : str) : option (list json * str) :=
  match fuel with
  | O => None
  | S fuel =>
      '(value, r) ← scan_once fuel s;
      match skip_ws r with
      | c :: r1 =>
          if (c =? ord "]")%N then Some ([value], r1)
          else if (c =? ord ",")%N then
            '(vs, r2) ← array_items fuel (skip_ws r1);
            Some (value :: vs, r2)
          else None
      | [] => None
      end
  end.

(** [json.loads(s)]: one value with blanks around it and nothing else;
    anything else is a [JSONDecodeError]. *)
Definition json_loads (s : str) : result json :=
  match scan_once (S (length s)) (skip_ws s) with
  | Some (v, r) =>
      match skip_ws r with
      | [] => Ret v
      | _ :: _ => Raise JSONDecodeError
      end
  | None => Raise JSONDecodeError
  end.

End Json.
Export Json.

(** ** The JSON writer, after [json.encoder]

    [json.dump(state, f, indent=2)] writes the chunks of [iterencode] one
    by one; [json.dumps] joins them. Strings are written in ASCII
    ([ensure_ascii] is on by default). *)

Module JsonEncode.

(** A hexadecimal digit, in lower case. *)
Definition hexchar (d : N) : N :=
  if (d <? 10)%N then (48 + d)%N else (87 + d)%N.

(** ['{0:04x}'.format(n)] for [n] below [0x10000]. *)
Definition hex04 (n : N) : str :=
  [hexchar (n / 4096); hexchar (n / 256 mod 16);
   hexchar (n / 16 mod 16); hexchar (n mod 16)]%N.

(** What [ESCAPE_ASCII.sub] puts for one character: a printable ASCII
    character other than the backslash and the quotation mark stays; the
    others are escaped, those beyond the basic plane as a surrogate pair. *)
Definition escape_ascii (c : N) : str :=
  if (c =? ord "\")%N then [ord "\"; ord "\"]
  else if (c =? QUOTE)%N then [ord "\"; QUOTE]
  else if (32 <=? c)%N && (c <=? 126)%N then [c]
  else if (c =? 8)%N then [ord "\"; ord "b"]
  else if (c =? 12)%N then [ord "\"; ord "f"]
  else if (c =? 10)%N then [ord "\"; ord "n"]
  else if (c =? 13)%N then [ord "\"; ord "r"]
  else if (c =? 9)%N then [ord "\"; ord "t"]
  else if (c <? 65536)%N then [ord "\"; ord "u"] ++ hex04 c
  else
    let n := (c - 65536)%N in
    let s1 := N.lor 55296 (N.land (N.shiftr n 10) 1023) in
    let s2 := N.lor 56320 (N.land n 1023) in
    [ord "\"; ord "u"] ++ hex04 s1 ++ [ord "\"; ord "u"] ++ hex04 s2.

Definition encode_basestring_ascii (s : str) : str :=
  [QUOTE] ++ concat (List.map escape_ascii s) ++ [QUOTE].

(** [int.__repr__]. *)
Definition intstr (n : Z) : str :=
  lit (DecimalString.NilZero.string_of_int (Z.to_int n)).

Section Encoder.

(** [float.__repr__], with [NaN] and the infinities as the encoder names
    them: the one piece of the writer the model takes as given. *)
Variable floatstr : pyfloat -> str.

(** The [indent] argument, a number of spaces. *)
Variable indent : nat.

Definition newline_indent (level : nat) : str :=
  10%N :: repeat 32%N (indent * level).

(** The values that are written in one piece. *)
Definition atom (o : json) : option str :=
  match o with
  | JStr s => Some (encode_basestring_ascii s)
  | JNull => Some (lit "null")
  | JBool true => Some (lit "true")
  | JBool false => Some (lit "false")
  | JInt n => Some (intstr n)
  | JFloat f => Some (floatstr f)
  | JArr _ | JObj _ => None
  end.

(** The loop of [_iterencode_list]: [buf] is the opening bracket and
    indentation before the first item and the separator before the others;
    it is joined to an item written in one piece and yielded alone before
    any other. [chunks_of] gives the chunks of a nested value. *)
Fixpoint iterencode_list_items (chunks_of : json -> list str)
    (separator buf : str) (lst : list json) : list str :=
  match lst with
  | [] => []
  | value :: lst' =>
      match atom value with
      | Some text => [buf ++ text]
      | None => buf :: chunks_of value
      end ++ iterencode_list_items chunks_of separator separator lst'
  end.

(** The loop of [_iterencode_dict]. *)
Fixpoint iterencode_dict_items (chunks_of : json -> list str)
    (item_separator : str) (first : bool) (items : list (str * json))
    : list str :=
  match items with
  | [] => []
  | (key, value) :: items' =>
      (if first then [] else [item_separator])
      ++ [encode_basestring_ascii key; lit ": "]
      ++ match atom value with
         | Some text => [text]
         | None => chunks_of value
         end
      ++ iterencode_dict_items chunks_of item_separator false items'
  end.

(** [_iterencode]: the chunks in the order they are yielded. *)
Fixpoint iterencode (o : json) (level : nat) : list str :=
  match o with
  | JArr lst =>
      match lst with
      | [] => [lit "[]"]
      | _ :: _ =>
          let newline := newline_indent (S level) in
          let separator := lit "," ++ newline in
          iterencode_list_items (fun value => iterencode value (S level))
            separator (lit "[" ++ newline) lst
          ++ [newline_indent level; lit "]"]
      end
  | JObj dct =>
      match dct with
      | [] => [lit "{}"]
      | _ :: _ =>
          let newline := newline_indent (S level) in
          let item_separator := lit "," ++ newline in
          [lit "{"; newline]
          ++ iterencode_dict_items (fun value => iterencode value (S level))
               item_separator true dct
          ++ [newline_indent level; lit "}"]
      end
  | _ => match atom o with Some text => [text] | None => [] end
  end.

(** [json.dumps(o, indent=indent)]. *)
Definition json_dumps (o : json) : str := concat (iterencode o 0).

End Encoder.
End JsonEncode.
Export JsonEncode.

(** ** Configuration and data model *)

(** An aware UTC [datetime], in microseconds since the epoch; the state
    file holds it in ISO format, which [fromisoformat] reads back. *)
Definition datetime := Z.

Definition TTL_MINUTES : Z := 360.

(** [timedelta(minutes=m)]. *)
Definition timedelta_minutes (m : Z) : Z := m * 60 * 1000000.

Definition MARKER : str := lit "Exchange session: Badger sent ".

(** One entry of the rule set: [{"rule_id": ..., "expires_at": ...}]. *)
Record RuleRecord : Type := mkRule {
  rule_id : str;
  expires_at : datetime
}.

(** The state document at the types [main] uses it at:
    [{"last_position": int, "rules": {ip: record}}]. *)
Record State : Type := mkState {
  last_position : Z;
  rules : dict RuleRecord
}.

(** The settings the script reads when it is loaded: the environment
    variables (after [load_dotenv]) as [os.getenv] returns them. *)
Definition RESOURCE_ID : str := lit "1".

Record Settings : Type := mkSettings {
  PANGOLIN_API_URL : option str;
  PANGOLIN_API_TOKEN : option str;
  LOG_FILE : option str;
  STATE_FILE : option str
}.

(** [bool(v)] for what [os.getenv] returns. *)
Definition env_truthy (v : option str) : bool :=
  match v with
  | Some s => nonempty s
  | None => false
  end.

(** The module's top level, up to the definitions: the settings, or
    [sys.exit(1)] when [all([...])] fails. *)
Definition load_settings (getenv : str -> option str) : result Settings :=
  let s := {| PANGOLIN_API_URL := getenv (lit "API_URL");
              PANGOLIN_API_TOKEN := getenv (lit "API_KEY");
              LOG_FILE := getenv (lit "LOG_PATH");
              STATE_FILE := getenv (lit "STATE_PATH") |} in
  if negb (forallb env_truthy
             [PANGOLIN_API_URL s; PANGOLIN_API_TOKEN s; Some RESOURCE_ID;
              LOG_FILE s; STATE_FILE s])
  then Raise (SystemExit 1)
  else Ret s.

(** ** State store *)

(** What [open(path, "r")] and reading it meet. *)
Inductive file : Type :=
| NoFile                  (* FileNotFoundError *)
| NoAccess                (* PermissionError *)
| Undecodable             (* the bytes are not text: UnicodeDecodeError *)
| Text (content : str).

Definition default_state : json :=
  JObj [(lit "last_position", JInt 0); (lit "rules", JObj [])].

(** The [try] block yields [Some data] where the source returns [data]
    and [None] where it falls through to [return default]. *)
Definition load_state (f : file) : result json :=
  found ← try_except
    (data ← match f with
            | NoFile => Raise FileNotFoundError
            | NoAccess => Raise PermissionError
            | Undecodable => Raise UnicodeDecodeError
            | Text s => json_loads s
            end;
     has_position ← py_in (lit "last_position") data;
     has_both ← (if has_position : bool then py_in (lit "rules") data else Ret false);
     Ret (if has_both : bool then Some data else None))
    is_FileNotFound_or_JSONDecode
    (Ret None);
  Ret (default default_state found).

(** The file system, as far as [save_state] touches it: regular files by
    path. *)
Inductive fs_op : Type :=
| OpenTruncate (p : str)               (* open(p, "w") *)
| WriteChunk (p : str) (chunk : str)   (* f.write(chunk) *)
| Replace (src dst : str).             (* os.replace(src, dst) *)

Definition fs_apply (σ : gmap str str) (op : fs_op) : gmap str str :=
  match op with
  | OpenTruncate p => <[p := []]> σ
  | WriteChunk p chunk =>
      match σ !! p with
      | Some old => <[p := old ++ chunk]> σ
      | None => σ
      end
  | Replace src dst =>
      match σ !! src with
      | Some content => <[dst := content]> (delete src σ)
      | None => σ
      end
  end.

Definition fs_run (ops : list fs_op) (σ : gmap str str) : gmap str str :=
  fold_left fs_apply ops σ.

(** The file a path names. *)
Definition fs_file (σ : gmap str str) (p : str) : file :=
  match σ !! p with
  | Some content => Text content
  | None => NoFile
  end.

(** [s.rstrip("/")], on the reversed string. *)
Fixpoint lstrip_slash (l : str) : str :=
  match l with
  | c :: l' => if (c =? ord "/")%N then lstrip_slash l' else l
  | [] => []
  end.

(** [os.path.dirname] on POSIX paths. *)
Definition dirname (p : str) : str :=
  let head := match rfind (lit "/") p with
              | Some i => firstn (S i) p
              | None => []
              end in
  if forallb (N.eqb (ord "/")) head then head
  else rev (lstrip_slash (rev head)).

(** [f"{path}.tmp"]. *)
Definition tmp_path (path : str) : str := path ++ lit ".tmp".

(** [save_state(path, state)] as the file operations it performs, in
    order; [chunks] are the pieces [json.dump(state, f, indent=2)] writes.
    A crash leaves the file system after some prefix of them. *)
Definition save_state (path : str) (chunks : list str) : list fs_op :=
  OpenTruncate (tmp_path path)
  :: List.map (WriteChunk (tmp_path path)) chunks
  ++ [Replace (tmp_path path) path].

(** ** Event extractor *)


(** [s.index(sub)] and [s.rindex(sub)]. *)
Definition index (sub s : str) : result nat :=
  match find sub s with Some i => Ret i | None => Raise ValueError end.

Definition rindex (sub s : str) : result nat :=
  match rfind sub s with Some i => Ret i | None => Raise ValueError end.

(** [v.split(sep)[0]]: only a [str] has the method. *)
Definition py_split_head (v : json) (sep : str) : result str :=
  match v with
  | JStr s => Ret (split_head sep s)
  | _ => Raise AttributeError
  end.

(** The [try] block yields [Some ip] where the source returns [ip]. *)
Definition extract_login_ip (line : str) : result (option str) :=
  if negb (contains MARKER line) then Ret None
  else
    try_except
      (i ← index (lit "{") line;
       j ← rindex (lit "}") line;
       let json_part := slice i (j + 1) line in
       payload ← json_loads json_part;
       ip_port ← py_get payload (lit "requestIp") (JStr []);
       ip ← py_split_head ip_port (lit ":");
       Ret (if nonempty ip && contains (lit ".") ip then Some ip else None))
      is_ValueError
      (Ret None).

(** ** The world around one invocation *)

(** What [requests.put] and [requests.delete] do. *)
Inductive http_result : Type :=
| RequestFailed                                  (* timeout, transport error *)
| Response (status_code : Z) (body : option json).
    (* [body]: what [resp.json()] returns, [None] when it raises *)

Inductive event : Type :=
| EvNow (t : datetime)                       (* datetime.now(timezone.utc) *)
| EvDelete (rule_id : str) (r : http_result) (* requests.delete for a rule *)
| EvLine (line : str)                        (* the log yields a line *)
| EvPut (ip : str) (r : http_result)         (* requests.put for an address *)
| EvSave (st : State).                       (* save_state *)

(** Everything outside the script that one run of [main] observes. The
    clock and the remote service answer by call number, so that the same
    address or rule may be answered differently each time. *)
Record Env : Type := mkEnv {
  env_state : State;              (* what load_state(STATE_FILE) returned *)
  env_getsize : option Z;         (* os.path.getsize(LOG_FILE), None: no file *)
  env_log : option str;           (* the text of LOG_FILE when it is opened *)
  env_now : nat -> datetime;
  env_put : nat -> http_result;
  env_delete : nat -> http_result
}.

(** The run so far: the events in order and how many times the clock and
    the service were asked. *)
Record World : Type := mkWorld {
  w_trace : list event;
  w_now : nat;
  w_put : nat;
  w_delete : nat
}.

Definition world0 : World := mkWorld [] 0 0 0.

Definition io (A : Type) : Type := World -> result A * World.

#[global] Instance io_ret : MRet io := fun _ a w => (Ret a, w).
#[global] Instance io_bind : MBind io := fun _ _ f m w =>
  match m w with
  | (Ret a, w') => f a w'
  | (Raise e, w') => (Raise e, w')
  end.

Definition io_raise {A} (e : exn) : io A := fun w => (Raise e, w).

Definition io_try_except {A} (body : io A) (classes : exn -> bool)
    (handler : io A) : io A := fun w =>
  match body w with
  | (Ret a, w') => (Ret a, w')
  | (Raise e, w') => if classes e then handler w' else (Raise e, w')
  end.

Definition lift {A} (r : result A) : io A := fun w => (r, w).

Definition emit (e : event) : io unit := fun w =>
  (Ret tt, mkWorld (w_trace w ++ [e]) (w_now w) (w_put w) (w_delete w)).

(** [for x in xs: acc = body(acc, x)]. *)
Fixpoint for_each {A S} (body : S -> A -> io S) (acc : S) (xs : list A) : io S :=
  match xs with
  | [] => mret acc
  | x :: xs' => acc' ← body acc x; for_each body acc' xs'
  end.

(** ** Log scanner *)

(** Text mode with universal newlines: a carriage return, alone or before
    a line feed, reaches the program as one line feed. *)
Fixpoint translate_newlines (s : str) : str :=
  match s with
  | [] => []
  | c :: s' =>
      if (c =? 13)%N then
        10%N :: match s' with
                | c' :: s'' =>
                    if (c' =? 10)%N then translate_newlines s''
                    else translate_newlines s'
                | [] => []
                end
      else c :: translate_newlines s'
  end.

(** [for line in f]: every line keeps its line feed; the last one may
    lack it. *)
Fixpoint split_lines (s : str) : list str :=
  match s with
  | [] => []
  | c :: s' =>
      if (c =? 10)%N then [c] :: split_lines s'
      else match split_lines s' with
           | [] => [[c]]
           | l :: ls => (c :: l) :: ls
           end
  end.

(** The text from byte offset [pos] on. An offset inside a character
    leaves a continuation byte first, which the decoder refuses; an
    offset past the end leaves nothing. *)
Fixpoint seek (pos : Z) (s : str) : result str :=
  if pos <=? 0 then Ret s
  else match s with
       | [] => Ret []
       | c :: s' =>
           if utf8_width c <=? pos then seek (pos - utf8_width c) s'
           else Raise UnicodeDecodeError
       end.

(** [f.seek(pos)] and the lines read from there to the end of file. *)
Definition read_lines (content : str) (pos : Z) : result (list str) :=
  if pos <? 0 then Raise ValueError
  else rest ← seek pos content; Ret (split_lines (translate_newlines rest)).

(** ** Access-control client and [main] *)

Section Script.

(** [repr] of a [float], a [list] or a [dict]: the one piece of Python's
    formatting the model takes as given. *)
Variable py_repr : json -> str.

Variable env : Env.

(** [str(v)]. *)
Definition py_str (v : json) : str :=
  match v with
  | JStr s => s
  | JInt n => lit (DecimalString.NilZero.string_of_int (Z.to_int n))
  | JBool true => lit "True"
  | JBool false => lit "False"
  | JNull => lit "None"
  | JFloat _ | JArr _ | JObj _ => py_repr v
  end.

Definition utcnow : io datetime := fun w =>
  let t := env_now env (w_now w) in
  (Ret t, mkWorld (w_trace w ++ [EvNow t]) (S (w_now w)) (w_put w) (w_delete w)).

(** [requests.put(url, headers=HEADERS, json=body, timeout=10)] for the
    rule of [ip]: the status code and [resp.json()]. *)
Definition requests_put (ip : str) : io (Z * option json) := fun w =>
  let r := env_put env (w_put w) in
  let w' := mkWorld (w_trace w ++ [EvPut ip r]) (w_now w) (S (w_put w)) (w_delete w) in
  match r with
  | RequestFailed => (Raise RequestException, w')
  | Response status_code body => (Ret (status_code, body), w')
  end.

(** [requests.delete(url, headers=HEADERS, timeout=10)]. *)
Definition requests_delete (rule_id : str) : io (Z * option json) := fun w =>
  let r := env_delete env (w_delete w) in
  let w' := mkWorld (w_trace w ++ [EvDelete rule_id r]) (w_now w) (w_put w) (S (w_delete w)) in
  match r with
  | RequestFailed => (Raise RequestException, w')
  | Response status_code body => (Ret (status_code, body), w')
  end.

Definition resp_json (body : option json) : result json :=
  match body with
  | Some v => Ret v
  | None => Raise JSONDecodeError
  end.

Definition create_rule (ip : str) : io (option str) :=
  io_try_except
    ('(status_code, body) ← requests_put ip;
     if (status_code =? 200) || (status_code =? 201) then
       data ← lift (resp_json body);
       inner ← lift (py_get data (lit "data") (JObj []));
       rule_id ← lift (py_get inner (lit "ruleId") JNull);
       rule_id ← (if negb (truthy rule_id)
                  then lift (py_get data (lit "id") JNull)
                  else mret rule_id);
       if truthy rule_id then mret (Some (py_str rule_id)) else mret None
     else mret None)
    is_Exception
    (mret None).

Definition delete_rule (rule_id : str) : io bool :=
  '(status_code, _) ← requests_delete rule_id;
  if (status_code =? 200) || (status_code =? 204) then mret true else mret false.

(** One turn of the pruning loop, [updated_rules] being built. *)
Definition prune_rule (now : datetime) (updated_rules : dict RuleRecord)
    (item : str * RuleRecord) : io (dict RuleRecord) :=
  let '(ip, info) := item in
  if expires_at info <=? now then
    success ← delete_rule (rule_id info);
    if negb success then mret (dict_set ip info updated_rules)
    else mret updated_rules
  else mret (dict_set ip info updated_rules).

(** One turn of the scanning loop over [(new_position, active_rules)]. *)
Definition scan_line (acc : Z * dict RuleRecord) (line : str)
    : io (Z * dict RuleRecord) :=
  let '(new_position, active_rules) := acc in
  emit (EvLine line);;
  let new_position := new_position + utf8_len line in
  ip ← lift (extract_login_ip line);
  match ip with
  | Some ip =>
      if nonempty ip then
        if negb (dict_mem ip active_rules) then
          rule_id ← create_rule ip;
          match rule_id with
          | Some rule_id =>
              if nonempty rule_id then
                t ← utcnow;
                let exp_time := t + timedelta_minutes TTL_MINUTES in
                mret (new_position,
                      dict_set ip (mkRule rule_id exp_time) active_rules)
              else mret (new_position, active_rules)
          | None => mret (new_position, active_rules)
          end
        else mret (new_position, active_rules)
      else mret (new_position, active_rules)
  | None => mret (new_position, active_rules)
  end.

(** [main], returning the state it saved. *)
Definition main : io State :=
  let state := env_state env in
  let last_position := last_position state in
  let active_rules := rules state in
  now ← utcnow;
  current_size ← match env_getsize env with
                 | Some n => mret n
                 | None => io_raise (SystemExit 1)
                 end;
  let last_position := if current_size <? last_position then 0 else last_position in
  updated_rules ← for_each (prune_rule now) [] active_rules;
  let active_rules := updated_rules in
  content ← match env_log env with
            | Some text => mret text
            | None => io_raise (SystemExit 1)
            end;
  lines ← lift (read_lines content last_position);
  '(new_position, active_rules) ← for_each scan_line (last_position, active_rules) lines;
  let state := mkState new_position active_rules in
  emit (EvSave state);;
  mret state.

End Script.

(** * Vocabulary of the properties *)

(** The byte lengths of a list of lines, summed. *)
Definition total_bytes (lines : list str) : Z :=
  fold_right (fun line n => utf8_len line + n) 0 lines.

(** The lines a trace consumed, in order. *)
Definition trace_lines (tr : list event) : list str :=
  omap (fun e => match e with EvLine line => Some line | _ => None end) tr.

(** The addresses create calls were issued for, in order. *)
Definition put_calls (tr : list event) : list str :=
  omap (fun e => match e with EvPut ip _ => Some ip | _ => None end) tr.

(** The world after [tr] more events, [dn] more clock readings, [dp]
    more create calls and [dd] more delete calls. *)
Definition w_extend (w : World) (tr : list event) (dn dp dd : nat) : World :=
  mkWorld (w_trace w ++ tr) (dn + w_now w) (dp + w_put w) (dd + w_delete w).

(** [delete_rule] answers [True]. *)
Definition delete_ok (r : http_result) : bool :=
  match r with
  | Response status_code _ => (status_code =? 200) || (status_code =? 204)
  | RequestFailed => false
  end.

(** The entries of the rule set whose time has come, in the order the
    pruning loop meets them. *)
Definition expired_rules (now : datetime) (rs : dict RuleRecord)
    : list (str * RuleRecord) :=
  List.filter (fun item => expires_at (snd item) <=? now) rs.

(** The delete calls for a list of expired entries, the first of them
    being call number [n] of the run. *)
Fixpoint deletion_attempts (env : Env) (n : nat)
    (expired : list (str * RuleRecord)) : list event :=
  match expired with
  | [] => []
  | item :: rest =>
      EvDelete (rule_id (snd item)) (env_delete env n)
      :: deletion_attempts env (S n) rest
  end.

(** What the pruning loop keeps of [rs] when its first delete call is
    call number [n]. *)
Fixpoint kept_rules (env : Env) (now : datetime) (n : nat)
    (rs : dict RuleRecord) : dict RuleRecord :=
  match rs with
  | [] => []
  | item :: rest =>
      if expires_at (snd item) <=? now then
        if delete_ok (env_delete env n) then kept_rules env now (S n) rest
        else item :: kept_rules env now (S n) rest
      else item :: kept_rules env now n rest
  end.

(** The identifier a response body [d] carries, as [create_rule] looks
    for it: [d["data"]], when there, is an object; a truthy
    [d["data"]["ruleId"]] comes first, a truthy [d["id"]] second. *)
Definition response_identifier (d : dict json) (v : json) : Prop :=
  exists inner : dict json,
    (dict_get (lit "data") d = None /\ inner = []
     \/ dict_get (lit "data") d = Some (JObj inner))
    /\ truthy v = true
    /\ (dict_get (lit "ruleId") inner = Some v
        \/ (forall u, dict_get (lit "ruleId") inner = Some u -> truthy u = false)
           /\ dict_get (lit "id") d = Some v).

(** The ways one turn of the scanning loop can go, from the accumulator
    [acc] and the world [w]. *)
Inductive scan_outcome (py_repr : json -> str) (env : Env)
    (acc : Z * dict RuleRecord) (line : str) (w : World)
    : result (Z * dict RuleRecord) -> World -> Prop :=
| scan_raises e :
    extract_login_ip line = Raise e ->
    scan_outcome py_repr env acc line w
      (Raise e) (w_extend w [EvLine line] 0 0 0)
| scan_passes o :
    extract_login_ip line = Ret o ->
    (forall ip, o = Some ip -> ip = [] \/ dict_mem ip (snd acc) = true) ->
    scan_outcome py_repr env acc line w
      (Ret (fst acc + utf8_len line, snd acc)) (w_extend w [EvLine line] 0 0 0)
| scan_refused ip o :
    extract_login_ip line = Ret (Some ip) ->
    dict_mem ip (snd acc) = false ->
    fst (create_rule py_repr env ip (w_extend w [EvLine line] 0 0 0)) = Ret o ->
    o = None \/ o = Some [] ->
    scan_outcome py_repr env acc line w
      (Ret (fst acc + utf8_len line, snd acc))
      (w_extend w [EvLine line; EvPut ip (env_put env (w_put w))] 0 1 0)
| scan_creates ip rid :
    extract_login_ip line = Ret (Some ip) ->
    dict_mem ip (snd acc) = false ->
    fst (create_rule py_repr env ip (w_extend w [EvLine line] 0 0 0)) = Ret (Some rid) ->
    rid <> [] ->
    scan_outcome py_repr env acc line w
      (Ret (fst acc + utf8_len line,
            dict_set ip
              (mkRule rid (env_now env (w_now w) + timedelta_minutes TTL_MINUTES))
              (snd acc)))
      (w_extend w [EvLine line; EvPut ip (env_put env (w_put w));
                   EvNow (env_now env (w_now w))] 1 1 0).

(** [main] reaches its scanning loop at offset [start], with the rule set
    [pruned] that pruning left, the lines [lines] still to read and the
    world [w1]. *)
Definition reaches_scan (env : Env) (start : Z) (pruned : dict RuleRecord)
    (lines : list str) (w1 : World) : Prop :=
  exists size content,
    env_getsize env = Some size /\
    env_log env = Some content /\
    start = (if size <? last_position (env_state env) then 0
             else last_position (env_state env)) /\
    for_each (prune_rule env (env_now env 0)) [] (rules (env_state env))
      (w_extend world0 [EvNow (env_now env 0)] 1 0 0) = (Ret pruned, w1) /\
    read_lines content start = Ret lines.

(** A Unicode scalar value: a code point that is not a surrogate. Text
    decoded from UTF-8 holds nothing else. *)
Definition is_scalar (c : N) : bool :=
  (c <? 55296)%N || ((57343 <? c)%N && (c <? 1114112)%N).

(** No two of the keys are equal, as in every Python [dict]. *)
Fixpoint distinct (ks : list str) : bool :=
  match ks with
  | [] => true
  | k :: ks' => negb (existsb (str_eqb k) ks') && distinct ks'
  end.

(** A document of strings, integers, booleans, [None], lists and dicts:
    no float anywhere, every string (the keys too) made of scalar values,
    the keys of every dict distinct. *)
Fixpoint plain (v : json) : bool :=
  match v with
  | JNull | JBool _ | JInt _ => true
  | JFloat _ => false
  | JStr s => forallb is_scalar s
  | JArr items => forallb plain items
  | JObj members =>
      distinct (List.map fst members)
      && forallb (fun kv => forallb is_scalar (fst kv) && plain (snd kv)) members
  end.

(** What may follow a number in a JSON text without being read as part
    of it. *)
Definition ends_number (rest : str) : bool :=
  match rest with
  | [] => true
  | c :: _ =>
      negb (is_digit c || (c =? ord ".")%N || (c =? ord "e")%N || (c =? ord "E")%N)
  end.

(** The events of the pruning loop, and those of the scanning loop. *)
Definition is_prune_event (e : event) : bool :=
  match e with
  | EvDelete _ _ => true
  | _ => false
  end.

Definition is_scan_event (e : event) : bool :=
  match e with
  | EvLine _ | EvPut _ _ | EvNow _ => true
  | _ => false
  end.

(** The create call that is due for a line, the rule set being
    [active_rules]: one for the address the line yields, unless the
    address is a key. *)
Definition expected_put (active_rules : dict RuleRecord) (line : str) : list str :=
  match extract_login_ip line with
  | Ret (Some ip) => if dict_mem ip active_rules then [] else [ip]
  | _ => []
  end.

(** The offset [main] starts reading at: the saved one, or 0 when the log
    is shorter than that. *)
Definition start_offset (env : Env) (size : Z) : Z :=
  if size <? last_position (env_state env) then 0
  else last_position (env_state env).

(** ** Sample inputs *)

(** A log line of a login from [ip], as the badger writes it. *)
Definition login_line (ip : str) : str :=
  lit "2025-06-01T10:00:00Z [debug] Exchange session: Badger sent {"
  ++ [QUOTE] ++ lit "requestIp" ++ [QUOTE] ++ lit ": "
  ++ [QUOTE] ++ ip ++ lit ":51423" ++ [QUOTE] ++ lit "}" ++ [10%N].

(** A login line whose [requestIp] is [null]. *)
Definition null_ip_line : str :=
  lit "2025-06-01T10:00:00Z [debug] Exchange session: Badger sent {"
  ++ [QUOTE] ++ lit "requestIp" ++ [QUOTE] ++ lit ": null}" ++ [10%N].

(** The service's answer to a create call that made rule [n]. *)
Definition created (n : Z) : http_result :=
  Response 201 (Some (JObj [(lit "data", JObj [(lit "ruleId", JInt n)])])).

(** No sample identifier is a float, a list or a dict. *)
Definition sample_repr : json -> str := fun _ => lit "<repr>".

(** A run over the log [log] from the state [st]: the log does not change
    during the run, the clock reads 1000, 1001, ..., create calls make
    rules 7, 8, ..., and every delete call is answered [deleted]. *)
Definition run_env (st : State) (log : str) (deleted : http_result) : Env := {|
  env_state := st;
  env_getsize := Some (utf8_len log);
  env_log := Some log;
  env_now := fun n => 1000 + Z.of_nat n;
  env_put := fun n => created (7 + Z.of_nat n);
  env_delete := fun _ => deleted
|}.

(** A first run over a log of one login. *)
Definition first_login_env : Env :=
  run_env (mkState 0 []) (login_line (lit "203.0.113.5")) (Response 500 None).

(** A first run over two logins from the same address. *)
Definition sample_log : str :=
  login_line (lit "203.0.113.5") ++ login_line (lit "203.0.113.5").

Definition sample_env : Env :=
  run_env (mkState 0 []) sample_log (Response 500 None).

Definition sample_saved : State :=
  mkState 188
    [(lit "203.0.113.5", mkRule (lit "7") (1001 + timedelta_minutes TTL_MINUTES))].

(** A later run: the rule of 203.0.113.5 has expired, the service deletes
    it when asked, and the log holds a new login from that address. *)
Definition readmit_env : Env :=
  run_env (mkState 0 [(lit "203.0.113.5", mkRule (lit "5") 900)])
    (login_line (lit "203.0.113.5")) (Response 200 None).

(** A run that finds an expired rule, a service that answers the delete
    call with [answer] (or not at all), and nothing new in the log. *)
Definition stuck_env (answer : http_result) : Env :=
  run_env (mkState 0 [(lit "203.0.113.5", mkRule (lit "5") 900)]) [] answer.

(** A run over a login line whose [requestIp] is [null]. *)
Definition null_ip_env : Env :=
  run_env (mkState 0 []) null_ip_line (Response 200 None).

(** A rotated log of one line that ends in carriage return and line feed:
    three bytes, fewer than the saved offset. *)
Definition crlf_log : str := [ord "a"; 13%N; 10%N].

Definition crlf_env : Env :=
  run_env (mkState 10 []) crlf_log (Response 200 None).

(** A service that answers every create call with [r]. *)
Definition put_env (r : http_result) : Env := {|
  env_state := mkState 0 [];
  env_getsize := Some 0;
  env_log := Some [];
  env_now := fun n => 1000 + Z.of_nat n;
  env_put := fun _ => r;
  env_delete := fun _ => Response 500 None
|}.

(** A state document as [main] saves it, one rule in it. *)
Definition sample_doc : json :=
  JObj [(lit "last_position", JInt 188);
        (lit "rules",
         JObj [(lit "203.0.113.5",
                JObj [(lit "rule_id", JStr (lit "7"));
                      (lit "expires_at", JStr (lit "2025-06-01T16:00:00+00:00"))])])].

(** A [float.__repr__] for documents without floats. *)
Definition sample_floatstr : pyfloat -> str := fun _ => lit "0.0".

Definition sample_path : str := lit "/var/lib/whitelist/state.json".

(** A character that stands for itself inside a JSON string: no control
    character, quotation mark or backslash. *)
Definition is_literal (c : N) : bool :=
  (32 <=? c)%N && negb (c =? QUOTE)%N && negb (c =? ord "\")%N.

(** A log line of the session exchange: anything, the marker, and an
    object whose [requestIp] is [ip], a colon and [port]; then the rest
    of the line. *)
Definition exchange_line (pre ip port post : str) : str :=
  pre ++ MARKER
  ++ (lit "{" ++ [QUOTE] ++ lit "requestIp" ++ [QUOTE] ++ lit ": "
      ++ [QUOTE] ++ (ip ++ lit ":" ++ port) ++ [QUOTE] ++ lit "}")
  ++ post.

(** A run that finds nothing to do: the rule it knows has not expired and
    the log ends where the last run stopped. *)
Definition idle_env : Env :=
  run_env
    (mkState 94 [(lit "203.0.113.5", mkRule (lit "7") (1001 + timedelta_minutes TTL_MINUTES))])
    (login_line (lit "203.0.113.5")) (Response 500 None).

(** The run after [first_login_env]: a login from another address has
    been appended to the log. *)
Definition second_run_env : Env :=
  run_env
    (mkState 94 [(lit "203.0.113.5", mkRule (lit "7") (1001 + timedelta_minutes TTL_MINUTES))])
    (login_line (lit "203.0.113.5") ++ login_line (lit "198.51.100.7"))
    (Response 500 None).

(** A run over a log that was rotated: one line, shorter than the saved
    offset. *)
Definition rotated_env : Env :=
  run_env (mkState 500 []) (login_line (lit "203.0.113.5")) (Response 500 None).

(** * Properties *)

(** ** Strings and dictionaries *)

Lemma str_eqb_eq (s t : str) : str_eqb s t = true <-> s = t.
Proof.
  revert t. induction s as [|a s IH]; intros [|b t]; simpl; split;
    try done.
  - intros [Hab Hst]%andb_prop. apply N.eqb_eq in Hab. apply IH in Hst.
    by subst.
  - intros [= -> ->]. rewrite N.eqb_refl. simpl. by apply IH.
Qed.

Lemma str_eqb_refl (s : str) : str_eqb s s = true.
Proof. by apply str_eqb_eq. Qed.

Lemma str_eqb_neq (s t : str) : str_eqb s t = false <-> s <> t.
Proof.
  split.
  - intros H ->. by rewrite str_eqb_refl in H.
  - intros H. destruct (str_eqb s t) eqn:E; [|done].
    apply str_eqb_eq in E. done.
Qed.

Section DictFacts.
Context {V : Type}.
Implicit Types (d : dict V) (k : str) (v : V).

Lemma dict_mem_true k d : dict_mem k d = true <-> is_Some (dict_get k d).
Proof.
  unfold dict_mem. destruct (dict_get k d); split; intros H; done.
Qed.

Lemma dict_mem_false k d : dict_mem k d = false <-> dict_get k d = None.
Proof. unfold dict_mem. by destruct (dict_get k d). Qed.

Lemma dict_get_set_eq k v d : dict_get k (dict_set k v d) = Some v.
Proof.
  induction d as [|[k' v'] d IH]; simpl.
  - by rewrite str_eqb_refl.
  - destruct (str_eqb k k') eqn:E; simpl; rewrite E; done.
Qed.

Lemma dict_get_set_ne k k' v d :
  k <> k' -> dict_get k' (dict_set k v d) = dict_get k' d.
Proof.
  intros Hne.
  assert (Hk : str_eqb k' k = false) by (apply str_eqb_neq; congruence).
  induction d as [|[k0 v0] d IH]; simpl.
  - by rewrite Hk.
  - destruct (str_eqb k k0) eqn:E; simpl.
    + apply str_eqb_eq in E as <-. by rewrite Hk.
    + by rewrite IH.
Qed.

(** Assigning to a key that is not there appends the entry. *)
Lemma dict_set_fresh k v d :
  dict_get k d = None -> dict_set k v d = d ++ [(k, v)].
Proof.
  induction d as [|[k' v'] d IH]; simpl; [done|].
  destruct (str_eqb k k'); [done|]. intros H. by rewrite IH.
Qed.

Lemma dict_get_app k d1 d2 :
  dict_get k (d1 ++ d2) =
  match dict_get k d1 with Some v => Some v | None => dict_get k d2 end.
Proof.
  induction d1 as [|[k' v'] d1 IH]; simpl; [done|].
  by destruct (str_eqb k k').
Qed.

Lemma dict_get_None_keys k d : dict_get k d = None <-> k ∉ dict_keys d.
Proof.
  induction d as [|[k' v'] d IH]; simpl.
  - split; [intros _; apply not_elem_of_nil | done].
  - unfold dict_keys in *. simpl. rewrite not_elem_of_cons.
    destruct (str_eqb k k') eqn:E.
    + apply str_eqb_eq in E. split; [done | intros []; done].
    + apply str_eqb_neq in E. rewrite IH. tauto.
Qed.

Lemma dict_get_In k v d :
  NoDup (dict_keys d) -> In (k, v) d -> dict_get k d = Some v.
Proof.
  induction d as [|[k' v'] d IH]; simpl; [done|].
  unfold dict_keys in *. simpl. intros [Hk Hd]%NoDup_cons [[= -> ->]|Hin].
  - by rewrite str_eqb_refl.
  - destruct (str_eqb k k') eqn:E; [|by apply IH].
    apply str_eqb_eq in E as ->. exfalso. apply Hk.
    apply list_elem_of_In, in_map_iff. by exists (k', v).
Qed.

End DictFacts.

(** ** Byte lengths and lines *)

Lemma utf8_width_pos (c : N) : 1 <= utf8_width c <= 4.
Proof. unfold utf8_width. repeat case_match; lia. Qed.

Lemma utf8_len_nonneg (s : str) : 0 <= utf8_len s.
Proof.
  induction s as [|c s IH]; simpl; [lia|].
  pose proof (utf8_width_pos c). lia.
Qed.

Lemma utf8_len_app (s t : str) : utf8_len (s ++ t) = utf8_len s + utf8_len t.
Proof. induction s as [|c s IH]; simpl; lia. Qed.

Lemma total_bytes_concat (ls : list str) : total_bytes ls = utf8_len (concat ls).
Proof.
  induction ls as [|l ls IH]; simpl; [done|].
  rewrite utf8_len_app. lia.
Qed.

Lemma total_bytes_app (l1 l2 : list str) :
  total_bytes (l1 ++ l2) = total_bytes l1 + total_bytes l2.
Proof. induction l1 as [|l l1 IH]; simpl; lia. Qed.

(** Cutting a text into lines loses nothing. *)
Lemma concat_split_lines (s : str) : concat (split_lines s) = s.
Proof.
  induction s as [|c s IH]; simpl; [done|].
  destruct (c =? 10)%N; simpl; [by rewrite IH|].
  destruct (split_lines s) as [|l ls]; simpl in *; by rewrite <- IH.
Qed.

(** Newline translation never makes a text longer in bytes. *)
Lemma translate_newlines_le (s : str) :
  utf8_len (translate_newlines s) <= utf8_len s.
Proof.
  assert (H : forall n (s : str), (length s <= n)%nat ->
            utf8_len (translate_newlines s) <= utf8_len s).
  { clear s.
    assert (W10 : utf8_width 10 = 1) by reflexivity.
    assert (W13 : utf8_width 13 = 1) by reflexivity.
    induction n as [|n IH]; intros [|c s] Hlen; simpl in *; try lia.
    destruct (c =? 13)%N eqn:Ec.
    - apply N.eqb_eq in Ec as ->. cbn [utf8_len]. rewrite W10, W13.
      destruct s as [|c' s']; [simpl; lia|].
      pose proof (utf8_width_pos c'). simpl in Hlen.
      destruct (c' =? 10)%N.
      + assert (utf8_len (translate_newlines s') <= utf8_len s')
          by (apply IH; lia).
        cbn [utf8_len]. lia.
      + assert (utf8_len (translate_newlines (c' :: s')) <= utf8_len (c' :: s'))
          by (apply IH; simpl; lia).
        lia.
    - cbn [utf8_len].
      assert (utf8_len (translate_newlines s) <= utf8_len s) by (apply IH; lia).
      lia. }
  by apply (H (length s)).
Qed.

(** Without a carriage return the text is read as it is. *)
Lemma translate_newlines_id (s : str) :
  13%N ∉ s -> translate_newlines s = s.
Proof.
  induction s as [|c s IH]; simpl; [done|].
  intros [Hc Hs]%not_elem_of_cons.
  destruct (c =? 13)%N eqn:E; [apply N.eqb_eq in E; congruence|].
  by rewrite IH.
Qed.

(** What [seek] leaves is never more than the bytes behind the offset. *)
Lemma seek_len (s : str) : forall pos rest,
  0 <= pos -> seek pos s = Ret rest ->
  pos <= utf8_len s -> utf8_len rest = utf8_len s - pos.
Proof.
  induction s as [|c s IH]; intros pos rest Hpos; simpl.
  - destruct (pos <=? 0) eqn:E; intros [= <-]; simpl; lia.
  - destruct (pos <=? 0) eqn:E.
    + intros [= <-]. simpl. lia.
    + destruct (utf8_width c <=? pos) eqn:E'; [|done].
      intros Hs Hle. apply IH in Hs; lia.
Qed.

Lemma seek_0 (s : str) : seek 0 s = Ret s.
Proof. by destruct s. Qed.

(** The lines read from an offset within the file end within the file. *)
Lemma read_lines_bound (content : str) (pos : Z) (lines : list str) :
  read_lines content pos = Ret lines ->
  pos <= utf8_len content ->
  pos + total_bytes lines <= utf8_len content.
Proof.
  unfold read_lines. destruct (pos <? 0) eqn:Hneg; [done|].
  destruct (seek pos content) as [rest|] eqn:Hseek; simpl; [|done].
  intros [= <-] Hle.
  rewrite total_bytes_concat, concat_split_lines.
  pose proof (translate_newlines_le rest).
  apply seek_len in Hseek; lia.
Qed.

(** ** The reader and the extractor *)

Lemma json_loads_raises s e : json_loads s = Raise e -> e = JSONDecodeError.
Proof.
  unfold json_loads. destruct (scan_once _ _) as [[v r]|]; [|by intros [= <-]].
  destruct (skip_ws r); [done|by intros [= <-]].
Qed.

(** Walks [extract_login_ip line] up to its call of [json.loads], closing
    the branches that return [None] on the way. *)
Ltac enter_extract line :=
  unfold extract_login_ip, try_except, index, rindex, py_get, py_split_head;
  destruct (contains MARKER line); simpl; [|done];
  destruct (find _ line); simpl; [|done];
  destruct (rfind _ line); simpl; [|done].

(** What holds of [extract_login_ip] on every line: a line without the
    marker, or whose braces do not hold JSON, yields nothing; an address it
    returns is not empty and has a dot; and the only exception it lets
    through is [AttributeError]. *)
Lemma extract_login_ip_outcomes line :
  (contains MARKER line = false -> extract_login_ip line = Ret None) /\
  (forall i j, find (lit "{") line = Some i -> rfind (lit "}") line = Some j ->
     json_loads (slice i (j + 1) line) = Raise JSONDecodeError ->
     extract_login_ip line = Ret None) /\
  (forall ip, extract_login_ip line = Ret (Some ip) ->
     ip <> [] /\ contains (lit ".") ip = true) /\
  (forall e, extract_login_ip line = Raise e -> e = AttributeError).
Proof.
  split; [|split; [|split]].
  - unfold extract_login_ip. by intros ->.
  - intros i j Hi Hj Hjson. unfold extract_login_ip, try_except, index, rindex.
    destruct (contains MARKER line); simpl; [|done].
    by rewrite Hi, Hj; simpl; rewrite Hjson.
  - intros ip. enter_extract line.
    destruct (json_loads _) as [[]|[]]; simpl; try done.
    destruct (match dict_get _ _ with Some x => x | None => JStr [] end);
      simpl; try done.
    destruct (nonempty _) eqn:Hne; simpl; [|done].
    destruct (contains (lit ".") _) eqn:Hdot; intros [= <-].
    split; [|done]. intros H. by rewrite H in Hne.
  - intros e. enter_extract line.
    destruct (json_loads _) as [[]|e'] eqn:Hjson; simpl;
      try (by intros [= <-]).
    + destruct (match dict_get _ _ with Some x => x | None => JStr [] end);
        simpl; try done; by intros [= <-].
    + apply json_loads_raises in Hjson as ->. done.
Qed.

Lemma extract_login_ip_nonempty line ip :
  extract_login_ip line = Ret (Some ip) -> ip <> [].
Proof.
  intros H. destruct (extract_login_ip_outcomes line) as (_ & _ & Hret & _).
  by destruct (Hret ip H).
Qed.

(** ** Running the script's steps *)

(** Opens the binds and returns of an [io] computation. *)
Ltac io_unfold := unfold mbind, io_bind, mret, io_ret, lift, emit, io_raise.

(** Closes a goal whose hypothesis [H] finds an element in an explicit
    list that does not hold it. *)
Ltac refute_elem_of H :=
  repeat (apply elem_of_cons in H as [H|H]; try done);
  try (by apply elem_of_nil in H).

Section Steps.
Variable py_repr : json -> str.
Variable env : Env.

Lemma w_extend_extend w t1 a b c t2 a' b' c' :
  w_extend (w_extend w t1 a b c) t2 a' b' c' =
  w_extend w (t1 ++ t2) (a' + a) (b' + b) (c' + c).
Proof.
  unfold w_extend. simpl. f_equal; [by rewrite app_assoc | lia..].
Qed.

Lemma w_extend_nil w : w_extend w [] 0 0 0 = w.
Proof. destruct w. unfold w_extend. simpl. by rewrite app_nil_r. Qed.

Lemma utcnow_run w :
  utcnow env w = (Ret (env_now env (w_now w)),
                  w_extend w [EvNow (env_now env (w_now w))] 1 0 0).
Proof. reflexivity. Qed.

(** [create_rule] catches whatever goes wrong: it always returns, after
    exactly one request. *)
Lemma create_rule_run ip w :
  exists o, create_rule py_repr env ip w =
            (Ret o, w_extend w [EvPut ip (env_put env (w_put w))] 0 1 0).
Proof.
  unfold create_rule, io_try_except, requests_put, resp_json, w_extend. io_unfold.
  destruct (env_put env (w_put w)) as [|status body]; simpl; [by eexists|].
  destruct ((status =? 200) || (status =? 201)); [|by eexists].
  destruct body as [data|]; simpl; [|by eexists].
  destruct data as [| | | | | |d]; simpl; try by eexists.
  destruct (match dict_get (lit "data") d with Some x => x | None => JObj [] end)
    as [| | | | | |inner]; simpl; try by eexists.
  destruct (truthy _) eqn:Hrid; simpl.
  - rewrite Hrid. by eexists.
  - clear Hrid. destruct (truthy _); simpl; by eexists.
Qed.

Lemma delete_rule_run rid w :
  delete_rule env rid w =
  (match env_delete env (w_delete w) with
   | RequestFailed => Raise RequestException
   | Response _ _ => Ret (delete_ok (env_delete env (w_delete w)))
   end,
   w_extend w [EvDelete rid (env_delete env (w_delete w))] 0 0 1).
Proof.
  unfold delete_rule, requests_delete, w_extend, delete_ok. io_unfold.
  destruct (env_delete env (w_delete w)) as [|status body]; simpl; [done|].
  by destruct ((status =? 200) || (status =? 204)).
Qed.

Lemma scan_line_outcome acc line w r w' :
  scan_line py_repr env acc line w = (r, w') ->
  scan_outcome py_repr env acc line w r w'.
Proof.
  destruct acc as [pos rs]. unfold scan_line. io_unfold.
  change (mkWorld (w_trace w ++ [EvLine line]) (w_now w) (w_put w) (w_delete w))
    with (w_extend w [EvLine line] 0 0 0).
  destruct (extract_login_ip line) as [[ip|]|e] eqn:Hip.
  3: { intros [= <- <-]. by apply scan_raises. }
  2: { intros [= <- <-]. by eapply (scan_passes _ _ (pos, rs)). }
  destruct (nonempty ip) eqn:Hne.
  2: { intros [= <- <-]. eapply (scan_passes _ _ (pos, rs)); [done|].
       intros ? [= <-]. left. by destruct ip. }
  clear Hne. destruct (dict_mem ip rs) eqn:Hnew; cbn [negb].
  { intros [= <- <-]. eapply (scan_passes _ _ (pos, rs)); [done|].
    intros ? [= <-]. by right. }
  destruct (create_rule_run ip (w_extend w [EvLine line] 0 0 0)) as [o Ho].
  rewrite Ho. rewrite w_extend_extend. simpl app. simpl Nat.add.
  change (env_put env (w_put (w_extend w [EvLine line] 0 0 0)))
    with (env_put env (w_put w)).
  destruct o as [rid|].
  2: { intros [= <- <-]. eapply (scan_refused _ _ (pos, rs)); [done..| |by left].
       by rewrite Ho. }
  destruct (nonempty rid) eqn:Hne.
  2: { intros [= <- <-]. eapply (scan_refused _ _ (pos, rs)); [done..| |right].
       - by rewrite Ho.
       - by destruct rid. }
  rewrite utcnow_run. rewrite w_extend_extend. simpl.
  intros [= <- <-].
  eapply (scan_creates _ _ (pos, rs)); [done..| |].
  - by rewrite Ho.
  - by destruct rid.
Qed.

(** The identifier [create_rule] finds in a body, computed. *)
Lemma response_identifier_compute (d : dict json) (v : json) :
  response_identifier d v <->
  match default (JObj []) (dict_get (lit "data") d) with
  | JObj inner =>
      let first := default JNull (dict_get (lit "ruleId") inner) in
      if truthy first then v = first
      else truthy v = true /\ dict_get (lit "id") d = Some v
  | _ => False
  end.
Proof.
  unfold response_identifier. split.
  - intros (inner & Hdata & Hv & Hid).
    assert (default (JObj []) (dict_get (lit "data") d) = JObj inner) as ->.
    { destruct Hdata as [[-> ->]| ->]; done. }
    simpl. destruct Hid as [Hid|[Hfalsy Hid]].
    + rewrite Hid. simpl. by rewrite Hv.
    + destruct (dict_get (lit "ruleId") inner) as [u|]; simpl; [|done].
      by rewrite (Hfalsy u eq_refl).
  - destruct (dict_get (lit "data") d) as [[| | | | | |inner]|] eqn:Hdata;
      simpl; try done.
    + intros H. exists inner. split; [by right|].
      destruct (dict_get (lit "ruleId") inner) as [u|] eqn:Hu; simpl in H.
      * destruct (truthy u) eqn:Htu.
        -- subst v. split; [done|]. by left.
        -- destruct H as [Hv Hid]. split; [done|]. right. split; [|done].
           by intros ? [= <-].
      * destruct H as [Hv Hid]. split; [done|]. right. split; done.
    + intros [Hv Hid]. exists []. split; [by left|]. split; [done|].
      right. split; done.
Qed.

Lemma create_rule_returns ip w :
  fst (create_rule py_repr env ip w) =
  Ret match env_put env (w_put w) with
      | Response status (Some (JObj d)) =>
          if (status =? 200) || (status =? 201) then
            match default (JObj []) (dict_get (lit "data") d) with
            | JObj inner =>
                let first := default JNull (dict_get (lit "ruleId") inner) in
                if truthy first then Some (py_str py_repr first)
                else let second := default JNull (dict_get (lit "id") d) in
                     if truthy second then Some (py_str py_repr second) else None
            | _ => None
            end
          else None
      | _ => None
      end.
Proof.
  unfold create_rule, io_try_except, requests_put, resp_json. io_unfold.
  destruct (env_put env (w_put w)) as [|status [data|]]; simpl; try done.
  - destruct ((status =? 200) || (status =? 201)); [|by destruct data].
    destruct data as [| | | | | |d]; simpl; try done.
    change (match dict_get (lit "data") d with Some x => x | None => JObj [] end)
      with (default (JObj []) (dict_get (lit "data") d)).
    destruct (default (JObj []) (dict_get (lit "data") d)); simpl; try done.
    change (match dict_get (lit "ruleId") members with Some x => x | None => JNull end)
      with (default JNull (dict_get (lit "ruleId") members)).
    destruct (truthy (default JNull (dict_get (lit "ruleId") members))) eqn:E;
      simpl; [by rewrite E|].
    change (match dict_get (lit "id") d with Some x => x | None => JNull end)
      with (default JNull (dict_get (lit "id") d)).
    by destruct (truthy (default JNull (dict_get (lit "id") d))).
  - by destruct ((status =? 200) || (status =? 201)).
Qed.

End Steps.

(** ** The scanning loop *)

Section Scan.
Variable py_repr : json -> str.
Variable env : Env.

Local Abbreviation scan := (for_each (scan_line py_repr env)).

Lemma for_each_cons {A S} (body : S -> A -> io S) (x : A) (xs : list A) acc w :
  for_each body acc (x :: xs) w =
  match body acc x w with
  | (Ret acc', w') => for_each body acc' xs w'
  | (Raise e, w') => (Raise e, w')
  end.
Proof. reflexivity. Qed.

Lemma for_each_app {A S} (body : S -> A -> io S) (xs ys : list A) acc w :
  for_each body acc (xs ++ ys) w =
  match for_each body acc xs w with
  | (Ret acc', w') => for_each body acc' ys w'
  | (Raise e, w') => (Raise e, w')
  end.
Proof.
  revert acc w. induction xs as [|x xs IH]; intros acc w; [done|].
  rewrite <- app_comm_cons, !for_each_cons.
  destruct (body acc x w) as [[acc'|e] w']; [|done].
  apply IH.
Qed.

(** One turn never drops or changes an entry of the rule set. *)
Lemma scan_outcome_keeps acc line w acc' w' ip info :
  scan_outcome py_repr env acc line w (Ret acc') w' ->
  dict_get ip (snd acc) = Some info ->
  dict_get ip (snd acc') = Some info.
Proof.
  inversion 1; subst; simpl; try done.
  intros Hget. rewrite dict_get_set_ne; [done|].
  intros ->. apply dict_mem_false in H2. congruence.
Qed.

(** One turn asks for no rule for an address that is a key already. *)
Lemma scan_outcome_no_put acc line w r w' ip :
  scan_outcome py_repr env acc line w r w' ->
  dict_mem ip (snd acc) = true ->
  exists tr, w_trace w' = w_trace w ++ tr /\ forall x, EvPut ip x ∉ tr.
Proof.
  intros Hstep Hmem.
  inversion Hstep; subst; simpl; eexists; (split; [reflexivity|]);
    intros x Hin; refute_elem_of Hin; congruence.
Qed.

Lemma scan_keeps lines : forall acc w acc' w' ip info,
  scan acc lines w = (Ret acc', w') ->
  dict_get ip (snd acc) = Some info ->
  dict_get ip (snd acc') = Some info.
Proof.
  induction lines as [|line lines IH]; intros acc w acc' w' ip info.
  - by intros [= <- <-].
  - rewrite for_each_cons.
    destruct (scan_line py_repr env acc line w) as [[acc1|e] w1] eqn:Hline; [|done].
    intros Hrest Hget. eapply IH; [done|].
    eapply scan_outcome_keeps; [|done]. by apply scan_line_outcome.
Qed.

Lemma scan_no_put lines : forall acc w r w' ip,
  scan acc lines w = (r, w') ->
  dict_mem ip (snd acc) = true ->
  exists tr, w_trace w' = w_trace w ++ tr /\ forall x, EvPut ip x ∉ tr.
Proof.
  induction lines as [|line lines IH]; intros acc w r w' ip.
  - intros [= <- <-] _. exists []. split; [by rewrite app_nil_r|].
    intros x. apply not_elem_of_nil.
  - rewrite for_each_cons.
    destruct (scan_line py_repr env acc line w) as [[acc1|e] w1] eqn:Hline.
    + intros Hrest Hmem. apply scan_line_outcome in Hline.
      destruct (scan_outcome_no_put _ _ _ _ _ ip Hline Hmem) as (t1 & Ht1 & Hno1).
      assert (Hmem1 : dict_mem ip (snd acc1) = true).
      { apply dict_mem_true in Hmem as [info Hinfo]. apply dict_mem_true.
        exists info. by eapply scan_outcome_keeps. }
      destruct (IH _ _ _ _ ip Hrest Hmem1) as (t2 & Ht2 & Hno2).
      exists (t1 ++ t2). split; [by rewrite Ht2, Ht1, app_assoc|].
      intros x [?|?]%elem_of_app; [by eapply Hno1 | by eapply Hno2].
    + intros [= <- <-] Hmem. apply scan_line_outcome in Hline.
      by eapply scan_outcome_no_put.
Qed.

End Scan.

(** ** What a scan leaves in the trace *)

Section ScanTrace.
Variable py_repr : json -> str.
Variable env : Env.

Local Abbreviation scan := (for_each (scan_line py_repr env)).

Lemma trace_lines_app (t1 t2 : list event) :
  trace_lines (t1 ++ t2) = trace_lines t1 ++ trace_lines t2.
Proof. unfold trace_lines. apply omap_app. Qed.

(** One turn consumes its line, advances the offset by the line's bytes
    and talks to the clock and to the create call only. *)
Lemma scan_outcome_world acc line w r w' :
  scan_outcome py_repr env acc line w r w' ->
  exists chunk dn dp,
    w' = w_extend w chunk dn dp 0 /\
    trace_lines chunk = [line] /\
    (forall rid x, EvDelete rid x ∉ chunk) /\
    (forall acc', r = Ret acc' -> fst acc' = fst acc + utf8_len line).
Proof.
  inversion 1; subst; do 3 eexists; (split; [reflexivity|]);
    (split; [reflexivity|]); (split; [|by intros ? [= <-]]);
    intros ?? Hin; refute_elem_of Hin.
Qed.

Lemma scan_trace lines : forall acc w r w',
  scan acc lines w = (r, w') ->
  exists tr dn dp,
    w' = w_extend w tr dn dp 0 /\
    (forall rid x, EvDelete rid x ∉ tr) /\
    (forall acc', r = Ret acc' ->
       trace_lines tr = lines /\ fst acc' = fst acc + total_bytes lines).
Proof.
  induction lines as [|line lines IH]; intros acc w r w'.
  - simpl. intros [= <- <-]. exists [], 0%nat, 0%nat.
    rewrite w_extend_nil. split; [done|]. split; [intros ??; apply not_elem_of_nil|].
    intros ? [= <-]. simpl. split; [done|lia].
  - rewrite for_each_cons.
    destruct (scan_line py_repr env acc line w) as [[acc1|e] w1] eqn:Hline;
      apply scan_line_outcome, scan_outcome_world in Hline
        as (chunk & dn & dp & -> & Hchunk & Hnodel & Hpos).
    + intros (tr & dn' & dp' & -> & Hnodel' & Hres)%IH.
      exists (chunk ++ tr), (dn' + dn)%nat, (dp' + dp)%nat.
      rewrite w_extend_extend. split; [done|]. split.
      * intros rid x [?|?]%elem_of_app; [by eapply Hnodel | by eapply Hnodel'].
      * intros acc' Hr. destruct (Hres acc' Hr) as [Htr Hfst].
        rewrite trace_lines_app, Hchunk, Htr. split; [done|].
        rewrite Hfst, (Hpos acc1 eq_refl). simpl. lia.
    + intros [= <- <-]. exists chunk, dn, dp. split; [done|]. split; [done|].
      intros ? [=].
Qed.

(** Every entry of the rule set after a scan was there before it or was
    put in this scan: then its expiry is a clock reading taken right after
    the create call for its address, plus the time to live. *)
Lemma scan_fresh lines : forall acc w acc' w' ip info,
  scan acc lines w = (Ret acc', w') ->
  dict_get ip (snd acc') = Some info ->
  dict_get ip (snd acc) = Some info \/
  exists t1 x k t2,
    w_trace w' = w_trace w ++ t1 ++ EvPut ip x :: EvNow (env_now env k) :: t2 /\
    (w_now w <= k)%nat /\
    expires_at info = env_now env k + timedelta_minutes TTL_MINUTES.
Proof.
  induction lines as [|line lines IH]; intros acc w acc' w' ip info.
  - simpl. intros [= <- <-]. by left.
  - rewrite for_each_cons.
    destruct (scan_line py_repr env acc line w) as [[acc1|e] w1] eqn:Hline; [|done].
    apply scan_line_outcome in Hline. intros Hrest Hget.
    pose proof (scan_trace _ _ _ _ _ Hrest) as (tr & dn' & dp' & Hw' & _ & _).
    destruct (IH _ _ _ _ _ _ Hrest Hget) as [Hold|(t1 & x & k & t2 & Htr & Hk & Hexp)].
    + inversion Hline; subst; simpl in *; try by left.
      destruct (str_eqb ip ip0) eqn:E.
      * apply str_eqb_eq in E as <-. rewrite dict_get_set_eq in Hold.
        injection Hold as <-. right.
        exists [EvLine line], (env_put env (w_put w)), (w_now w), tr.
        simpl. split; [by rewrite <- app_assoc|]. split; [lia|done].
      * apply str_eqb_neq in E. rewrite dict_get_set_ne in Hold by congruence.
        by left.
    + right. apply scan_outcome_world in Hline as (chunk & dn & dp & -> & _).
      exists (chunk ++ t1), x, k, t2. simpl in *.
      split; [by rewrite Htr, <- !app_assoc|]. split; [lia|done].
Qed.

End ScanTrace.

(** ** The pruning loop *)

Section Prune.
Variable env : Env.
Variable now : datetime.

Lemma kept_rules_get_None ip rs : forall n,
  dict_get ip rs = None -> dict_get ip (kept_rules env now n rs) = None.
Proof.
  induction rs as [|[k0 v0] rs IH]; intros n; simpl; [done|].
  destruct (str_eqb ip k0) eqn:E; [done|]. intros Hnone.
  destruct (expires_at v0 <=? now); [destruct (delete_ok _)|];
    simpl; rewrite ?E; by apply IH.
Qed.

Lemma kept_rules_get_live ip info rs : forall n,
  dict_get ip rs = Some info -> now < expires_at info ->
  dict_get ip (kept_rules env now n rs) = Some info.
Proof.
  induction rs as [|[k0 v0] rs IH]; intros n; simpl; [done|].
  destruct (str_eqb ip k0) eqn:E.
  - intros [= ->] Hlive.
    destruct (expires_at info <=? now) eqn:Hexp; [lia|]. simpl. by rewrite E.
  - intros Hget Hlive.
    destruct (expires_at v0 <=? now); [destruct (delete_ok _)|];
      simpl; rewrite ?E; by apply IH.
Qed.

Lemma kept_rules_get_expired ip info rs : forall n,
  NoDup (dict_keys rs) ->
  dict_get ip rs = Some info -> expires_at info <= now ->
  exists k,
    expired_rules now rs !! k = Some (ip, info) /\
    dict_get ip (kept_rules env now n rs) =
      if delete_ok (env_delete env (n + k)) then None else Some info.
Proof.
  induction rs as [|[k0 v0] rs IH]; intros n; simpl; [done|].
  unfold dict_keys. simpl. intros [Hk0 Hnd]%NoDup_cons.
  destruct (str_eqb ip k0) eqn:E.
  - apply str_eqb_eq in E as <-. intros [= ->] Hexp.
    exists 0%nat. destruct (expires_at info <=? now) eqn:Hle; [|lia].
    split; [done|]. rewrite Nat.add_0_r.
    destruct (delete_ok _); simpl; [|by rewrite str_eqb_refl].
    apply kept_rules_get_None. by apply dict_get_None_keys.
  - intros Hget Hexp.
    destruct (expires_at v0 <=? now) eqn:Hle.
    + destruct (IH (S n) Hnd Hget Hexp) as (k & Hk & Hkept).
      exists (S k). split; [done|].
      replace (n + S k)%nat with (S n + k)%nat by lia.
      destruct (delete_ok (env_delete env n)); simpl; rewrite ?E; done.
    + destruct (IH n Hnd Hget Hexp) as (k & Hk & Hkept).
      exists k. split; [done|]. simpl. by rewrite E.
Qed.

Lemma prune_rule_run acc ip info w :
  prune_rule env now acc (ip, info) w =
  if expires_at info <=? now then
    (match env_delete env (w_delete w) with
     | RequestFailed => Raise RequestException
     | Response _ _ =>
         Ret (if delete_ok (env_delete env (w_delete w)) then acc
              else dict_set ip info acc)
     end,
     w_extend w [EvDelete (rule_id info) (env_delete env (w_delete w))] 0 0 1)
  else (Ret (dict_set ip info acc), w).
Proof.
  unfold prune_rule. destruct (expires_at info <=? now); [|done].
  io_unfold. rewrite delete_rule_run.
  destruct (env_delete env (w_delete w)); [done|].
  by destruct (delete_ok _).
Qed.

(** A pruning loop that runs to its end has made exactly the delete calls
    of the expired entries, in order, and kept [kept_rules]. *)
Lemma prune_outcome rs : forall acc w pruned w1,
  for_each (prune_rule env now) acc rs w = (Ret pruned, w1) ->
  NoDup (dict_keys rs) ->
  (forall k, k ∈ dict_keys rs -> dict_get k acc = None) ->
  pruned = acc ++ kept_rules env now (w_delete w) rs /\
  w1 = w_extend w (deletion_attempts env (w_delete w) (expired_rules now rs))
         0 0 (length (expired_rules now rs)).
Proof.
  induction rs as [|[ip info] rs IH]; intros acc w pruned w1.
  - simpl. intros [= <- <-] _ _. by rewrite app_nil_r, w_extend_nil.
  - rewrite for_each_cons, prune_rule_run.
    unfold dict_keys, expired_rules. cbn [List.map fst List.filter snd kept_rules].
    fold (expired_rules now rs). fold (dict_keys rs).
    intros Hrun [Hip Hnd]%NoDup_cons Hfresh.
    assert (Hacc : dict_get ip acc = None) by (apply Hfresh; left).
    assert (Hfresh' : forall k, k ∈ dict_keys rs ->
              dict_get k (dict_set ip info acc) = None).
    { intros k Hk. rewrite dict_get_set_ne; [apply Hfresh; by right|].
      intros ->. done. }
    assert (Hfresh0 : forall k, k ∈ dict_keys rs -> dict_get k acc = None).
    { intros k Hk. apply Hfresh. by right. }
    destruct (expires_at info <=? now) eqn:Hexp.
    + destruct (env_delete env (w_delete w)) as [|status body] eqn:Hresp; [done|].
      cbn [deletion_attempts snd]. rewrite Hresp.
      destruct (delete_ok (Response status body)) eqn:Hok;
        apply IH in Hrun as [-> ->]; try done; simpl w_delete;
        (split; [|rewrite w_extend_extend; simpl; f_equal; lia]).
      * done.
      * rewrite (dict_set_fresh _ _ _ Hacc), <- app_assoc. done.
    + apply IH in Hrun as [-> ->]; try done.
      split; [|done].
      rewrite (dict_set_fresh _ _ _ Hacc), <- app_assoc. done.
Qed.

(** The pruning loop consumes no line. *)
Lemma prune_trace rs : forall acc w r w1,
  for_each (prune_rule env now) acc rs w = (r, w1) ->
  exists tr dd,
    w1 = w_extend w tr 0 0 dd /\ trace_lines tr = [] /\
    (forall ip x, EvPut ip x ∉ tr).
Proof.
  induction rs as [|[ip info] rs IH]; intros acc w r w1.
  - simpl. intros [= <- <-]. exists [], 0%nat. rewrite w_extend_nil.
    split; [done|]. split; [done|]. intros ??. apply not_elem_of_nil.
  - rewrite for_each_cons, prune_rule_run.
    destruct (expires_at info <=? now).
    + destruct (env_delete env (w_delete w)) as [|status body].
      * intros [= <- <-]. exists [EvDelete (rule_id info) RequestFailed], 1%nat.
        split; [done|]. split; [done|].
        intros ?? [?|?%elem_of_nil]%elem_of_cons; done.
      * intros (tr & dd & -> & Hlines & Hput)%IH.
        exists (EvDelete (rule_id info) (Response status body) :: tr), (dd + 1)%nat.
        rewrite w_extend_extend. split; [done|]. split; [done|].
        intros ?? [?|?]%elem_of_cons; [done|by eapply Hput].
    + by intros ?%IH.
Qed.

(** What pruning keeps it took from the loaded rule set. *)
Lemma prune_from_loaded rs : forall acc w pruned w1 ip info,
  for_each (prune_rule env now) acc rs w = (Ret pruned, w1) ->
  dict_get ip pruned = Some info ->
  dict_get ip acc = Some info \/ (ip, info) ∈ rs.
Proof.
  induction rs as [|[ip0 info0] rs IH]; intros acc w pruned w1 ip info.
  - simpl. intros [= <- <-]. by left.
  - rewrite for_each_cons, prune_rule_run. intros Hrun Hget.
    assert (Hset : forall acc', dict_get ip acc' = Some info ->
              acc' = acc \/ acc' = dict_set ip0 info0 acc ->
              dict_get ip acc = Some info \/ (ip, info) ∈ (ip0, info0) :: rs).
    { intros acc' Hacc' [->| ->]; [by left|].
      destruct (str_eqb ip0 ip) eqn:E.
      - apply str_eqb_eq in E as ->. rewrite dict_get_set_eq in Hacc'.
        injection Hacc' as ->. right. by left.
      - apply str_eqb_neq in E. rewrite dict_get_set_ne in Hacc' by done.
        by left. }
    destruct (expires_at info0 <=? now).
    + destruct (env_delete env (w_delete w)) as [|status body]; [done|].
      destruct (IH _ _ _ _ _ _ Hrun Hget) as [Hacc'|Hin]; [|right; by right].
      eapply Hset; [done|]. destruct (delete_ok _); auto.
    + destruct (IH _ _ _ _ _ _ Hrun Hget) as [Hacc'|Hin]; [|right; by right].
      eapply Hset; [done|]. auto.
Qed.

Lemma deletion_attempts_lookup expired : forall n k item,
  expired !! k = Some item ->
  deletion_attempts env n expired !! k =
    Some (EvDelete (rule_id (snd item)) (env_delete env (n + k))).
Proof.
  induction expired as [|item0 expired IH]; intros n [|k] item; simpl; try done.
  - intros [= ->]. by rewrite Nat.add_0_r.
  - intros Hk. rewrite (IH (S n) k item Hk). do 3 f_equal. lia.
Qed.

End Prune.

(** ** [main], taken apart *)

Lemma main_completed py_repr env st w :
  main py_repr env world0 = (Ret st, w) ->
  exists size content pruned w1 lines w2 start,
    start = (if size <? last_position (env_state env) then 0
             else last_position (env_state env)) /\
    env_getsize env = Some size /\
    env_log env = Some content /\
    for_each (prune_rule env (env_now env 0)) [] (rules (env_state env))
      (w_extend world0 [EvNow (env_now env 0)] 1 0 0) = (Ret pruned, w1) /\
    read_lines content start = Ret lines /\
    for_each (scan_line py_repr env) (start, pruned) lines w1 =
      (Ret (last_position st, rules st), w2) /\
    w = w_extend w2 [EvSave st] 0 0 0.
Proof.
  unfold main. unfold mbind at 1, io_bind at 1. rewrite utcnow_run.
  change (w_now world0) with 0%nat.
  set (now := env_now env 0). set (w0 := w_extend world0 [EvNow now] 1 0 0).
  unfold mbind at 1, io_bind at 1.
  destruct (env_getsize env) as [size|]; [|done].
  unfold mret at 1, io_ret at 1.
  unfold mbind at 1, io_bind at 1.
  destruct (for_each (prune_rule env now) [] (rules (env_state env)) w0)
    as [[pruned|e] w1] eqn:Hprune; [|done].
  unfold mbind at 1, io_bind at 1.
  destruct (env_log env) as [content|]; [|done].
  unfold mret at 1, io_ret at 1.
  unfold mbind at 1, io_bind at 1, lift at 1.
  destruct (read_lines content _) as [lines|e] eqn:Hread; [|done].
  unfold mbind at 1, io_bind at 1.
  destruct (for_each (scan_line py_repr env) _ lines w1)
    as [[[pos rs]|e] w2] eqn:Hscan; [|done].
  intros [= <- <-].
  exists size, content, pruned, w1, lines, w2. eexists. simpl. done.
Qed.

(** From its scanning loop on, [main] is the scan and, if the scan
    completes, the saving of what it returns. *)
Lemma main_from_scan py_repr env start pruned lines w1 :
  reaches_scan env start pruned lines w1 ->
  main py_repr env world0 =
  match for_each (scan_line py_repr env) (start, pruned) lines w1 with
  | (Ret (new_position, active_rules), w2) =>
      (Ret (mkState new_position active_rules),
       w_extend w2 [EvSave (mkState new_position active_rules)] 0 0 0)
  | (Raise e, w2) => (Raise e, w2)
  end.
Proof.
  intros (size & content & Hsize & Hlog & -> & Hprune & Hread).
  unfold main. unfold mbind at 1, io_bind at 1. rewrite utcnow_run.
  change (w_now world0) with 0%nat.
  unfold mbind at 1, io_bind at 1. rewrite Hsize.
  unfold mret at 1, io_ret at 1.
  unfold mbind at 1, io_bind at 1. rewrite Hprune.
  unfold mbind at 1, io_bind at 1. rewrite Hlog.
  unfold mret at 1, io_ret at 1.
  unfold mbind at 1, io_bind at 1, lift at 1. rewrite Hread.
  unfold mbind at 1, io_bind at 1.
  destruct (for_each (scan_line py_repr env) _ lines w1) as [[[pos rs]|e] w2];
    done.
Qed.

(** The lines of a whole run are those of its pruning and of its scan. *)
Lemma main_trace_lines now trp dd tr dn dp st :
  trace_lines
    (w_trace (w_extend (w_extend (w_extend (w_extend world0 [EvNow now] 1 0 0)
                                    trp 0 0 dd) tr dn dp 0) [EvSave st] 0 0 0)) =
  trace_lines trp ++ trace_lines tr.
Proof.
  unfold w_extend. cbn [w_trace world0 app].
  change (trace_lines (EvNow now :: (trp ++ tr) ++ [EvSave st]))
    with (trace_lines ((trp ++ tr) ++ [EvSave st])).
  rewrite !trace_lines_app.
  change (trace_lines [EvSave st]) with (@nil str).
  by rewrite app_nil_r.
Qed.

(** ** The state file under [save_state] *)

Lemma tmp_path_neq (path : str) : tmp_path path <> path.
Proof.
  unfold tmp_path. intros H. apply (f_equal length) in H.
  rewrite length_app in H. simpl in H. lia.
Qed.

Lemma rfind_char_None (c : N) (t : str) : c ∉ t -> rfind [c] t = None.
Proof.
  induction t as [|a t IH]; simpl; [done|].
  intros [Hca Ht]%not_elem_of_cons. rewrite (IH Ht).
  destruct (c =? a)%N eqn:E; [apply N.eqb_eq in E; done|done].
Qed.

Lemma rfind_char_app (c : N) (p t : str) :
  c ∉ t -> rfind [c] (p ++ t) = rfind [c] p.
Proof.
  intros Ht. induction p as [|a p IH]; simpl.
  - rewrite rfind_char_None by done. by destruct t.
  - by rewrite IH.
Qed.

Lemma rfind_char_lt (c : N) (p : str) i : rfind [c] p = Some i -> (i < length p)%nat.
Proof.
  revert i. induction p as [|a p IH]; intros i; simpl; [done|].
  destruct (rfind [c] p) as [j|].
  - intros [= <-]. specialize (IH j eq_refl). lia.
  - destruct ((c =? a)%N && true); intros [= <-]. lia.
Qed.

(** The temporary file is made next to the state file. *)
Lemma dirname_tmp_path (path : str) : dirname (tmp_path path) = dirname path.
Proof.
  unfold dirname, tmp_path. change (lit "/") with [ord "/"].
  rewrite rfind_char_app.
  - destruct (rfind [ord "/"] path) as [i|] eqn:Hi; [|done].
    apply rfind_char_lt in Hi. by rewrite take_app_le by lia.
  - intros H. refute_elem_of H.
Qed.

Lemma fs_run_app (l1 l2 : list fs_op) σ :
  fs_run (l1 ++ l2) σ = fs_run l2 (fs_run l1 σ).
Proof. apply fold_left_app. Qed.

(** Writing to the temporary file leaves every other file alone. *)
Lemma fs_run_writes_other (tmp path : str) (chunks : list str) : forall σ,
  tmp <> path ->
  fs_run (List.map (WriteChunk tmp) chunks) σ !! path = σ !! path.
Proof.
  induction chunks as [|c chunks IH]; intros σ Hne; simpl; [done|].
  rewrite IH by done. destruct (σ !! tmp); [|done].
  by rewrite lookup_insert_ne.
Qed.

Lemma fs_run_writes (tmp : str) (chunks : list str) : forall σ c0,
  σ !! tmp = Some c0 ->
  fs_run (List.map (WriteChunk tmp) chunks) σ !! tmp = Some (c0 ++ concat chunks).
Proof.
  induction chunks as [|c chunks IH]; intros σ c0 Hc0; simpl.
  - by rewrite app_nil_r.
  - rewrite Hc0. rewrite (IH _ (c0 ++ c)); [by rewrite <- app_assoc|].
    by rewrite lookup_insert_eq.
Qed.

(** * The scenarios of the specification *)

(** One login in the log of a first run: one create call, one rule that
    expires a time to live after its creation, and the offset at the end of
    the line. *)
Example scenario_first_login py_repr :
  fst (main py_repr first_login_env world0) =
    Ret (mkState (utf8_len (login_line (lit "203.0.113.5")))
           [(lit "203.0.113.5",
             mkRule (lit "7") (1001 + timedelta_minutes TTL_MINUTES))]) /\
  put_calls (w_trace (snd (main py_repr first_login_env world0)))
    = [lit "203.0.113.5"].
Proof. split; reflexivity. Qed.

(** The same address twice in one run: exactly one create call. *)
Example scenario_same_ip_twice py_repr :
  trace_lines (w_trace (snd (main py_repr sample_env world0)))
    = [login_line (lit "203.0.113.5"); login_line (lit "203.0.113.5")] /\
  put_calls (w_trace (snd (main py_repr sample_env world0)))
    = [lit "203.0.113.5"].
Proof. split; reflexivity. Qed.

(** An expired rule that the service refuses to delete stays as it is. *)
Example scenario_deletion_fails py_repr :
  fst (main py_repr (stuck_env (Response 500 None)) world0) =
    Ret (mkState 0 [(lit "203.0.113.5", mkRule (lit "5") 900)]).
Proof. reflexivity. Qed.

(** A delete call that does not come back ends the run: [delete_rule] has
    no [try] around [requests.delete], and nothing is saved. *)
Example delete_timeout_ends_run py_repr :
  main py_repr (stuck_env RequestFailed) world0 =
    (Raise RequestException,
     mkWorld [EvNow 1000; EvDelete (lit "5") RequestFailed] 1 0 1).
Proof. reflexivity. Qed.

(** * The JSON writer and the reader *)

(** ** Strings *)

Lemma hex_digit_hexchar (d : N) : (d < 16)%N -> hex_digit (hexchar d) = Some d.
Proof.
  intros Hd. destruct d as [|p]; [reflexivity|].
  repeat match goal with
         | q : positive |- _ => destruct q; try lia; try reflexivity
         end.
Qed.

Lemma hex4_hex04 (n : N) :
  (n < 65536)%N ->
  hex4 (hexchar (n / 4096)) (hexchar (n / 256 mod 16))
       (hexchar (n / 16 mod 16)) (hexchar (n mod 16)) = Some n.
Proof.
  intros Hn. unfold hex4.
  rewrite !hex_digit_hexchar
    by first [apply N.mod_lt; lia | apply N.Div0.div_lt_upper_bound; lia].
  simpl. f_equal. zify. Z.to_euclidean_division_equations. lia.
Qed.

(** Setting the low ten bits of a number that has none of them set. *)
Lemma lor_land_1023 (base k : N) :
  N.land base 1023 = 0%N ->
  N.lor base (N.land k 1023) = (base + k mod 1024)%N.
Proof.
  intros Hbase.
  assert (Hdisj : N.land base (N.land k 1023) = 0%N).
  { rewrite (N.land_comm k), N.land_assoc, Hbase. apply N.land_0_l. }
  rewrite <- N.lxor_lor, <- N.add_nocarry_lxor by done.
  f_equal. change 1023%N with (N.ones 10). by rewrite N.land_ones.
Qed.

(** The two halves of a character beyond the basic plane. *)
Lemma surrogate_pair (c : N) :
  (65536 <= c < 1114112)%N ->
  let n := (c - 65536)%N in
  let s1 := N.lor 55296 (N.land (N.shiftr n 10) 1023) in
  let s2 := N.lor 56320 (N.land n 1023) in
  (55296 <= s1 <= 56319)%N /\ (56320 <= s2 <= 57343)%N /\
  (65536 + (s1 - 55296) * 1024 + (s2 - 56320))%N = c.
Proof.
  intros Hc n s1 s2.
  subst s1 s2. rewrite !lor_land_1023 by reflexivity.
  rewrite N.shiftr_div_pow2. change (2 ^ 10)%N with 1024%N.
  subst n. zify. Z.to_euclidean_division_equations. lia.
Qed.

(** Reading back what [escape_ascii] wrote for one character: the reader
    gets some tagged items which, whatever follows them, join to the
    character. *)
Lemma scanstring_escape_ascii (c : N) :
  is_scalar c = true ->
  exists its,
    (forall t items r,
       scanstring t = Some (items, r) ->
       scanstring (escape_ascii c ++ t) = Some (its ++ items, r)) /\
    (forall more, join_surrogates (its ++ more) = c :: join_surrogates more).
Proof.
  intros Hc. unfold is_scalar in Hc.
  assert (Hjoin1 : forall (esc : bool) more,
            (esc && (55296 <=? c)%N && (c <=? 56319)%N) = false ->
            join_surrogates ([(esc, c)] ++ more) = c :: join_surrogates more).
  { intros esc more Hno. simpl.
    destruct more as [|[[] lo] more']; try done. by rewrite Hno. }
  unfold escape_ascii.
  destruct (c =? ord "\")%N eqn:E1.
  { apply N.eqb_eq in E1 as ->. exists [(false, ord "\")]. split.
    - intros t items r Ht. simpl. by rewrite Ht.
    - intros more. by apply Hjoin1. }
  destruct (c =? QUOTE)%N eqn:E2.
  { apply N.eqb_eq in E2 as ->. exists [(false, QUOTE)]. split.
    - intros t items r Ht. simpl. by rewrite Ht.
    - intros more. by apply Hjoin1. }
  destruct ((32 <=? c)%N && (c <=? 126)%N) eqn:E3.
  { exists [(false, c)]. split.
    - intros t items r Ht. cbn [app scanstring]. rewrite E2, E1.
      assert ((c <? 32)%N = false) as -> by lia. by rewrite Ht.
    - intros more. by apply Hjoin1. }
  destruct (c =? 8)%N eqn:E4.
  { apply N.eqb_eq in E4 as ->. exists [(false, 8%N)]. split.
    - intros t items r Ht. simpl. by rewrite Ht.
    - intros more. by apply Hjoin1. }
  destruct (c =? 12)%N eqn:E5.
  { apply N.eqb_eq in E5 as ->. exists [(false, 12%N)]. split.
    - intros t items r Ht. simpl. by rewrite Ht.
    - intros more. by apply Hjoin1. }
  destruct (c =? 10)%N eqn:E6.
  { apply N.eqb_eq in E6 as ->. exists [(false, 10%N)]. split.
    - intros t items r Ht. simpl. by rewrite Ht.
    - intros more. by apply Hjoin1. }
  destruct (c =? 13)%N eqn:E7.
  { apply N.eqb_eq in E7 as ->. exists [(false, 13%N)]. split.
    - intros t items r Ht. simpl. by rewrite Ht.
    - intros more. by apply Hjoin1. }
  destruct (c =? 9)%N eqn:E8.
  { apply N.eqb_eq in E8 as ->. exists [(false, 9%N)]. split.
    - intros t items r Ht. simpl. by rewrite Ht.
    - intros more. by apply Hjoin1. }
  destruct (c <? 65536)%N eqn:E9.
  { exists [(true, c)]. split.
    - intros t items r Ht. unfold hex04.
      cbn [app scanstring N.eqb ord QUOTE N_of_ascii N_of_digits Pos.eqb N.add N.mul Pos.add Pos.mul
           Pos.succ].
      change (92 =? 34)%N with false. change (92 =? 92)%N with true.
      change (117 =? 117)%N with true. cbv iota.
      rewrite hex4_hex04 by lia. simpl. by rewrite Ht.
    - intros more. apply Hjoin1. lia. }
  destruct (surrogate_pair c ltac:(lia)) as (Hs1 & Hs2 & Hsum).
  set (s1 := N.lor 55296 (N.land (N.shiftr (c - 65536) 10) 1023)) in *.
  set (s2 := N.lor 56320 (N.land (c - 65536) 1023)) in *.
  exists [(true, s1); (true, s2)]. split.
  - intros t items r Ht. unfold hex04.
    cbn [app scanstring N.eqb ord QUOTE N_of_ascii N_of_digits Pos.eqb N.add N.mul Pos.add Pos.mul
         Pos.succ].
    change (92 =? 34)%N with false. change (92 =? 92)%N with true.
    change (117 =? 117)%N with true. cbv iota.
    rewrite hex4_hex04 by lia. cbn [mbind option_bind].
    change (92 =? 34)%N with false. change (92 =? 92)%N with true.
    change (117 =? 117)%N with true. cbv iota.
    rewrite hex4_hex04 by lia. simpl. by rewrite Ht.
  - intros more. cbn [app join_surrogates andb].
    assert (((55296 <=? s1)%N && (s1 <=? 56319)%N && (56320 <=? s2)%N
             && (s2 <=? 57343)%N) = true) as -> by lia.
    by rewrite Hsum.
Qed.

(** A string is read back as it was, whatever follows its closing
    quotation mark. *)
Lemma parse_string_encode (s rest : str) :
  forallb is_scalar s = true ->
  parse_string (concat (List.map escape_ascii s) ++ QUOTE :: rest) = Some (s, rest).
Proof.
  intros Hs. unfold parse_string.
  assert (H : exists its,
            scanstring (concat (List.map escape_ascii s) ++ QUOTE :: rest)
              = Some (its, rest) /\
            join_surrogates its = s).
  { induction s as [|c s IH].
    - exists []. by simpl.
    - simpl in Hs. apply andb_true_iff in Hs as [Hc Hs].
      destruct (IH Hs) as (its & Hscan & Hjoin).
      destruct (scanstring_escape_ascii c Hc) as (its0 & Hread & Hj).
      exists (its0 ++ its). split.
      + simpl. rewrite <- app_assoc. by apply Hread.
      + by rewrite Hj, Hjoin. }
  destruct H as (its & -> & <-). done.
Qed.

(** ** Integers *)

Lemma lit_String (a : ascii) (s : string) :
  lit (String a s) = N_of_ascii a :: lit s.
Proof. reflexivity. Qed.

Lemma span_digits_stop (rest : str) :
  ends_number rest = true -> span_digits rest = ([], rest).
Proof.
  destruct rest as [|c r]; [done|]. simpl. intros H.
  destruct (is_digit c); [done|done].
Qed.

(** The digits of a decimal numeral are read back one by one, and their
    value is the numeral's. *)
Lemma span_digits_uint (d : Decimal.uint) (rest : str) :
  ends_number rest = true ->
  exists ds,
    span_digits (lit (NilEmpty.string_of_uint d) ++ rest) = (ds, rest) /\
    (forall acc,
       fold_left (fun acc d => (10 * acc + d)%N) ds (N.pos acc)
       = N.pos (Pos.of_uint_acc d acc)) /\
    fold_left (fun acc d => (10 * acc + d)%N) ds 0%N = Pos.of_uint d.
Proof.
  intros Hrest.
  induction d as [|d IH|d IH|d IH|d IH|d IH|d IH|d IH|d IH|d IH|d IH];
    [exists []; split; [by apply span_digits_stop|done]|..];
    destruct IH as (ds & Hspan & Hacc & Hzero);
    (eexists (_ :: ds); split;
       [cbn [NilEmpty.string_of_uint]; rewrite lit_String;
        cbn [app span_digits]; rewrite Hspan; reflexivity|]);
    (split; [intros acc; simpl; rewrite <- Hacc; f_equal; lia|]);
    simpl; first [exact Hzero | rewrite <- Hacc; f_equal].
Qed.

(** The numeral of a positive number has a digit, and its first digit is
    not zero. *)
Lemma to_uint_leading (p : positive) :
  Pos.to_uint p <> Decimal.Nil /\ forall d, Pos.to_uint p <> Decimal.D0 d.
Proof.
  split; [apply DecimalPos.Unsigned.to_uint_nonnil|].
  pose proof (DecimalPos.Unsigned.to_of (Pos.to_uint p)) as H.
  rewrite DecimalPos.Unsigned.of_to in H. simpl in H.
  rewrite DecimalFacts.unorm_nzhead in H.
  - intros d Hd. rewrite H in Hd. by apply DecimalFacts.nzhead_nonzero in Hd.
  - intros Hnil. apply DecimalFacts.unorm_0 in Hnil.
    rewrite <- H in Hnil. by apply DecimalPos.Unsigned.to_uint_nonzero in Hnil.
Qed.

(** Decides the tests of the goal that are between constants. *)
Ltac eval_test :=
  match goal with
  | |- context [(?a =? ?b)%N] =>
      let v := eval vm_compute in (a =? b)%N in
      lazymatch v with true => idtac | false => idtac end;
      change (a =? b)%N with v
  | |- context [is_digit ?a] =>
      let v := eval vm_compute in (is_digit a) in
      lazymatch v with true => idtac | false => idtac end;
      change (is_digit a) with v
  | |- context [is_ws ?a] =>
      let v := eval vm_compute in (is_ws a) in
      lazymatch v with true => idtac | false => idtac end;
      change (is_ws a) with v
  end.

Ltac eval_tests := repeat (eval_test; cbv beta iota).

(** The numeral of a positive number, with or without a minus sign, is
    read back as that integer. *)
Lemma match_number_pos (neg : bool) (p : positive) (rest : str) :
  ends_number rest = true ->
  match_number ((if neg then [ord "-"] else [])
                ++ lit (NilEmpty.string_of_uint (Pos.to_uint p)) ++ rest)
  = Some (JInt (if neg then Z.neg p else Z.pos p), rest).
Proof.
  intros Hrest.
  destruct (to_uint_leading p) as [Hnil Hzero].
  pose proof (DecimalPos.Unsigned.of_to p) as Hval.
  destruct (Pos.to_uint p) as [|d|d|d|d|d|d|d|d|d|d]; [done|by destruct (Hzero d)|..];
    destruct (span_digits_uint d rest Hrest) as (ds & Hspan & Hacc & _);
    cbn [NilEmpty.string_of_uint]; rewrite lit_String.
  all: destruct neg; unfold match_number; cbn [app].
  all: eval_tests; rewrite Hspan; eval_tests; cbn [mbind option_bind]; cbv beta iota.
  all: match goal with
       | |- context [digits_value (?c :: ?l)] =>
           assert (Hvalue : digits_value (c :: l) = N.pos p)
             by (unfold digits_value; cbn [fold_left];
                 match goal with
                 | |- fold_left _ _ ?a = _ =>
                     let v := eval vm_compute in a in change a with v
                 end;
                 rewrite Hacc; exact Hval)
       end.
  all: destruct rest as [|c1 rest]; [by rewrite Hvalue|].
  all: apply negb_true_iff in Hrest;
       apply orb_false_iff in Hrest as [Hrest HE];
       apply orb_false_iff in Hrest as [Hrest He];
       apply orb_false_iff in Hrest as [Hdigit Hdot].
  all: destruct rest as [|c2 rest]; rewrite ?Hdot; cbn [andb]; cbv beta iota;
       rewrite He, HE; cbn [orb]; cbv beta iota; by rewrite Hvalue.
Qed.

(** [int.__repr__] is read back as the integer it wrote. *)
Lemma match_number_intstr (n : Z) (rest : str) :
  ends_number rest = true ->
  match_number (intstr n ++ rest) = Some (JInt n, rest).
Proof.
  intros Hrest. unfold intstr. destruct n as [|p|p].
  - change (lit _) with [ord "0"].
    unfold match_number; cbn [app]. eval_tests.
    cbn [mbind option_bind]; cbv beta iota.
    destruct rest as [|c1 rest]; [done|].
    apply negb_true_iff in Hrest;
      apply orb_false_iff in Hrest as [Hrest HE];
      apply orb_false_iff in Hrest as [Hrest He];
      apply orb_false_iff in Hrest as [Hdigit Hdot].
    destruct rest as [|c2 rest]; rewrite ?Hdot; cbn [andb]; cbv beta iota;
      rewrite He, HE; cbn [orb]; cbv beta iota; done.
  - destruct (to_uint_leading p) as [Hnil _].
    pose proof (match_number_pos false p rest Hrest) as H. cbn [app] in H.
    simpl Z.to_int. cbn [NilZero.string_of_int].
    replace (NilZero.string_of_uint (Pos.to_uint p))
      with (NilEmpty.string_of_uint (Pos.to_uint p)); [done|].
    by destruct (Pos.to_uint p).
  - destruct (to_uint_leading p) as [Hnil _].
    pose proof (match_number_pos true p rest Hrest) as H. cbn [app] in H.
    simpl Z.to_int. cbn [NilZero.string_of_int]. rewrite lit_String.
    replace (NilZero.string_of_uint (Pos.to_uint p))
      with (NilEmpty.string_of_uint (Pos.to_uint p)); [done|].
    by destruct (Pos.to_uint p).
Qed.

(** The first character of a numeral is a minus sign or a digit. *)
Lemma intstr_head (n : Z) :
  exists c r, intstr n = c :: r /\ (c = ord "-" \/ is_digit c = true).
Proof.
  unfold intstr. destruct n as [|p|p].
  - exists (ord "0"), []. split; [done|by right].
  - destruct (to_uint_leading p) as [Hnil _]. simpl Z.to_int.
    cbn [NilZero.string_of_int].
    destruct (Pos.to_uint p); [done|..];
      cbn [NilZero.string_of_uint NilEmpty.string_of_uint]; rewrite lit_String;
      do 2 eexists; (split; [reflexivity|by right]).
  - simpl Z.to_int. cbn [NilZero.string_of_int]. rewrite lit_String.
    do 2 eexists. split; [reflexivity|by left].
Qed.

(** ** Documents *)

(** Induction on a JSON value, with the property at hand for the items of
    a list and the values of a dict. *)
Lemma json_nested_ind (P : json -> Prop) :
  P JNull -> (forall b, P (JBool b)) -> (forall n, P (JInt n)) ->
  (forall f, P (JFloat f)) -> (forall s, P (JStr s)) ->
  (forall items, Forall P items -> P (JArr items)) ->
  (forall members, Forall (fun kv => P (snd kv)) members -> P (JObj members)) ->
  forall v, P v.
Proof.
  intros Hnull Hbool Hint Hfloat Hstr Harr Hobj.
  fix IH 1.
  intros [|b|n|f|s|items|members];
    [apply Hnull|apply Hbool|apply Hint|apply Hfloat|apply Hstr|..].
  - apply Harr. induction items as [|x items IHitems]; constructor; [apply IH|done].
  - apply Hobj. induction members as [|[k x] members IHm]; constructor; [apply IH|done].
Qed.

Lemma distinct_fresh (k : str) (ks : list str) :
  existsb (str_eqb k) ks = false -> k ∉ ks.
Proof.
  intros H Hin. apply not_true_iff_false in H. apply H.
  apply existsb_exists. exists k. split; [by apply list_elem_of_In|apply str_eqb_refl].
Qed.

(** [dict(pairs)] of pairs with distinct keys is the pairs. *)
Lemma dict_of_pairs_distinct (members : list (str * json)) :
  distinct (List.map fst members) = true -> dict_of_pairs members = members.
Proof.
  unfold dict_of_pairs.
  assert (H : forall d0,
            distinct (List.map fst members) = true ->
            (forall k, k ∈ List.map fst members -> dict_get k d0 = None) ->
            fold_left (fun d kv => dict_set (fst kv) (snd kv) d) members d0
            = d0 ++ members).
  { induction members as [|[k v] members IH]; intros d0 Hd Hfresh.
    - by rewrite app_nil_r.
    - simpl in Hd. apply andb_true_iff in Hd as [Hk Hd].
      apply negb_true_iff, distinct_fresh in Hk.
      cbn [fold_left fst snd].
      rewrite dict_set_fresh by (apply Hfresh; simpl; left).
      rewrite IH; [by rewrite <- app_assoc|done|].
      intros k' Hk'. rewrite dict_get_app.
      rewrite Hfresh by (simpl; by right). simpl.
      destruct (str_eqb k' k) eqn:E; [|done].
      apply str_eqb_eq in E as ->. done. }
  intros Hd. by apply (H []).
Qed.

Section WriterReader.
Variable floatstr : pyfloat -> str.
Variable indent : nat.

Local Abbreviation chunks := (iterencode floatstr indent).
Local Abbreviation dumps := (fun v level => concat (iterencode floatstr indent v level)).

Lemma atom_chunks (v : json) (level : nat) (text : str) :
  atom floatstr v = Some text -> chunks v level = [text].
Proof. destruct v as [|[]| | | | |]; simpl; congruence. Qed.

(** The loops of the writer, as text. *)
Lemma concat_list_items (sep buf : str) (level : nat) v vs :
  concat (iterencode_list_items floatstr (fun x => chunks x level) sep buf (v :: vs))
  = buf ++ concat (chunks v level)
    ++ concat (iterencode_list_items floatstr (fun x => chunks x level) sep sep vs).
Proof.
  cbn [iterencode_list_items]. destruct (atom floatstr v) as [text|] eqn:E.
  - rewrite (atom_chunks _ level _ E). cbn [app concat].
    by rewrite app_nil_r, <- app_assoc.
  - rewrite concat_app. cbn [concat]. by rewrite <- app_assoc.
Qed.

Lemma concat_dict_items (isep : str) (first : bool) (level : nat) k v ms :
  concat (iterencode_dict_items floatstr (fun x => chunks x level) isep first
            ((k, v) :: ms))
  = (if first then [] else isep)
    ++ encode_basestring_ascii k ++ lit ": " ++ concat (chunks v level)
    ++ concat (iterencode_dict_items floatstr (fun x => chunks x level) isep false ms).
Proof.
  cbn [iterencode_dict_items]. rewrite !concat_app.
  assert (concat (match atom floatstr v with
                  | Some text => [text]
                  | None => chunks v level
                  end) = concat (chunks v level)) as ->.
  { destruct (atom floatstr v) as [text|] eqn:E; [|done].
    by rewrite (atom_chunks _ level _ E). }
  destruct first; simpl; by rewrite ?app_nil_r, <- ?app_assoc.
Qed.

Lemma skip_ws_newline_indent (level : nat) (s : str) :
  skip_ws (newline_indent indent level ++ s) = skip_ws s.
Proof.
  unfold newline_indent. cbn [app skip_ws]. change (is_ws 10) with true. cbv iota.
  induction (indent * level)%nat as [|n IH]; [done|].
  cbn [repeat app skip_ws]. by change (is_ws 32) with true.
Qed.

(** The text of a plain document starts with a character that is neither
    blank nor a closing bracket. *)
Lemma dumps_head (v : json) (level : nat) :
  plain v = true ->
  exists c r, dumps v level = c :: r /\ is_ws c = false /\ (c =? ord "]")%N = false.
Proof.
  destruct v as [|[]|n|f|s|items|members]; intros Hv; try done;
    try (by do 2 eexists).
  - cbn [iterencode atom concat]. rewrite app_nil_r.
    destruct (intstr_head n) as (c & r & -> & [->|Hc]).
    + by do 2 eexists.
    + do 2 eexists. split; [done|]. change (ord "]") with 93%N.
      unfold is_digit, is_ws in *. split; lia.
  - destruct items as [|x items]; [by do 2 eexists|].
    cbn [iterencode]. rewrite concat_app, concat_list_items.
    do 2 eexists. split; [reflexivity|done].
  - destruct members as [|m members]; [by do 2 eexists|].
    do 2 eexists. split; [reflexivity|done].
Qed.

Lemma skip_ws_dumps (v : json) (level : nat) (s : str) :
  plain v = true -> skip_ws (dumps v level ++ s) = dumps v level ++ s.
Proof.
  intros Hv. destruct (dumps_head v level Hv) as (c & r & E & Hws & _).
  cbv beta in E. rewrite E. cbn [app skip_ws]. by rewrite Hws.
Qed.

Lemma list_items_buf (sep buf : str) (level : nat) (vs : list json) :
  vs <> [] ->
  concat (iterencode_list_items floatstr (fun x => chunks x level) sep buf vs)
  = buf ++ concat (iterencode_list_items floatstr (fun x => chunks x level) sep [] vs).
Proof. destruct vs as [|v vs]; [done|]. intros _. by rewrite !concat_list_items. Qed.

Lemma dict_items_first (isep : str) (level : nat) (ms : list (str * json)) :
  ms <> [] ->
  concat (iterencode_dict_items floatstr (fun x => chunks x level) isep false ms)
  = isep ++ concat (iterencode_dict_items floatstr (fun x => chunks x level) isep true ms).
Proof. destruct ms as [|[k v] ms]; [done|]. intros _. by rewrite !concat_dict_items. Qed.

Lemma skip_ws_dumps_items (sep : str) (level : nat) (vs : list json) (s : str) :
  vs <> [] ->
  forallb plain vs = true ->
  skip_ws (concat (iterencode_list_items floatstr (fun x => chunks x level)
                     sep [] vs) ++ s)
  = concat (iterencode_list_items floatstr (fun x => chunks x level) sep [] vs) ++ s.
Proof.
  destruct vs as [|v vs]; [done|]. intros _ [Hv _]%andb_true_iff.
  rewrite concat_list_items. cbn [app]. rewrite <- app_assoc.
  by apply skip_ws_dumps.
Qed.

(** What the reader is shown to do on a value: read back its text,
    whatever follows that cannot continue a number, with fuel for the
    length of the text. *)
Local Abbreviation reads_back := (fun v : json =>
  forall level fuel rest,
    (length (dumps v level) <= fuel)%nat ->
    ends_number rest = true ->
    scan_once fuel (dumps v level ++ rest) = Some (v, rest)).

Lemma array_items_dumps (level : nat) (vs : list json) :
  Forall reads_back vs ->
  forallb plain vs = true ->
  vs <> [] ->
  forall fuel rest,
    (length (concat (iterencode_list_items floatstr (fun x => chunks x (S level))
                       (lit "," ++ newline_indent indent (S level)) [] vs))
     < fuel)%nat ->
    array_items fuel
      (concat (iterencode_list_items floatstr (fun x => chunks x (S level))
                 (lit "," ++ newline_indent indent (S level)) [] vs)
       ++ newline_indent indent level ++ lit "]" ++ rest)
    = Some (vs, rest).
Proof.
  induction 1 as [|v vs Hv _ IH]; [done|]. intros Hplain _ fuel rest Hfuel.
  cbn [forallb] in Hplain. apply andb_true_iff in Hplain as [Hpv Hpvs].
  rewrite concat_list_items in *. cbn [app] in *.
  rewrite length_app in Hfuel.
  destruct fuel as [|fuel]; [lia|]. cbn [array_items].
  rewrite <- app_assoc.
  destruct vs as [|v' vs].
  - cbn [iterencode_list_items concat app] in *.
    rewrite Hv by (done || lia). cbn [mbind option_bind].
    rewrite skip_ws_newline_indent. by cbn.
  - rewrite list_items_buf in Hfuel |- * by done. rewrite length_app in Hfuel.
    rewrite <- !app_assoc.
    rewrite Hv by (done || lia). cbn [mbind option_bind].
    cbn [lit app skip_ws list_ascii_of_string List.map].
    eval_tests. rewrite skip_ws_newline_indent.
    rewrite skip_ws_dumps_items by done.
    pose proof (IH Hpvs ltac:(done) fuel rest) as IH'.
    cbn [lit app list_ascii_of_string List.map] in IH'.
    rewrite IH'; [done|].
    cbn [lit length app List.map list_ascii_of_string] in Hfuel.
    destruct (dumps_head v (S level) Hpv) as (c & r & E & _). cbv beta in E.
    rewrite E in Hfuel. cbn [length] in Hfuel. lia.
Qed.

Lemma skip_ws_dumps_members (isep : str) (level : nat) (ms : list (str * json))
    (s : str) :
  ms <> [] ->
  exists r,
    concat (iterencode_dict_items floatstr (fun x => chunks x level) isep true ms) ++ s
    = QUOTE :: r.
Proof.
  destruct ms as [|[k v] ms]; [done|]. intros _.
  rewrite concat_dict_items. by eexists.
Qed.

Lemma object_members_dumps (level : nat) (ms : list (str * json)) :
  Forall (fun kv => reads_back (snd kv)) ms ->
  forallb (fun kv => forallb is_scalar (fst kv) && plain (snd kv)) ms = true ->
  ms <> [] ->
  forall fuel rest,
    (length (concat (iterencode_dict_items floatstr (fun x => chunks x (S level))
                       (lit "," ++ newline_indent indent (S level)) true ms))
     < fuel)%nat ->
    object_members fuel
      (concat (iterencode_dict_items floatstr (fun x => chunks x (S level))
                 (lit "," ++ newline_indent indent (S level)) true ms)
       ++ newline_indent indent level ++ lit "}" ++ rest)
    = Some (ms, rest).
Proof.
  induction 1 as [|[k v] ms Hv _ IH]; [done|]. intros Hplain _ fuel rest Hfuel.
  cbn [forallb fst snd] in Hplain, Hv.
  apply andb_true_iff in Hplain as [[Hk Hpv]%andb_true_iff Hpms].
  rewrite concat_dict_items in Hfuel |- *. unfold encode_basestring_ascii in *.
  cbn [app] in Hfuel |- *. rewrite <- !app_assoc in Hfuel |- *.
  repeat first [rewrite length_app in Hfuel | progress cbn [length] in Hfuel].
  destruct fuel as [|fuel]; [lia|]. cbn [object_members]. eval_tests.
  rewrite <- !app_assoc. cbn [app]. rewrite parse_string_encode by done. cbn [mbind option_bind].
  destruct (dumps_head v (S level) Hpv) as (c & r & E & _). cbv beta in E.
  destruct ms as [|m ms].
  - cbn [iterencode_dict_items concat app] in *.
    cbn [lit app skip_ws list_ascii_of_string List.map]. eval_tests.
    cbn [skip_ws]. eval_tests. rewrite skip_ws_dumps by done.
    rewrite Hv by first [reflexivity | lia]. cbn [mbind option_bind].
    rewrite skip_ws_newline_indent.
    cbn [lit app skip_ws list_ascii_of_string List.map]. by eval_tests.
  - rewrite dict_items_first in Hfuel |- * by done.
    repeat first [rewrite length_app in Hfuel | progress cbn [length] in Hfuel].
    rewrite <- !app_assoc.
    pose proof (IH Hpms ltac:(done) fuel rest) as IH'.
    destruct (skip_ws_dumps_members (lit "," ++ newline_indent indent (S level))
                (S level) (m :: ms)
                (newline_indent indent level ++ lit "}" ++ rest) ltac:(done))
      as (r' & Er').
    cbn [lit app skip_ws list_ascii_of_string List.map] in IH', Er' |- *.
    eval_tests. cbn [skip_ws]. eval_tests. rewrite skip_ws_dumps by done.
    rewrite Hv by first [reflexivity | lia].
    cbn [mbind option_bind]. cbn [skip_ws]. eval_tests.
    rewrite skip_ws_newline_indent. rewrite Er'. cbn [skip_ws]. eval_tests.
    rewrite <- Er'. rewrite IH'; [done|].
    cbn [lit length app List.map list_ascii_of_string] in Hfuel.
    rewrite E in Hfuel. cbn [length] in Hfuel. lia.
Qed.

(** Brings a text to the form of one list, literals spelt out. *)
Ltac norm_text :=
  repeat first [rewrite <- app_assoc | rewrite app_nil_r
               | progress cbn [lit app concat list_ascii_of_string List.map]].
Ltac norm_text_in H :=
  repeat first [rewrite <- app_assoc in H | rewrite app_nil_r in H
               | progress cbn [lit app concat list_ascii_of_string List.map] in H].

(** A text that starts with a minus sign or a digit is read as a number. *)
Lemma scan_once_number (fuel : nat) (c : N) (r : str) (vr : json * str) :
  c = ord "-" \/ is_digit c = true ->
  match_number (c :: r) = Some vr ->
  scan_once (S fuel) (c :: r) = Some vr.
Proof.
  intros Hc Hnum. cbn [scan_once]. rewrite Hnum.
  assert (Htests : (c =? QUOTE)%N = false /\ (c =? ord "{")%N = false /\
                   (c =? ord "[")%N = false /\
                   (N_of_ascii "n" =? c)%N = false /\
                   (N_of_ascii "t" =? c)%N = false /\
                   (N_of_ascii "f" =? c)%N = false).
  { destruct Hc as [->|Hc]; [done|].
    unfold is_digit in Hc. unfold QUOTE, ord. simpl N_of_ascii. lia. }
  destruct Htests as (-> & -> & -> & Hn & Ht & Hf).
  cbn [lit list_ascii_of_string List.map startswith].
  by rewrite Hn, Ht, Hf.
Qed.

(** The reader reads back what the writer wrote for a plain document. *)
Lemma scan_once_dumps (v : json) : plain v = true -> reads_back v.
Proof.
  induction v as [|b|n|f|s|items IH|members IH] using json_nested_ind;
    intros Hplain level fuel rest Hfuel Hrest.
  - destruct fuel; [simpl in Hfuel; lia|]. reflexivity.
  - destruct fuel; [destruct b; simpl in Hfuel; lia|]. by destruct b.
  - cbn [iterencode atom concat] in *. rewrite app_nil_r in *.
    destruct (intstr_head n) as (c & r & E & Hc).
    destruct fuel; [rewrite E in Hfuel; simpl in Hfuel; lia|].
    pose proof (match_number_intstr n rest Hrest) as Hnum.
    rewrite E in Hnum |- *. by apply scan_once_number.
  - done.
  - cbn [iterencode atom concat plain] in *. rewrite app_nil_r in *.
    unfold encode_basestring_ascii in *. cbn [app] in *.
    destruct fuel; [simpl in Hfuel; lia|].
    cbn [scan_once]. eval_tests. rewrite <- app_assoc. cbn [app].
    by rewrite parse_string_encode.
  - destruct items as [|x items].
    { destruct fuel; [simpl in Hfuel; lia|]. reflexivity. }
    cbn [plain] in Hplain.
    assert (Hreads : Forall reads_back (x :: items)).
    { clear Hfuel. induction IH as [|y ys Hy _ IHys]; [done|].
      cbn [forallb] in Hplain. apply andb_true_iff in Hplain as [? ?].
      constructor; [by apply Hy|by apply IHys]. }
    cbn [iterencode] in *. rewrite concat_app in *.
    rewrite list_items_buf in * by done.
    repeat first [rewrite length_app in Hfuel
                 | progress cbn [length concat lit list_ascii_of_string List.map]
                     in Hfuel].
    destruct fuel; [lia|].
    pose proof (array_items_dumps level (x :: items) Hreads Hplain ltac:(done)
                  fuel rest) as Hitems.
    pose proof (skip_ws_dumps_items (lit "," ++ newline_indent indent (S level))
                  (S level) (x :: items)
                  (newline_indent indent level ++ lit "]" ++ rest)
                  ltac:(done) Hplain) as Hskip.
    rewrite concat_list_items in Hitems, Hskip |- *.
    destruct (dumps_head x (S level)) as (c & r & E & _ & Hc).
    { cbn [forallb] in Hplain. by apply andb_true_iff in Hplain as [? _]. }
    cbv beta in E. rewrite E in Hitems, Hskip |- *.
    norm_text_in Hitems. norm_text_in Hskip. norm_text.
    cbn [scan_once]. eval_tests. rewrite skip_ws_newline_indent, Hskip, Hc.
    rewrite Hitems; [done|].
    rewrite concat_list_items, E in Hfuel. norm_text_in Hfuel. lia.
  - destruct members as [|m members].
    { destruct fuel; [simpl in Hfuel; lia|]. reflexivity. }
    cbn [plain] in Hplain. apply andb_true_iff in Hplain as [Hkeys Hplain].
    assert (Hreads : Forall (fun kv => reads_back (snd kv)) (m :: members)).
    { clear Hfuel Hkeys. induction IH as [|y ys Hy _ IHys]; [done|].
      cbn [forallb] in Hplain.
      apply andb_true_iff in Hplain as [[? ?]%andb_true_iff ?].
      constructor; [by apply Hy|by apply IHys]. }
    cbn [iterencode] in *. rewrite !concat_app in *.
    repeat first [rewrite length_app in Hfuel
                 | progress cbn [length concat lit list_ascii_of_string List.map]
                     in Hfuel].
    destruct fuel; [lia|].
    pose proof (object_members_dumps level (m :: members) Hreads Hplain ltac:(done)
                  fuel rest) as Hitems.
    destruct (skip_ws_dumps_members (lit "," ++ newline_indent indent (S level))
                (S level) (m :: members)
                (newline_indent indent level ++ lit "}" ++ rest) ltac:(done))
      as (r & Er).
    norm_text_in Hitems. norm_text_in Er. norm_text.
    cbn [scan_once]. eval_tests. rewrite skip_ws_newline_indent.
    rewrite Er in Hitems |- *. cbn [skip_ws]. eval_tests.
    rewrite Hitems by (norm_text_in Hfuel; lia).
    cbn [mbind option_bind]. by rewrite dict_of_pairs_distinct.
Qed.

(** [json.loads(json.dumps(v, indent=indent))] is [v], for a plain
    document [v] and any indentation. *)
Lemma json_loads_dumps (v : json) :
  plain v = true -> json_loads (json_dumps floatstr indent v) = Ret v.
Proof.
  intros Hv. unfold json_loads, json_dumps.
  pose proof (skip_ws_dumps v 0%nat [] Hv) as Hskip. rewrite !app_nil_r in Hskip.
  pose proof (scan_once_dumps v Hv 0%nat (S (length (dumps v 0%nat))) []
                ltac:(lia) eq_refl)
    as Hscan.
  rewrite app_nil_r in Hscan. cbv beta in *. by rewrite Hskip, Hscan.
Qed.

End WriterReader.

(** * More on the state store *)

Lemma fs_run_writes_insert (tmp : str) (chunks : list str) : forall (σ : gmap str str) c0,
  fs_run (List.map (WriteChunk tmp) chunks) (<[tmp := c0]> σ)
  = <[tmp := c0 ++ concat chunks]> σ.
Proof.
  induction chunks as [|c chunks IH]; intros σ c0; simpl.
  - by rewrite app_nil_r.
  - rewrite lookup_insert_eq, insert_insert_eq, IH. by rewrite <- app_assoc.
Qed.

(** The file system after a completed [save_state]. *)
Lemma fs_run_save_state (path : str) (chunks : list str) (σ : gmap str str) :
  fs_run (save_state path chunks) σ
  = <[path := concat chunks]> (delete (tmp_path path) σ).
Proof.
  unfold save_state. rewrite app_comm_cons, fs_run_app.
  change (fs_run (OpenTruncate (tmp_path path) :: ?l) σ)
    with (fs_run l (<[tmp_path path := []]> σ)).
  rewrite fs_run_writes_insert. simpl.
  by rewrite lookup_insert_eq, delete_insert_eq.
Qed.

(** An operation on other files leaves a file as it is. *)
Lemma fs_run_other (q : str) (ops : list fs_op) : forall σ : gmap str str,
  Forall (fun op => match op with
                    | OpenTruncate p | WriteChunk p _ => p <> q
                    | Replace src dst => src <> q /\ dst <> q
                    end) ops ->
  fs_run ops σ !! q = σ !! q.
Proof.
  induction ops as [|op ops IH]; intros σ Hops; [done|].
  apply Forall_cons in Hops as [Hop Hops]. simpl. rewrite IH by done.
  destruct op as [p|p c|src dst]; simpl.
  - by rewrite lookup_insert_ne.
  - destruct (σ !! p); [by rewrite lookup_insert_ne|done].
  - destruct Hop. destruct (σ !! src); [|done].
    by rewrite lookup_insert_ne, lookup_delete_ne.
Qed.

(** * More on the extractor *)

Lemma startswith_app (sub t : str) : startswith sub (sub ++ t) = true.
Proof. induction sub as [|a sub IH]; simpl; [done|]. by rewrite N.eqb_refl. Qed.

Lemma contains_app (sub pre t : str) : contains sub (pre ++ sub ++ t) = true.
Proof.
  induction pre as [|a pre IH].
  - pose proof (startswith_app sub t) as H. cbn [app].
    destruct (sub ++ t); simpl; by rewrite H.
  - cbn [app contains]. rewrite IH. apply orb_true_r.
Qed.

(** The first and the last occurrence of a character. *)
Lemma find_char_app (c : N) (p t : str) :
  c ∉ p -> find [c] (p ++ c :: t) = Some (length p).
Proof.
  induction p as [|a p IH]; simpl.
  - by rewrite N.eqb_refl.
  - intros [Hca Hp]%not_elem_of_cons. rewrite (IH Hp).
    destruct (c =? a)%N eqn:E; [apply N.eqb_eq in E; done|done].
Qed.

Lemma find_char_None (c : N) (s : str) : c ∉ s -> find [c] s = None.
Proof.
  induction s as [|a s IH]; simpl; [done|].
  intros [Hca Hs]%not_elem_of_cons. rewrite (IH Hs).
  destruct (c =? a)%N eqn:E; [apply N.eqb_eq in E; done|done].
Qed.

Lemma rfind_char_last (c : N) (p t : str) :
  c ∉ t -> rfind [c] (p ++ c :: t) = Some (length p).
Proof.
  intros Ht. induction p as [|a p IH]; simpl.
  - rewrite rfind_char_None by done. by rewrite N.eqb_refl.
  - by rewrite IH.
Qed.

(** [s.split(c)[0]] has no [c] in it. *)
Lemma split_head_no_sep (c : N) (s : str) : c ∉ split_head [c] s.
Proof.
  unfold split_head. induction s as [|a s IH]; simpl.
  - apply not_elem_of_nil.
  - destruct (c =? a)%N eqn:E; simpl; [apply not_elem_of_nil|].
    apply N.eqb_neq in E.
    destruct (find [c] s) as [i|]; simpl; apply not_elem_of_cons; done.
Qed.

Lemma split_head_app (c : N) (s t : str) :
  c ∉ s -> split_head [c] (s ++ c :: t) = s.
Proof.
  intros Hs. unfold split_head. rewrite find_char_app by done.
  by rewrite take_app_length.
Qed.




(** A string of literal characters is read as it is. *)
Lemma parse_string_literal (s rest : str) :
  forallb is_literal s = true ->
  parse_string (s ++ QUOTE :: rest) = Some (s, rest).
Proof.
  intros Hs. unfold parse_string.
  assert (H : exists its,
            scanstring (s ++ QUOTE :: rest) = Some (its, rest) /\
            join_surrogates its = s /\
            match its with (true, _) :: _ => False | _ => True end).
  { induction s as [|c s IH].
    - exists []. by simpl.
    - simpl in Hs. apply andb_true_iff in Hs as [Hc Hs].
      destruct (IH Hs) as (its & Hscan & Hjoin & Htag).
      exists ((false, c) :: its). unfold is_literal in Hc.
      cbn [app scanstring]. rewrite Hscan.
      assert ((c =? QUOTE)%N = false) as -> by lia.
      assert ((c =? ord "\")%N = false) as -> by lia.
      assert ((c <? 32)%N = false) as -> by lia.
      split; [done|]. split; [|done].
      cbn [join_surrogates]. rewrite Hjoin.
      by destruct its as [|[[] ?] ?]. }
  by destruct H as (its & -> & <- & _).
Qed.

(** * More on whole runs *)

Lemma put_calls_app (t1 t2 : list event) :
  put_calls (t1 ++ t2) = put_calls t1 ++ put_calls t2.
Proof. unfold put_calls. apply omap_app. Qed.



Section Runs.
Variable py_repr : json -> str.
Variable env : Env.

Local Abbreviation scan := (for_each (scan_line py_repr env)).

(** The pruning loop talks to the delete call only, and ends early only
    when a delete call does not come back. *)
Lemma prune_events now rs : forall acc w r w1,
  for_each (prune_rule env now) acc rs w = (r, w1) ->
  exists tr dd,
    w1 = w_extend w tr 0 0 dd /\
    forallb is_prune_event tr = true /\
    forall e, r = Raise e ->
      e = RequestException /\
      exists tr0 rid, tr = tr0 ++ [EvDelete rid RequestFailed].
Proof.
  induction rs as [|[ip info] rs IH]; intros acc w r w1.
  - simpl. intros [= <- <-]. exists [], 0%nat. by rewrite w_extend_nil.
  - rewrite for_each_cons, prune_rule_run.
    destruct (expires_at info <=? now).
    + destruct (env_delete env (w_delete w)) as [|status body].
      * intros [= <- <-]. exists [EvDelete (rule_id info) RequestFailed], 1%nat.
        split; [done|]. split; [done|]. intros e [= <-]. split; [done|].
        by exists [], (rule_id info).
      * intros (tr & dd & -> & Hev & Hraise)%IH.
        exists (EvDelete (rule_id info) (Response status body) :: tr), (dd + 1)%nat.
        rewrite w_extend_extend. split; [done|]. split; [done|].
        intros e He. destruct (Hraise e He) as (-> & tr0 & rid & ->).
        split; [done|]. by eexists (_ :: tr0), rid.
    + by intros ?%IH.
Qed.

(** One turn of the scanning loop: its events, the create call it issues
    and the one way it raises. *)
Lemma scan_outcome_events acc line w r w' :
  scan_outcome py_repr env acc line w r w' ->
  exists chunk dn dp,
    w' = w_extend w chunk dn dp 0 /\
    forallb is_scan_event chunk = true /\
    trace_lines chunk = [line] /\
    put_calls chunk = expected_put (snd acc) line /\
    forall e, r = Raise e ->
      e = AttributeError /\ chunk = [EvLine line] /\
      extract_login_ip line = Raise AttributeError.
Proof.
  destruct (extract_login_ip_outcomes line) as (_ & _ & Hret & Hraise).
  inversion 1 as [e He|o Ho Hskip|ip o Hip Hmem|ip rid Hip Hmem]; subst;
    do 3 eexists; (split; [reflexivity|]); (split; [reflexivity|]);
    (split; [reflexivity|]); unfold expected_put.
  - rewrite He. split; [done|]. intros ? [= <-].
    pose proof (Hraise e He) as ->. done.
  - rewrite Ho. split; [|done]. destruct o as [ip|]; [|done].
    destruct (Hskip ip eq_refl) as [-> | ->]; [|done].
    by destruct (Hret [] Ho).
  - rewrite Hip, Hmem. done.
  - rewrite Hip, Hmem. done.
Qed.

Lemma scan_events lines : forall acc w r w',
  scan acc lines w = (r, w') ->
  exists tr dn dp,
    w' = w_extend w tr dn dp 0 /\
    forallb is_scan_event tr = true /\
    (forall ip, ip ∈ put_calls tr ->
       exists line, line ∈ trace_lines tr /\ extract_login_ip line = Ret (Some ip)) /\
    forall e, r = Raise e ->
      e = AttributeError /\
      exists tr0 line, tr = tr0 ++ [EvLine line] /\
                       extract_login_ip line = Raise AttributeError.
Proof.
  induction lines as [|line lines IH]; intros acc w r w'.
  - simpl. intros [= <- <-]. exists [], 0%nat, 0%nat. rewrite w_extend_nil.
    split; [done|]. split; [done|]. split; [|done].
    intros ip Hin. by apply elem_of_nil in Hin.
  - rewrite for_each_cons.
    destruct (scan_line py_repr env acc line w) as [[acc1|e] w1] eqn:Hline;
      apply scan_line_outcome, scan_outcome_events in Hline
        as (chunk & dn & dp & -> & Hev & Hlines & Hput & Hraise).
    + intros (tr & dn' & dp' & -> & Hev' & Hput' & Hraise')%IH.
      exists (chunk ++ tr), (dn' + dn)%nat, (dp' + dp)%nat.
      rewrite w_extend_extend. split; [done|].
      split; [by rewrite forallb_app, Hev, Hev'|]. split.
      * intros ip. rewrite put_calls_app, trace_lines_app, Hput, Hlines.
        intros [Hin|Hin]%elem_of_app.
        -- exists line. split; [by left|]. unfold expected_put in Hin.
           destruct (extract_login_ip line) as [[ip'|]|]; try by apply elem_of_nil in Hin.
           destruct (dict_mem ip' (snd acc)); [by apply elem_of_nil in Hin|].
           by apply list_elem_of_singleton in Hin as ->.
        -- destruct (Hput' ip Hin) as (l & Hl & Hex). exists l. split; [by right|done].
      * intros e He. destruct (Hraise' e He) as (-> & tr0 & l & -> & Hl).
        split; [done|]. exists (chunk ++ tr0), l. by rewrite app_assoc.
    + intros [= <- <-]. exists chunk, dn, dp. split; [done|]. split; [done|].
      destruct (Hraise e eq_refl) as (-> & -> & Hex). split.
      * intros ip Hin. rewrite Hput in Hin. unfold expected_put in Hin.
        rewrite Hex in Hin. by apply elem_of_nil in Hin.
      * intros e [= <-]. split; [done|]. by exists [], line.
Qed.

(** [main], stage by stage. *)
Lemma main_stages :
  main py_repr env world0 =
  let now := env_now env 0 in
  let w0 := w_extend world0 [EvNow now] 1 0 0 in
  match env_getsize env with
  | None => (Raise (SystemExit 1), w0)
  | Some size =>
      match for_each (prune_rule env now) [] (rules (env_state env)) w0 with
      | (Raise e, w1) => (Raise e, w1)
      | (Ret pruned, w1) =>
          match env_log env with
          | None => (Raise (SystemExit 1), w1)
          | Some content =>
              match read_lines content (start_offset env size) with
              | Raise e => (Raise e, w1)
              | Ret lines =>
                  match scan (start_offset env size, pruned) lines w1 with
                  | (Raise e, w2) => (Raise e, w2)
                  | (Ret (new_position, active_rules), w2) =>
                      (Ret (mkState new_position active_rules),
                       w_extend w2 [EvSave (mkState new_position active_rules)] 0 0 0)
                  end
              end
          end
      end
  end.
Proof.
  unfold main, start_offset. unfold mbind at 1, io_bind at 1. rewrite utcnow_run.
  change (w_now world0) with 0%nat. cbv zeta.
  unfold mbind at 1, io_bind at 1.
  destruct (env_getsize env) as [size|]; [|done].
  unfold mret at 1, io_ret at 1.
  unfold mbind at 1, io_bind at 1.
  destruct (for_each (prune_rule env _) [] (rules (env_state env)) _)
    as [[pruned|e] w1]; [|done].
  unfold mbind at 1, io_bind at 1.
  destruct (env_log env) as [content|]; [|done].
  unfold mret at 1, io_ret at 1.
  unfold mbind at 1, io_bind at 1, lift at 1.
  destruct (read_lines content _) as [lines|e]; [|done].
  unfold mbind at 1, io_bind at 1.
  by destruct (for_each (scan_line py_repr env) _ lines w1) as [[[pos rs]|e] w2].
Qed.

End Runs.

Lemma seek_end (s : str) : seek (utf8_len s) s = Ret [].
Proof.
  induction s as [|c s IH]; [done|]. cbn [utf8_len seek].
  pose proof (utf8_width_pos c). pose proof (utf8_len_nonneg s).
  destruct (utf8_width c + utf8_len s <=? 0) eqn:E; [lia|].
  destruct (utf8_width c <=? utf8_width c + utf8_len s) eqn:E'; [|lia].
  by replace (utf8_width c + utf8_len s - utf8_width c) with (utf8_len s) by lia.
Qed.

(** Seeking to the end of what a file held before leaves what was
    appended. *)
Lemma seek_app (s t : str) : seek (utf8_len s) (s ++ t) = Ret t.
Proof.
  induction s as [|c s IH]; [apply seek_0|]. cbn [utf8_len seek app].
  pose proof (utf8_width_pos c). pose proof (utf8_len_nonneg s).
  destruct (utf8_width c + utf8_len s <=? 0) eqn:E; [lia|].
  destruct (utf8_width c <=? utf8_width c + utf8_len s) eqn:E'; [|lia].
  by replace (utf8_width c + utf8_len s - utf8_width c) with (utf8_len s) by lia.
Qed.

(** What [seek] leaves is the end of the text. *)
Lemma seek_suffix (s : str) : forall pos rest,
  seek pos s = Ret rest -> exists pre, s = pre ++ rest.
Proof.
  induction s as [|c s IH]; intros pos rest; simpl.
  - destruct (pos <=? 0); intros [= <-]; by exists [].
  - destruct (pos <=? 0); [intros [= <-]; by exists []|].
    destruct (utf8_width c <=? pos); [|done].
    intros (pre & ->)%IH. by exists (c :: pre).
Qed.

Section MoreRuns.
Variable py_repr : json -> str.
Variable env : Env.

Lemma prune_events_no_save (tr : list event) (st : State) :
  forallb is_prune_event tr = true -> EvSave st ∉ tr.
Proof.
  intros Hall Hin%list_elem_of_In. rewrite forallb_forall in Hall.
  by apply Hall in Hin.
Qed.

Lemma scan_events_no_save (tr : list event) (st : State) :
  forallb is_scan_event tr = true -> EvSave st ∉ tr.
Proof.
  intros Hall Hin%list_elem_of_In. rewrite forallb_forall in Hall.
  by apply Hall in Hin.
Qed.

Lemma prune_events_quiet (tr : list event) :
  forallb is_prune_event tr = true -> trace_lines tr = [] /\ put_calls tr = [].
Proof.
  induction tr as [|[] tr IH]; simpl; try done.
Qed.

(** The pruning loop when a delete call does not come back: the calls up
    to that one, and the exception. *)
Lemma prune_fails now rs : forall acc w k,
  (k < length (expired_rules now rs))%nat ->
  (forall j, (j < k)%nat -> env_delete env (w_delete w + j) <> RequestFailed) ->
  env_delete env (w_delete w + k) = RequestFailed ->
  for_each (prune_rule env now) acc rs w =
    (Raise RequestException,
     w_extend w (take (S k) (deletion_attempts env (w_delete w) (expired_rules now rs)))
       0 0 (S k)).
Proof.
  induction rs as [|[ip info] rs IH]; intros acc w k; [simpl; lia|].
  rewrite for_each_cons, prune_rule_run.
  unfold expired_rules. cbn [List.filter snd]. fold (expired_rules now rs).
  destruct (expires_at info <=? now) eqn:Hexp.
  - cbn [length deletion_attempts snd]. intros Hk Hbefore Hfail.
    destruct k as [|k].
    + rewrite Nat.add_0_r in Hfail. rewrite Hfail. by destruct (deletion_attempts _ _ _).
    + destruct (env_delete env (w_delete w)) as [|status body] eqn:Hresp.
      { exfalso. apply (Hbefore 0%nat); [lia|]. by rewrite Nat.add_0_r. }
      rewrite (IH _ _ k).
      * rewrite w_extend_extend. cbn [w_delete w_extend].
        f_equal. unfold w_extend. f_equal. lia.
      * lia.
      * intros j Hj. cbn [w_delete w_extend].
        replace (1 + w_delete w + j)%nat with (w_delete w + S j)%nat by lia.
        apply Hbefore. lia.
      * cbn [w_delete w_extend].
        by replace (1 + w_delete w + k)%nat with (w_delete w + S k)%nat by lia.
  - apply IH.
Qed.

(** The pruning loop over a rule set nothing of which has expired keeps
    all of it and calls nothing. *)
Lemma prune_all_live now rs : forall acc w,
  NoDup (dict_keys rs) ->
  (forall k, k ∈ dict_keys rs -> dict_get k acc = None) ->
  (forall ip info, (ip, info) ∈ rs -> now < expires_at info) ->
  for_each (prune_rule env now) acc rs w = (Ret (acc ++ rs), w).
Proof.
  induction rs as [|[ip info] rs IH]; intros acc w Hnd Hfresh Hlive.
  - by rewrite app_nil_r.
  - rewrite for_each_cons, prune_rule_run.
    unfold dict_keys in Hnd, Hfresh. cbn [List.map fst] in Hnd, Hfresh.
    fold (dict_keys rs) in Hnd, Hfresh.
    apply NoDup_cons in Hnd as [Hip Hnd].
    assert ((expires_at info <=? now) = false) as ->.
    { specialize (Hlive ip info ltac:(left)). lia. }
    rewrite dict_set_fresh by (apply Hfresh; left).
    rewrite IH; [by rewrite <- app_assoc|done|..].
    + intros k Hk. rewrite dict_get_app, Hfresh by (by right). simpl.
      destruct (str_eqb k ip) eqn:E; [|done]. by apply str_eqb_eq in E as ->.
    + intros ip' info' Hin. apply (Hlive ip' info'). by right.
Qed.

(** What a completed run read: the text from its starting offset on, line
    by line, and the offset it saves. *)
Lemma run_reads st w size content :
  main py_repr env world0 = (Ret st, w) ->
  env_getsize env = Some size ->
  env_log env = Some content ->
  exists rest,
    0 <= start_offset env size /\
    seek (start_offset env size) content = Ret rest /\
    trace_lines (w_trace w) = split_lines (translate_newlines rest) /\
    last_position st = start_offset env size + utf8_len (translate_newlines rest).
Proof.
  rewrite main_stages. cbv zeta. intros Hmain Hsize Hlog.
  rewrite Hsize, Hlog in Hmain.
  destruct (for_each (prune_rule env _) _ _ _) as [[pruned|e] w1] eqn:Hprune;
    [|done].
  destruct (read_lines content _) as [lines|e] eqn:Hread; [|done].
  destruct (for_each (scan_line py_repr env) _ lines w1)
    as [[[pos rs]|e] w2] eqn:Hscan; [|done].
  injection Hmain as <- <-.
  unfold read_lines in Hread.
  destruct (start_offset env size <? 0) eqn:Hneg; [done|].
  destruct (seek _ content) as [rest|] eqn:Hseek; [|done].
  simpl in Hread. injection Hread as <-.
  exists rest. split; [lia|]. split; [done|].
  destruct (prune_trace _ _ _ _ _ _ _ Hprune) as (trp & dd & -> & Hnolines & _).
  destruct (scan_trace _ _ _ _ _ _ _ Hscan) as (tr & dn & dp & -> & _ & Hres).
  destruct (Hres _ eq_refl) as [Hlines Hpos]. simpl in Hpos.
  rewrite main_trace_lines, Hnolines, Hlines. split; [done|].
  simpl. by rewrite Hpos, total_bytes_concat, concat_split_lines.
Qed.

End MoreRuns.

(** * The writer writes ASCII *)

Section WriterAscii.

Local Abbreviation ascii_text := (Forall (fun c : N => (c < 128)%N)).

Lemma hexchar_ascii (d : N) : (d < 16)%N -> (hexchar d < 128)%N.
Proof. intros Hd. unfold hexchar. destruct (d <? 10)%N; lia. Qed.

Lemma hex04_ascii (n : N) : (n < 65536)%N -> ascii_text (hex04 n).
Proof.
  intros Hn. unfold hex04.
  repeat (apply List.Forall_cons; [apply hexchar_ascii|]); [..|apply List.Forall_nil].
  - apply N.Div0.div_lt_upper_bound; lia.
  - apply N.mod_lt; lia.
  - apply N.mod_lt; lia.
  - apply N.mod_lt; lia.
Qed.

Lemma escape_ascii_ascii (c : N) : ascii_text (escape_ascii c).
Proof.
  unfold escape_ascii.
  repeat match goal with
         | |- ascii_text (if ?b then _ else _) => destruct b eqn:?
         end;
    try (repeat constructor; first [reflexivity | lia]).
  - apply Forall_app. split; [by repeat constructor|]. apply hex04_ascii. lia.
  - cbv zeta. rewrite !lor_land_1023 by reflexivity.
    pose proof (N.mod_lt (N.shiftr (c - 65536) 10) 1024 ltac:(lia)).
    pose proof (N.mod_lt (c - 65536) 1024 ltac:(lia)).
    repeat (apply Forall_app; split); try (by repeat constructor);
      apply hex04_ascii; lia.
Qed.

Lemma encode_basestring_ascii_ascii (s : str) :
  ascii_text (encode_basestring_ascii s).
Proof.
  unfold encode_basestring_ascii.
  repeat (apply Forall_app; split); try (by repeat constructor).
  induction s as [|c s IH]; simpl; [done|].
  apply Forall_app. split; [apply escape_ascii_ascii|done].
Qed.

Lemma intstr_ascii (n : Z) : ascii_text (intstr n).
Proof.
  assert (Hd : forall d, ascii_text (lit (NilEmpty.string_of_uint d))).
  { induction d; cbn [NilEmpty.string_of_uint]; rewrite ?lit_String;
      by repeat constructor. }
  assert (Hz : forall d, ascii_text (lit (NilZero.string_of_uint d))).
  { intros d. destruct d; try apply Hd. by repeat constructor. }
  unfold intstr. destruct n as [|p|p]; cbn [Z.to_int NilZero.string_of_int].
  - by repeat constructor.
  - apply Hz.
  - rewrite lit_String. constructor; [done|apply Hz].
Qed.

Lemma newline_indent_ascii (indent level : nat) :
  ascii_text (newline_indent indent level).
Proof.
  unfold newline_indent. constructor; [done|].
  induction (indent * level)%nat; simpl; by constructor.
Qed.

Variable floatstr : pyfloat -> str.
Variable indent : nat.
Hypothesis floatstr_ascii : forall f, ascii_text (floatstr f).

Lemma atom_ascii (v : json) (text : str) :
  atom floatstr v = Some text -> ascii_text text.
Proof.
  destruct v as [|[]|n|f|s| |]; simpl; intros [= <-];
    first [apply intstr_ascii | apply floatstr_ascii
          | apply encode_basestring_ascii_ascii | by repeat constructor].
Qed.

(** One chunk that is a literal, an indentation or a string; a list of
    such chunks. *)
Ltac ascii_chunk :=
  first [apply newline_indent_ascii | apply encode_basestring_ascii_ascii
        | apply intstr_ascii | apply floatstr_ascii | assumption
        | by repeat constructor].
Ltac ascii_chunks :=
  repeat first [apply List.Forall_nil | apply List.Forall_cons; [ascii_chunk|]].

Lemma iterencode_ascii (v : json) :
  forall level, Forall ascii_text (iterencode floatstr indent v level).
Proof.
  induction v as [|b|n|f|s|items IH|members IH] using json_nested_ind;
    intros level.
  - cbn [iterencode atom]. ascii_chunks.
  - destruct b; cbn [iterencode atom]; ascii_chunks.
  - cbn [iterencode atom]. ascii_chunks.
  - cbn [iterencode atom]. ascii_chunks.
  - cbn [iterencode atom]. ascii_chunks.
  - destruct items as [|x items]; [cbn [iterencode]; ascii_chunks|].
    cbn [iterencode]. apply Forall_app. split; [|ascii_chunks].
    set (sep := lit "," ++ newline_indent indent (S level)).
    assert (Hsep : ascii_text sep).
    { apply Forall_app. split; ascii_chunk. }
    assert (Hbuf : ascii_text (lit "[" ++ newline_indent indent (S level))).
    { apply Forall_app. split; ascii_chunk. }
    revert Hbuf. generalize (lit "[" ++ newline_indent indent (S level)).
    induction IH as [|y ys Hy _ IHys]; intros buf Hbuf; [done|].
    cbn [iterencode_list_items]. apply Forall_app. split; [|by apply IHys].
    destruct (atom floatstr y) as [text|] eqn:E.
    + apply List.Forall_cons; [|apply List.Forall_nil].
      apply Forall_app. split; [done|by eapply atom_ascii].
    + apply List.Forall_cons; [done|apply Hy].
  - destruct members as [|m members]; [cbn [iterencode]; ascii_chunks|].
    cbn [iterencode]. repeat (apply Forall_app; split); [ascii_chunks| |ascii_chunks].
    set (sep := lit "," ++ newline_indent indent (S level)).
    assert (Hsep : ascii_text sep).
    { apply Forall_app. split; ascii_chunk. }
    generalize true.
    induction IH as [|[k y] ys Hy _ IHys]; intros first; [done|].
    cbn [iterencode_dict_items]. repeat (apply Forall_app; split).
    + destruct first; ascii_chunks.
    + ascii_chunks.
    + destruct (atom floatstr y) as [text|] eqn:E; [|apply Hy].
      apply List.Forall_cons; [by eapply atom_ascii|apply List.Forall_nil].
    + apply IHys.
Qed.

End WriterAscii.

(** * The claims *)

(** C1. Deduplication of rule creation. In a run of [main] that reaches
    its scanning loop: once an address is a key of the rule set (as pruning
    left it and as the scan has grown it so far, whether the record has
    expired or not), the rest of the run issues no create call for that
    address, however often it occurs again and however the run ends. A
    create call that succeeds makes the address a key, so at most one
    succeeds per address and none follows it. *)
Theorem dedup_create_calls py_repr env res w start pruned lines w1
    (pre post : list str) acc1 w1' ip :
  main py_repr env world0 = (res, w) ->
  reaches_scan env start pruned lines w1 ->
  lines = pre ++ post ->
  for_each (scan_line py_repr env) (start, pruned) pre w1 = (Ret acc1, w1') ->
  dict_mem ip (snd acc1) = true ->
  exists tr, w_trace w = w_trace w1' ++ tr /\ forall x, EvPut ip x ∉ tr.
Proof.
  intros Hmain Hreach -> Hpre Hmem.
  rewrite (main_from_scan _ _ _ _ _ _ Hreach), for_each_app, Hpre in Hmain.
  destruct (for_each (scan_line py_repr env) acc1 post w1')
    as [r w2] eqn:Hpost.
  destruct (scan_no_put _ _ _ _ _ _ _ ip Hpost Hmem) as (tr & Htr & Hno).
  destruct r as [[pos rs]|e]; injection Hmain as <- <-.
  - exists (tr ++ [EvSave (mkState pos rs)]). split.
    + simpl. by rewrite Htr, <- app_assoc.
    + intros x [?|Hin]%elem_of_app; [by eapply Hno|]. refute_elem_of Hin.
  - by exists tr.
Qed.

Lemma dedup_create_calls_witness :
  let line := login_line (lit "203.0.113.5") in
  exists res w w1 acc1 w1',
    main sample_repr sample_env world0 = (res, w) /\
    reaches_scan sample_env 0 [] [line; line] w1 /\
    [line; line] = [line] ++ [line] /\
    for_each (scan_line sample_repr sample_env) (0, []) [line] w1
      = (Ret acc1, w1') /\
    dict_mem (lit "203.0.113.5") (snd acc1) = true /\
    exists tr, w_trace w = w_trace w1' ++ tr /\
               forall x, EvPut (lit "203.0.113.5") x ∉ tr.
Proof.
  assert (Hreach : reaches_scan sample_env 0 [] 
            [login_line (lit "203.0.113.5"); login_line (lit "203.0.113.5")]
            (w_extend world0 [EvNow 1000] 1 0 0)).
  { exists 188, sample_log. repeat split; vm_compute; reflexivity. }
  do 5 eexists.
  split; [vm_compute; reflexivity|].
  split; [exact Hreach|].
  split; [reflexivity|].
  split; [vm_compute; reflexivity|].
  split; [by vm_compute|].
  eapply (dedup_create_calls sample_repr sample_env _ _ 0 [] _ _
            [login_line (lit "203.0.113.5")] [login_line (lit "203.0.113.5")]);
    [vm_compute; reflexivity | exact Hreach | reflexivity
    | vm_compute; reflexivity | by vm_compute].
Defined.

(** C2, as the code has it. The claim's "if the deletion succeeds the IP is
    absent from the saved rule set" fails when the same run reads a new
    login from that address: the scan creates a rule for it again. *)
Lemma expired_ip_readmitted :
  dict_get (lit "203.0.113.5") (rules (env_state readmit_env))
    = Some (mkRule (lit "5") 900) /\
  900 <= env_now readmit_env 0 /\
  delete_ok (env_delete readmit_env 0) = true /\
  exists st w,
    main sample_repr readmit_env world0 = (Ret st, w) /\
    w_trace w !! 1%nat = Some (EvDelete (lit "5") (env_delete readmit_env 0)) /\
    dict_get (lit "203.0.113.5") (rules st)
      = Some (mkRule (lit "7") (1001 + timedelta_minutes TTL_MINUTES)).
Proof.
  split; [reflexivity|]. split; [by vm_compute|]. split; [reflexivity|].
  do 2 eexists. split; [vm_compute; reflexivity|].
  split; reflexivity.
Qed.

(** C2, amended. In a run that saves its state, with [now] the clock
    reading taken once at the start: the trace begins with that reading and
    the delete calls for the expired entries of the loaded rule set, in
    order, and no delete call follows them, so every attempt precedes the
    first line scanned. For an entry [ip -> info] of the loaded set: if
    [now < expires_at info] the saved state holds it unchanged; if
    [expires_at info <= now] one of those calls is for its rule, and if the
    call is answered 200 or 204 the entry is dropped, the saved state
    holding a record for [ip] only if the scan issued a create call for it,
    while on any other answer the saved state holds the entry unchanged. *)
Theorem expiry_pruning py_repr env st w :
  main py_repr env world0 = (Ret st, w) ->
  NoDup (dict_keys (rules (env_state env))) ->
  exists scanned,
    w_trace w =
      EvNow (env_now env 0)
      :: deletion_attempts env 0
           (expired_rules (env_now env 0) (rules (env_state env)))
      ++ scanned /\
    (forall rid x, EvDelete rid x ∉ scanned) /\
    forall ip info,
      dict_get ip (rules (env_state env)) = Some info ->
      (env_now env 0 < expires_at info ->
         dict_get ip (rules st) = Some info) /\
      (expires_at info <= env_now env 0 ->
         exists k,
           deletion_attempts env 0
             (expired_rules (env_now env 0) (rules (env_state env))) !! k
             = Some (EvDelete (rule_id info) (env_delete env k)) /\
           if delete_ok (env_delete env k)
           then forall info', dict_get ip (rules st) = Some info' ->
                              exists x, EvPut ip x ∈ scanned
           else dict_get ip (rules st) = Some info).
Proof.
  intros (size & content & pruned & w1 & lines & w2 & start
          & _ & _ & _ & Hprune & _ & Hscan & ->)%main_completed Hnd.
  apply prune_outcome in Hprune as [-> ->]; [|done|done].
  simpl app in Hscan. change (w_delete (w_extend world0 _ 1 0 0)) with 0%nat in *.
  set (now := env_now env 0) in *. set (loaded := rules (env_state env)) in *.
  set (kept := kept_rules env now 0 loaded) in *.
  destruct (scan_trace _ _ _ _ _ _ _ Hscan) as (tr & dn & dp & Hw2 & Hnodel & _).
  exists (tr ++ [EvSave st]). split; [|split].
  - rewrite Hw2. unfold w_extend. simpl. by rewrite <- !app_assoc.
  - intros rid x [?|[?|?%elem_of_nil]%elem_of_cons]%elem_of_app;
      [by eapply Hnodel|done..].
  - intros ip info Hget. split.
    + intros Hlive.
      apply (scan_keeps _ _ _ _ _ _ _ ip info Hscan). simpl.
      by apply kept_rules_get_live.
    + intros Hexp.
      destruct (kept_rules_get_expired env now ip info loaded 0%nat Hnd Hget Hexp)
        as (k & Hk & Hkept).
      exists k. split; [by rewrite (deletion_attempts_lookup _ _ _ _ _ Hk)|].
      simpl in Hkept. fold kept in Hkept.
      destruct (delete_ok (env_delete env k)).
      * intros info' Hsaved.
        destruct (scan_fresh _ _ _ _ _ _ _ _ _ Hscan Hsaved)
          as [Hold|(t1 & x & k' & t2 & Htr & _)]; [simpl in Hold; congruence|].
        exists x. rewrite Hw2 in Htr. simpl in Htr.
        injection Htr as Htr. apply app_inv_head in Htr. rewrite Htr.
        apply elem_of_app. left. apply elem_of_app. right. by left.
      * by apply (scan_keeps _ _ _ _ _ _ _ ip info Hscan).
Qed.

Lemma expiry_pruning_witness :
  exists st w,
    main sample_repr readmit_env world0 = (Ret st, w) /\
    NoDup (dict_keys (rules (env_state readmit_env))) /\
    exists scanned,
      w_trace w =
        EvNow (env_now readmit_env 0)
        :: deletion_attempts readmit_env 0
             (expired_rules (env_now readmit_env 0) (rules (env_state readmit_env)))
        ++ scanned /\
      (forall rid x, EvDelete rid x ∉ scanned) /\
      forall ip info,
        dict_get ip (rules (env_state readmit_env)) = Some info ->
        (env_now readmit_env 0 < expires_at info ->
           dict_get ip (rules st) = Some info) /\
        (expires_at info <= env_now readmit_env 0 ->
           exists k,
             deletion_attempts readmit_env 0
               (expired_rules (env_now readmit_env 0)
                  (rules (env_state readmit_env))) !! k
               = Some (EvDelete (rule_id info) (env_delete readmit_env k)) /\
             if delete_ok (env_delete readmit_env k)
             then forall info', dict_get ip (rules st) = Some info' ->
                                exists x, EvPut ip x ∈ scanned
             else dict_get ip (rules st) = Some info).
Proof.
  do 2 eexists. split; [vm_compute; reflexivity|].
  assert (Hnd : NoDup (dict_keys (rules (env_state readmit_env)))).
  { apply NoDup_singleton. }
  split; [exact Hnd|].
  apply (expiry_pruning sample_repr readmit_env); [vm_compute; reflexivity | exact Hnd].
Defined.

(** C3. Offset accounting. In a run that saves its state without having
    detected a rotation, the saved offset is the loaded one plus the UTF-8
    byte lengths of the lines the run consumed; and it does not exceed the
    size of the log as read, the log being an append-only file (no smaller
    when it is read than when its size was taken). *)
Theorem offset_accounting py_repr env st w size content :
  main py_repr env world0 = (Ret st, w) ->
  env_getsize env = Some size ->
  env_log env = Some content ->
  ~ size < last_position (env_state env) ->
  last_position st =
    last_position (env_state env) + total_bytes (trace_lines (w_trace w)) /\
  (size <= utf8_len content -> last_position st <= utf8_len content).
Proof.
  intros (size' & content' & pruned & w1 & lines & w2 & start
          & Hstart & Hsize & Hlog & Hprune & Hread & Hscan & ->)%main_completed.
  rewrite Hsize, Hlog. intros [= <-] [= <-] Hrot.
  destruct (size' <? last_position (env_state env)) eqn:E; [lia|]. subst start.
  destruct (prune_trace _ _ _ _ _ _ _ Hprune) as (trp & dd & -> & Hnolines & _).
  destruct (scan_trace _ _ _ _ _ _ _ Hscan) as (tr & dn & dp & -> & _ & Hres).
  destruct (Hres _ eq_refl) as [Hlines Hpos]. simpl in Hpos.
  rewrite main_trace_lines, Hnolines, Hlines. simpl app.
  split; [done|]. intros Hgrow.
  rewrite Hpos. apply read_lines_bound; [done|lia].
Qed.

Lemma offset_accounting_witness :
  main sample_repr sample_env world0 =
    (Ret sample_saved, snd (main sample_repr sample_env world0)) /\
  env_getsize sample_env = Some 188 /\
  env_log sample_env = Some sample_log /\
  ~ 188 < last_position (env_state sample_env) /\
  last_position sample_saved =
    last_position (env_state sample_env)
    + total_bytes (trace_lines (w_trace (snd (main sample_repr sample_env world0)))) /\
  (188 <= utf8_len sample_log -> last_position sample_saved <= utf8_len sample_log).
Proof.
  split; [vm_compute; reflexivity|]. split; [reflexivity|].
  split; [reflexivity|]. split; [simpl; lia|].
  apply (offset_accounting sample_repr sample_env sample_saved
           (snd (main sample_repr sample_env world0)) 188 sample_log).
  - vm_compute. reflexivity.
  - reflexivity.
  - reflexivity.
  - simpl. lia.
Defined.

(** C4. Rotation recovery, on a log with a carriage return. The size of
    the log (3) is below the saved offset (10), the whole file is read from
    byte 0, and the offset saved is 2, not the file's size: text mode hands
    the line over with its line end translated to one line feed, and the
    script counts the bytes of what it was handed. *)
Theorem rotation_offset_after_crlf :
  env_getsize crlf_env = Some 3 /\
  3 < last_position (env_state crlf_env) /\
  utf8_len crlf_log = 3 /\
  forall py_repr,
    fst (main py_repr crlf_env world0) = Ret (mkState 2 []) /\
    trace_lines (w_trace (snd (main py_repr crlf_env world0)))
      = [[ord "a"; 10%N]].
Proof.
  split; [reflexivity|]. split; [by vm_compute|]. split; [reflexivity|].
  intros py_repr. split; reflexivity.
Qed.

(** C5. Atomic state persistence. [save_state] writes to a temporary file
    in the directory of the state file and renames it over the state file
    as its last operation. After any number [n] of its operations (a crash
    leaves the file system there), the state file holds what it held
    before the call, and [load_state] reads from it what it would have
    read before, as long as the rename is not among them; once it is, the
    state file holds all the chunks of the new state. *)
Theorem save_state_atomic (path : str) (chunks : list str)
    (σ : gmap str str) (n : nat) :
  let ops := save_state path chunks in
  let σ' := fs_run (take n ops) σ in
  dirname (tmp_path path) = dirname path /\
  last ops = Some (Replace (tmp_path path) path) /\
  σ' !! path =
    (if decide (n < length ops)%nat then σ !! path else Some (concat chunks)) /\
  load_state (fs_file σ' path) =
    (if decide (n < length ops)%nat then load_state (fs_file σ path)
     else load_state (Text (concat chunks))).
Proof.
  intros ops σ'.
  assert (Hlookup : σ' !! path =
    (if decide (n < length ops)%nat then σ !! path else Some (concat chunks))).
  { subst σ' ops. unfold save_state.
    set (tmp := tmp_path path). pose proof (tmp_path_neq path) as Hne. fold tmp in Hne.
    set (writes := OpenTruncate tmp :: List.map (WriteChunk tmp) chunks).
    change (OpenTruncate tmp :: List.map (WriteChunk tmp) chunks ++ [Replace tmp path])
      with (writes ++ [Replace tmp path]).
    rewrite length_app. simpl length at 2.
    destruct (decide (n < length writes + 1)%nat) as [Hn|Hn].
    - rewrite take_app_le by lia.
      destruct n as [|n]; [done|]. subst writes. simpl.
      rewrite firstn_map.
      rewrite fs_run_writes_other by done. by rewrite lookup_insert_ne.
    - rewrite take_ge by (rewrite length_app; cbn [length]; lia).
      rewrite fs_run_app. subst writes. simpl.
      unfold fs_run at 1. simpl.
      rewrite (fs_run_writes tmp chunks _ []) by apply lookup_insert_eq.
      simpl. by rewrite lookup_insert_eq. }
  split; [apply dirname_tmp_path|]. split.
  { subst ops. unfold save_state. by rewrite app_comm_cons, last_snoc. }
  split; [done|].
  unfold fs_file. fold σ' in Hlookup. rewrite Hlookup. by destruct (decide _).
Qed.

(** C6. [load_state] raises instead of falling back to the default state:
    when the file holds a JSON value that [in] does not apply to (here
    [null]; a number or a boolean alike), when the file cannot be opened for
    another reason than its absence, and when its bytes are not text. The
    [except] clause names [FileNotFoundError] and [JSONDecodeError] only. *)
Theorem load_state_raises :
  load_state (Text (lit "null")) = Raise TypeError /\
  load_state (Text (lit "0")) = Raise TypeError /\
  load_state NoAccess = Raise PermissionError /\
  load_state Undecodable = Raise UnicodeDecodeError.
Proof. repeat split; reflexivity. Qed.

(** C7. [extract_login_ip] raises on a login line whose [requestIp] is not
    a string (here [null]): [None.split] is an [AttributeError], which
    [except (ValueError, json.JSONDecodeError)] lets through; [main] does
    not catch it either, so the run ends there and saves nothing. *)
Theorem extract_login_ip_raises :
  contains MARKER null_ip_line = true /\
  extract_login_ip null_ip_line = Raise AttributeError /\
  forall py_repr,
    main py_repr null_ip_env world0 =
      (Raise AttributeError,
       mkWorld [EvNow 1000; EvLine null_ip_line] 1 0 0).
Proof.
  split; [reflexivity|]. split; [reflexivity|]. intros py_repr. reflexivity.
Qed.

(** C8. Fresh creation timestamp. In a run that saves its state: a turn of
    the scanning loop whose create call returns an identifier reads the
    clock right after the call and inserts a record that expires at that
    reading plus the time to live; and every record of the saved state is
    an entry of the loaded one or expires at such a reading plus the time
    to live, the reading being a later one ([S k]) than the one taken at
    the start of the invocation (reading 0, the one pruning compares
    with). *)
Theorem fresh_creation_timestamp py_repr env st w :
  main py_repr env world0 = (Ret st, w) ->
  (forall acc line w0 ip rid,
     extract_login_ip line = Ret (Some ip) ->
     dict_mem ip (snd acc) = false ->
     fst (create_rule py_repr env ip (w_extend w0 [EvLine line] 0 0 0))
       = Ret (Some rid) ->
     rid <> [] ->
     scan_line py_repr env acc line w0 =
       (Ret (fst acc + utf8_len line,
             dict_set ip
               (mkRule rid (env_now env (w_now w0) + timedelta_minutes TTL_MINUTES))
               (snd acc)),
        w_extend w0 [EvLine line; EvPut ip (env_put env (w_put w0));
                     EvNow (env_now env (w_now w0))] 1 1 0)) /\
  (forall ip info,
     dict_get ip (rules st) = Some info ->
     (ip, info) ∈ rules (env_state env) \/
     exists t1 x k t2,
       w_trace w = EvNow (env_now env 0) :: t1
                   ++ EvPut ip x :: EvNow (env_now env (S k)) :: t2 /\
       expires_at info = env_now env (S k) + timedelta_minutes TTL_MINUTES).
Proof.
  intros (size & content & pruned & w1 & lines & w2 & start
          & _ & _ & _ & Hprune & _ & Hscan & ->)%main_completed.
  split.
  - intros [pos rs] line w0 ip rid Hip Hmem Hcreate Hrid. simpl in Hmem.
    destruct (scan_line py_repr env (pos, rs) line w0) as [r w'] eqn:Hline.
    apply scan_line_outcome in Hline.
    inversion Hline; subst; simpl in *; try congruence.
    + assert (o = Some ip) as -> by congruence.
      destruct (H0 ip eq_refl) as [->|?]; [|congruence].
      by apply extract_login_ip_nonempty in Hip.
    + assert (ip0 = ip) as -> by congruence.
      rewrite Hcreate in H1. destruct H2 as [->| ->]; congruence.
    + assert (ip0 = ip) as -> by congruence.
      rewrite Hcreate in H1. by injection H1 as ->.
  - intros ip info Hget.
    destruct (prune_trace _ _ _ _ _ _ _ Hprune) as (trp & dd & -> & _ & _).
    destruct (scan_fresh _ _ _ _ _ _ _ _ _ Hscan Hget)
      as [Hold|(t1 & x & k & t2 & Htr & Hk & Hexp)].
    + left. simpl in Hold.
      by destruct (prune_from_loaded _ _ _ _ _ _ _ _ _ Hprune Hold).
    + right. simpl in Hk. destruct k as [|k]; [lia|].
      exists (trp ++ t1), x, k, (t2 ++ [EvSave st]). split; [|done].
      simpl in *. rewrite Htr. simpl. by rewrite <- !app_assoc.
Qed.

Lemma fresh_creation_timestamp_witness :
  main sample_repr sample_env world0 =
    (Ret sample_saved, snd (main sample_repr sample_env world0)) /\
  env_now sample_env 0 = 1000 /\
  exists info,
    dict_get (lit "203.0.113.5") (rules sample_saved) = Some info /\
    expires_at info = 1001 + timedelta_minutes TTL_MINUTES /\
    ((lit "203.0.113.5", info) ∈ rules (env_state sample_env) \/
     exists t1 x k t2,
       w_trace (snd (main sample_repr sample_env world0)) =
         EvNow (env_now sample_env 0) :: t1
         ++ EvPut (lit "203.0.113.5") x :: EvNow (env_now sample_env (S k)) :: t2 /\
       expires_at info = env_now sample_env (S k) + timedelta_minutes TTL_MINUTES).
Proof.
  split; [vm_compute; reflexivity|]. split; [reflexivity|].
  eexists. split; [vm_compute; reflexivity|]. split; [reflexivity|].
  apply (fresh_creation_timestamp sample_repr sample_env sample_saved
           (snd (main sample_repr sample_env world0))).
  - vm_compute. reflexivity.
  - vm_compute. reflexivity.
Defined.

(** C9, as the code has it. A response can have a 2xx status and carry an
    identifier and still be refused: the status is neither 200 nor 201; or
    the identifier is falsy (here the number 0); or [data] is there and is
    not an object (here [null]), whatever [id] holds. *)
Lemma create_rule_refuses_2xx :
  let ip := lit "203.0.113.5" in
  let with_rule_id := JObj [(lit "data", JObj [(lit "ruleId", JInt 7)])] in
  let with_id_zero := JObj [(lit "id", JInt 0)] in
  let with_null_data := JObj [(lit "data", JNull); (lit "id", JInt 7)] in
  (200 <= 202 < 300 /\
   fst (create_rule sample_repr (put_env (Response 202 (Some with_rule_id)))
          ip world0) = Ret None) /\
  fst (create_rule sample_repr (put_env (Response 200 (Some with_id_zero)))
         ip world0) = Ret None /\
  fst (create_rule sample_repr (put_env (Response 200 (Some with_null_data)))
         ip world0) = Ret None.
Proof. repeat split; first [lia | reflexivity]. Qed.

(** C9, amended. A create call returns a rule identifier exactly when the
    response has status 200 or 201 and a body that is a JSON object
    carrying an identifier [v] in the sense of [response_identifier] (its
    [data], when present, an object; a truthy [data.ruleId] first, a truthy
    top-level [id] second); what it returns is [str(v)]. Everything else,
    a failed request included, makes it return nothing, never raise; and
    a turn of the scanning loop whose create call returns nothing leaves
    the rule set as it was. *)
Theorem create_rule_success py_repr env ip w :
  (forall rid,
     fst (create_rule py_repr env ip w) = Ret (Some rid) <->
     exists status d v,
       env_put env (w_put w) = Response status (Some (JObj d)) /\
       (status = 200 \/ status = 201) /\
       response_identifier d v /\
       rid = py_str py_repr v) /\
  (exists o, create_rule py_repr env ip w =
             (Ret o, w_extend w [EvPut ip (env_put env (w_put w))] 0 1 0)) /\
  (forall acc line w0,
     extract_login_ip line = Ret (Some ip) ->
     fst (create_rule py_repr env ip (w_extend w0 [EvLine line] 0 0 0)) = Ret None ->
     exists w0',
       scan_line py_repr env acc line w0 =
         (Ret (fst acc + utf8_len line, snd acc), w0')).
Proof.
  split; [|split].
  - intros rid. rewrite create_rule_returns. split.
    + destruct (env_put env (w_put w)) as [|status [[| | | | | |d]|]]; try done.
      destruct ((status =? 200) || (status =? 201)) eqn:Hst; [|done].
      intros Hrid.
      assert (exists v, response_identifier d v /\ rid = py_str py_repr v)
        as (v & Hv & ->).
      { setoid_rewrite response_identifier_compute.
        destruct (default (JObj []) (dict_get (lit "data") d)); try done.
        simpl in *. destruct (truthy (default JNull (dict_get _ members))).
        - injection Hrid as <-. by eexists.
        - destruct (dict_get (lit "id") d) as [second|]; simpl in *; [|done].
          destruct (truthy second) eqn:Hs; [|done].
          injection Hrid as <-. by exists second. }
      exists status, d, v. repeat split; try done.
      apply orb_prop in Hst as [?%Z.eqb_eq|?%Z.eqb_eq]; auto.
    + intros (status & d & v & -> & Hst & Hv%response_identifier_compute & ->).
      assert ((status =? 200) || (status =? 201) = true) as ->.
      { destruct Hst as [-> | ->]; done. }
      destruct (default (JObj []) (dict_get (lit "data") d)); try done.
      simpl in *. destruct (truthy (default JNull (dict_get _ members))).
      * by subst v.
      * destruct Hv as [Hv ->]. simpl. by rewrite Hv.
  - apply create_rule_run.
  - intros [pos rs] line w0 Hip Hnone.
    destruct (scan_line py_repr env (pos, rs) line w0) as [r w0'] eqn:Hline.
    exists w0'. apply scan_line_outcome in Hline.
    inversion Hline; subst; simpl in *; first [done | congruence].
Qed.

Lemma create_rule_success_witness :
  fst (create_rule sample_repr sample_env (lit "203.0.113.5") world0)
    = Ret (Some (lit "7")).
Proof.
  apply (proj1 (create_rule_success sample_repr sample_env
                  (lit "203.0.113.5") world0)).
  exists 201, [(lit "data", JObj [(lit "ruleId", JInt 7)])], (JInt 7).
  split; [reflexivity|]. split; [by right|]. split; [|reflexivity].
  exists [(lit "ruleId", JInt 7)]. split; [by right|]. split; [reflexivity|].
  by left.
Defined.

(** C10. Repeated logins never refresh the time to live. In a run that
    saves its state: a turn of the scanning loop whose line yields an
    address that is a key already only consumes the line (no call, no clock
    reading, the rule set as it was); and a record that is in the rule set
    at any point of the run's scan is, unchanged, the record of its address
    in the saved state. *)
Theorem repeated_login_no_refresh py_repr env st w :
  main py_repr env world0 = (Ret st, w) ->
  (forall acc line w0 ip,
     extract_login_ip line = Ret (Some ip) ->
     dict_mem ip (snd acc) = true ->
     scan_line py_repr env acc line w0 =
       (Ret (fst acc + utf8_len line, snd acc), w_extend w0 [EvLine line] 0 0 0)) /\
  exists start pruned lines w1,
    reaches_scan env start pruned lines w1 /\
    forall pre post acc1 w1' ip info,
      lines = pre ++ post ->
      for_each (scan_line py_repr env) (start, pruned) pre w1 = (Ret acc1, w1') ->
      dict_get ip (snd acc1) = Some info ->
      dict_get ip (rules st) = Some info.
Proof.
  intros (size & content & pruned & w1 & lines & w2 & start
          & Hstart & Hsize & Hlog & Hprune & Hread & Hscan & _)%main_completed.
  split.
  - intros [pos rs] line w0 ip Hip Hmem.
    destruct (scan_line py_repr env (pos, rs) line w0) as [r w'] eqn:Hline.
    apply scan_line_outcome in Hline.
    inversion Hline; subst; simpl in *; first [done | congruence].
  - exists start, pruned, lines, w1. split; [by exists size, content|].
    intros pre post acc1 w1' ip info -> Hpre Hget.
    rewrite for_each_app, Hpre in Hscan.
    by apply (scan_keeps _ _ _ _ _ _ _ ip info Hscan).
Qed.

Lemma repeated_login_no_refresh_witness :
  main sample_repr sample_env world0 =
    (Ret sample_saved, snd (main sample_repr sample_env world0)) /\
  (forall acc line w0 ip,
     extract_login_ip line = Ret (Some ip) ->
     dict_mem ip (snd acc) = true ->
     scan_line sample_repr sample_env acc line w0 =
       (Ret (fst acc + utf8_len line, snd acc), w_extend w0 [EvLine line] 0 0 0)) /\
  exists start pruned lines w1,
    reaches_scan sample_env start pruned lines w1 /\
    forall pre post acc1 w1' ip info,
      lines = pre ++ post ->
      for_each (scan_line sample_repr sample_env) (start, pruned) pre w1 =
        (Ret acc1, w1') ->
      dict_get ip (snd acc1) = Some info ->
      dict_get ip (rules sample_saved) = Some info.
Proof.
  split; [vm_compute; reflexivity|].
  apply (repeated_login_no_refresh sample_repr sample_env sample_saved
           (snd (main sample_repr sample_env world0))).
  vm_compute. reflexivity.
Defined.

(** * Further properties *)

(** ** State store *)

(** X1. Apart from the target and its temporary file, [save_state] touches
    no file, wherever it is interrupted: after any number of its
    operations every other path holds what it held. *)
Theorem save_state_frame (path : str) (chunks : list str) (σ : gmap str str)
    (n : nat) (q : str) :
  q <> path -> q <> tmp_path path ->
  fs_run (take n (save_state path chunks)) σ !! q = σ !! q.
Proof.
  intros Hpath Htmp. apply fs_run_other, Forall_take.
  unfold save_state. constructor; [done|]. apply Forall_app. split.
  - apply List.Forall_map. by apply Forall_true.
  - by repeat constructor.
Qed.

Lemma save_state_frame_witness :
  lit "/etc/passwd" <> sample_path /\
  lit "/etc/passwd" <> tmp_path sample_path /\
  fs_run (take 2 (save_state sample_path [lit "{"; lit "}"]))
    (<[lit "/etc/passwd" := lit "root"]> ∅) !! lit "/etc/passwd"
  = (<[lit "/etc/passwd" := lit "root"]> ∅ : gmap str str) !! lit "/etc/passwd".
Proof.
  assert (H1 : lit "/etc/passwd" <> sample_path) by done.
  assert (H2 : lit "/etc/passwd" <> tmp_path sample_path) by done.
  split; [done|]. split; [done|].
  exact (save_state_frame sample_path [lit "{"; lit "}"] _ 2 _ H1 H2).
Defined.

(** X2. A completed [save_state] leaves the text at the target and no
    temporary file, and what the temporary file held before (left behind
    by an interrupted run, or anyone's file of that name) is lost without
    a trace in the result. *)
Theorem save_state_completed (path : str) (chunks : list str)
    (σ : gmap str str) (stale : str) :
  fs_run (save_state path chunks) σ !! path = Some (concat chunks) /\
  fs_run (save_state path chunks) σ !! tmp_path path = None /\
  fs_run (save_state path chunks) (<[tmp_path path := stale]> σ)
  = fs_run (save_state path chunks) σ.
Proof.
  rewrite !fs_run_save_state. split; [apply lookup_insert_eq|]. split.
  - rewrite lookup_insert_ne by (intros H; by apply (tmp_path_neq path)).
    apply lookup_delete_eq.
  - by rewrite delete_insert_eq.
Qed.

(** X3. What [save_state] writes, [load_state] reads back: for a plain
    document in which both names occur (an object with both keys, as
    [main] saves it), loading the state file after a completed save with
    [json.dump(state, f, indent=2)] returns the document saved, whatever
    the files held before. *)
Theorem save_then_load (floatstr : pyfloat -> str) (path : str)
    (σ : gmap str str) (state : json) :
  plain state = true ->
  py_in (lit "last_position") state = Ret true ->
  py_in (lit "rules") state = Ret true ->
  load_state
    (fs_file (fs_run (save_state path (iterencode floatstr 2 state 0)) σ) path)
  = Ret state.
Proof.
  intros Hplain Hpos Hrules. unfold fs_file.
  rewrite fs_run_save_state, lookup_insert_eq. unfold load_state.
  fold (json_dumps floatstr 2 state). rewrite json_loads_dumps by done.
  simpl. rewrite Hpos. simpl. by rewrite Hrules.
Qed.

Lemma save_then_load_witness :
  plain sample_doc = true /\
  py_in (lit "last_position") sample_doc = Ret true /\
  py_in (lit "rules") sample_doc = Ret true /\
  load_state
    (fs_file (fs_run (save_state sample_path
                        (iterencode sample_floatstr 2 sample_doc 0)) ∅)
       sample_path)
  = Ret sample_doc.
Proof.
  assert (H1 : plain sample_doc = true) by (vm_compute; reflexivity).
  assert (H2 : py_in (lit "last_position") sample_doc = Ret true)
    by (vm_compute; reflexivity).
  assert (H3 : py_in (lit "rules") sample_doc = Ret true)
    by (vm_compute; reflexivity).
  split; [done|]. split; [done|]. split; [done|].
  exact (save_then_load sample_floatstr sample_path ∅ sample_doc H1 H2 H3).
Defined.

(** ** Event extractor *)

(** X4. What [extract_login_ip] returns: the line has the marker, the text
    from its first opening brace to its last closing brace is a JSON
    object whose [requestIp] is a string, and the address is that string
    up to its first colon; it is not empty, has a dot and has no colon.
    An IPv6 address, which has colons, is never returned whole. *)
Theorem extract_login_ip_returns (line ip : str) :
  extract_login_ip line = Ret (Some ip) ->
  contains MARKER line = true /\
  ip <> [] /\ contains (lit ".") ip = true /\ (ord ":" ∉ ip) /\
  exists i j d s,
    find (lit "{") line = Some i /\
    rfind (lit "}") line = Some j /\
    json_loads (slice i (j + 1) line) = Ret (JObj d) /\
    dict_get (lit "requestIp") d = Some (JStr s) /\
    ip = split_head (lit ":") s.
Proof.
  unfold extract_login_ip, try_except, index, rindex, py_get, py_split_head.
  destruct (contains MARKER line); cbn [negb]; [|done].
  destruct (find _ line) as [i|]; cbn [mbind result_bind]; [|done].
  destruct (rfind _ line) as [j|]; cbn [mbind result_bind]; [|done].
  destruct (json_loads _) as [[| | | | | |d]|[]] eqn:Hjson;
    cbn [mbind result_bind]; try done.
  destruct (dict_get _ d) as [[| | | |s| |]|] eqn:Hd; cbn [mbind result_bind];
    try done.
  destruct (split_head (lit ":") s) as [|c ip0] eqn:Hip;
    cbn [nonempty andb]; [done|].
  destruct (contains (lit ".") _) eqn:Hdot; intros [= <-].
  split; [done|]. split; [done|]. split; [done|].
  split; [rewrite <- Hip; apply split_head_no_sep|]. by exists i, j, d, s.
Qed.

Lemma extract_login_ip_returns_witness :
  let line := login_line (lit "203.0.113.5") in
  let ip := lit "203.0.113.5" in
  extract_login_ip line = Ret (Some ip) /\
  contains MARKER line = true /\
  ip <> [] /\ contains (lit ".") ip = true /\ (ord ":" ∉ ip) /\
  exists i j d s,
    find (lit "{") line = Some i /\
    rfind (lit "}") line = Some j /\
    json_loads (slice i (j + 1) line) = Ret (JObj d) /\
    dict_get (lit "requestIp") d = Some (JStr s) /\
    ip = split_head (lit ":") s.
Proof.
  intros line ip.
  assert (H : extract_login_ip line = Ret (Some ip)) by (vm_compute; reflexivity).
  split; [exact H|]. exact (extract_login_ip_returns line ip H).
Defined.


(** X6. The extractor on the lines it is written for. A line that holds,
    after anything without an opening brace, the marker and an object
    whose [requestIp] is an address, a colon and a port, then anything
    without a closing brace, yields the address when it has a dot, and
    nothing when it has none (the address and the port being of literal
    characters, the address without a colon). *)
Theorem extract_login_ip_exchange_line (pre ip port post : str) :
  ord "{" ∉ pre -> ord "}" ∉ post ->
  forallb is_literal (ip ++ lit ":" ++ port) = true ->
  ord ":" ∉ ip ->
  extract_login_ip (exchange_line pre ip port post)
  = Ret (if nonempty ip && contains (lit ".") ip then Some ip else None).
Proof.
  intros Hpre Hpost Hlit Hip.
  set (value := ip ++ lit ":" ++ port) in *.
  set (text := lit "{" ++ [QUOTE] ++ lit "requestIp" ++ [QUOTE] ++ lit ": "
               ++ [QUOTE] ++ value ++ [QUOTE] ++ lit "}").
  assert (Hline : exchange_line pre ip port post = (pre ++ MARKER) ++ text ++ post).
  { unfold exchange_line. fold value. fold text. by rewrite <- app_assoc. }
  assert (Hfind : find (lit "{") (exchange_line pre ip port post)
                  = Some (length (pre ++ MARKER))).
  { rewrite Hline. subst text. cbn [lit app list_ascii_of_string List.map].
    apply find_char_app. intros [H|H]%elem_of_app; [done|].
    unfold MARKER in H. cbn [lit list_ascii_of_string List.map] in H.
    refute_elem_of H. }
  assert (Hrfind : rfind (lit "}") (exchange_line pre ip port post)
                   = Some (length (pre ++ MARKER) + (length text - 1))%nat).
  { rewrite Hline. subst text.
    replace ((pre ++ MARKER) ++ (lit "{" ++ [QUOTE] ++ lit "requestIp" ++ [QUOTE]
               ++ lit ": " ++ [QUOTE] ++ value ++ [QUOTE] ++ lit "}") ++ post)
      with (((pre ++ MARKER) ++ lit "{" ++ [QUOTE] ++ lit "requestIp" ++ [QUOTE]
               ++ lit ": " ++ [QUOTE] ++ value ++ [QUOTE]) ++ ord "}" :: post)
      by (cbn [lit app list_ascii_of_string List.map];
          repeat first [rewrite <- app_assoc | progress cbn [app]]; done).
    change (lit "}") with [ord "}"]. rewrite rfind_char_last by done.
    f_equal. rewrite !length_app. cbn [length lit list_ascii_of_string List.map].
    lia. }
  assert (Hslice : slice (length (pre ++ MARKER))
                     (length (pre ++ MARKER) + (length text - 1) + 1)
                     (exchange_line pre ip port post) = text).
  { unfold slice. rewrite Hline, drop_app_length.
    replace (length (pre ++ MARKER) + (length text - 1) + 1 - length (pre ++ MARKER))%nat
      with (length text)
      by (subst text; cbn [length lit app list_ascii_of_string List.map]; lia).
    apply take_app_length. }
  assert (Hjson : json_loads text
                  = Ret (JObj [(lit "requestIp", JStr value)])).
  { subst text. unfold json_loads.
    cbn [lit app list_ascii_of_string List.map length skip_ws]. eval_tests.
    cbn [scan_once skip_ws]. eval_tests.
    cbn [object_members]. eval_tests.
    change (N_of_ascii "r" :: N_of_ascii "e" :: N_of_ascii "q" :: N_of_ascii "u"
            :: N_of_ascii "e" :: N_of_ascii "s" :: N_of_ascii "t" :: N_of_ascii "I"
            :: N_of_ascii "p" :: QUOTE :: ?r)
      with (lit "requestIp" ++ QUOTE :: r).
    rewrite parse_string_literal by reflexivity. cbn [mbind option_bind].
    cbn [skip_ws]. eval_tests. cbn [skip_ws]. eval_tests.
    destruct (length (value ++ [QUOTE; N_of_ascii "}"])) eqn:Hlen;
      [by destruct value|].
    cbn [scan_once]. eval_tests.
    change (value ++ [QUOTE; N_of_ascii "}"]) with (value ++ QUOTE :: [N_of_ascii "}"]).
    rewrite parse_string_literal by done. cbn [mbind option_bind skip_ws].
    eval_tests. cbn [skip_ws]. reflexivity. }
  unfold extract_login_ip, try_except, index, rindex.
  rewrite Hline at 1. rewrite <- app_assoc, contains_app. cbn [negb].
  rewrite Hfind, Hrfind. cbn [mbind result_bind]. cbv beta zeta.
  rewrite Hslice, Hjson. cbn [mbind result_bind py_get dict_get].
  rewrite str_eqb_refl. cbn [py_split_head mbind result_bind].
  subst value. change (lit ":") with [ord ":"]. cbn [app].
  rewrite split_head_app by done. by destruct (nonempty ip && _).
Qed.

Lemma extract_login_ip_exchange_line_witness :
  let pre := lit "2025-06-01T10:00:00Z [debug] " in
  let ip := lit "203.0.113.5" in
  let port := lit "51423" in
  let post := [10%N] in
  (ord "{" ∉ pre) /\ (ord "}" ∉ post) /\
  forallb is_literal (ip ++ lit ":" ++ port) = true /\
  (ord ":" ∉ ip) /\
  exchange_line pre ip port post = login_line ip /\
  extract_login_ip (exchange_line pre ip port post) = Ret (Some ip).
Proof.
  intros pre ip port post.
  assert (H1 : ord "{" ∉ pre) by (intros H; refute_elem_of H).
  assert (H2 : ord "}" ∉ post) by (intros H; refute_elem_of H).
  assert (H3 : forallb is_literal (ip ++ lit ":" ++ port) = true)
    by (vm_compute; reflexivity).
  assert (H4 : ord ":" ∉ ip) by (intros H; refute_elem_of H).
  split; [done|]. split; [done|]. split; [done|]. split; [done|].
  split; [reflexivity|].
  exact (extract_login_ip_exchange_line pre ip port post H1 H2 H3 H4).
Defined.


(** ** Whole runs *)

(** X8. The state is saved exactly when the run completes, once, as its
    last action: the trace of a completed run ends with the saving of the
    state it returns and has no other; the trace of a run that raises has
    none. Rules created in a run that raises later are therefore never
    recorded. *)
Theorem state_saved_iff_completed (py_repr : json -> str) (env : Env) :
  match main py_repr env world0 with
  | (Ret st, w) =>
      exists tr, w_trace w = tr ++ [EvSave st] /\ forall st', EvSave st' ∉ tr
  | (Raise _, w) => forall st', EvSave st' ∉ w_trace w
  end.
Proof.
  rewrite main_stages. cbv zeta.
  set (w0 := w_extend world0 [EvNow (env_now env 0)] 1 0 0).
  assert (Hw0 : forall st', EvSave st' ∉ w_trace w0).
  { intros st' H. refute_elem_of H. }
  destruct (env_getsize env) as [size|]; [|done].
  destruct (for_each (prune_rule env _) _ _ _) as [r1 w1] eqn:Hprune.
  apply prune_events in Hprune as (trp & dd & -> & Hevp & _).
  assert (Hw1 : forall st', EvSave st' ∉ w_trace (w_extend w0 trp 0 0 dd)).
  { intros st' [H|H]%elem_of_app; [by eapply Hw0|].
    by eapply prune_events_no_save. }
  destruct r1 as [pruned|e]; [|done].
  destruct (env_log env) as [content|]; [|done].
  destruct (read_lines content _) as [lines|e]; [|done].
  destruct (for_each (scan_line py_repr env) _ lines _) as [r2 w2] eqn:Hscan.
  apply scan_events in Hscan as (tr & dn & dp & -> & Hev & _).
  assert (Hw2 : forall st',
            EvSave st' ∉ w_trace (w_extend (w_extend w0 trp 0 0 dd) tr dn dp 0)).
  { intros st' [H|H]%elem_of_app; [by eapply Hw1|].
    by eapply scan_events_no_save. }
  destruct r2 as [[pos rs]|e]; [|done].
  eexists. split; [reflexivity|done].
Qed.



(** X10. A delete call that does not come back ends the run there. With
    the expired entries in the order of the loaded rule set, and call [k]
    the first that fails: the run raises the exception of the request
    after the delete calls 0 to [k]; the later expired rules are not
    tried, the log is not read, and nothing is saved, the rules deleted by
    the calls before [k] included. *)
Theorem delete_failure_ends_run (py_repr : json -> str) (env : Env)
    (size : Z) (k : nat) :
  env_getsize env = Some size ->
  (k < length (expired_rules (env_now env 0) (rules (env_state env))))%nat ->
  (forall j, (j < k)%nat -> env_delete env j <> RequestFailed) ->
  env_delete env k = RequestFailed ->
  main py_repr env world0 =
    (Raise RequestException,
     mkWorld
       (EvNow (env_now env 0)
        :: take (S k)
             (deletion_attempts env 0
                (expired_rules (env_now env 0) (rules (env_state env)))))
       1 0 (S k)).
Proof.
  intros Hsize Hk Hbefore Hfail. rewrite main_stages. cbv zeta. rewrite Hsize.
  rewrite (prune_fails env _ _ _ _ k); [|done..].
  unfold w_extend. simpl. do 2 f_equal. lia.
Qed.

Lemma delete_failure_ends_run_witness :
  let env := stuck_env RequestFailed in
  env_getsize env = Some 0 /\
  (0 < length (expired_rules (env_now env 0) (rules (env_state env))))%nat /\
  (forall j, (j < 0)%nat -> env_delete env j <> RequestFailed) /\
  env_delete env 0 = RequestFailed /\
  main sample_repr env world0 =
    (Raise RequestException,
     mkWorld [EvNow 1000; EvDelete (lit "5") RequestFailed] 1 0 1).
Proof.
  intros env.
  assert (H1 : env_getsize env = Some 0) by reflexivity.
  assert (H2 : (0 < length (expired_rules (env_now env 0)
                               (rules (env_state env))))%nat)
    by (vm_compute; lia).
  assert (H3 : forall j, (j < 0)%nat -> env_delete env j <> RequestFailed)
    by (intros j Hj; lia).
  assert (H4 : env_delete env 0 = RequestFailed) by reflexivity.
  split; [done|]. split; [done|]. split; [done|]. split; [done|].
  exact (delete_failure_ends_run sample_repr env 0 0 H1 H2 H3 H4).
Defined.

(** X11. A run with nothing to do changes nothing. When no rule of the
    loaded state has expired and the log ends at the saved offset, the run
    reads the clock once, calls nothing, reads no line and saves the state
    it loaded. *)
Theorem idle_run (py_repr : json -> str) (env : Env) (content : str) :
  env_log env = Some content ->
  env_getsize env = Some (utf8_len content) ->
  last_position (env_state env) = utf8_len content ->
  NoDup (dict_keys (rules (env_state env))) ->
  (forall ip info, (ip, info) ∈ rules (env_state env) ->
     env_now env 0 < expires_at info) ->
  main py_repr env world0 =
    (Ret (env_state env),
     mkWorld [EvNow (env_now env 0); EvSave (env_state env)] 1 0 0).
Proof.
  intros Hlog Hsize Hpos Hnd Hlive. rewrite main_stages. cbv zeta.
  rewrite Hsize, Hlog.
  rewrite (prune_all_live env _ _ _ _ Hnd); [|done|done].
  unfold start_offset, read_lines. rewrite Hpos.
  rewrite Z.ltb_irrefl.
  pose proof (utf8_len_nonneg content).
  destruct (utf8_len content <? 0) eqn:E; [lia|].
  rewrite seek_end. simpl. rewrite <- Hpos. by destruct (env_state env).
Qed.

Lemma idle_run_witness :
  let content := login_line (lit "203.0.113.5") in
  env_log idle_env = Some content /\
  env_getsize idle_env = Some (utf8_len content) /\
  last_position (env_state idle_env) = utf8_len content /\
  NoDup (dict_keys (rules (env_state idle_env))) /\
  (forall ip info, (ip, info) ∈ rules (env_state idle_env) ->
     env_now idle_env 0 < expires_at info) /\
  main sample_repr idle_env world0 =
    (Ret (env_state idle_env),
     mkWorld [EvNow 1000; EvSave (env_state idle_env)] 1 0 0).
Proof.
  intros content.
  assert (H1 : env_log idle_env = Some content) by reflexivity.
  assert (H2 : env_getsize idle_env = Some (utf8_len content)) by reflexivity.
  assert (H3 : last_position (env_state idle_env) = utf8_len content)
    by reflexivity.
  assert (H4 : NoDup (dict_keys (rules (env_state idle_env)))).
  { apply NoDup_singleton. }
  assert (H5 : forall ip info, (ip, info) ∈ rules (env_state idle_env) ->
                 env_now idle_env 0 < expires_at info).
  { intros ip info Hin. apply list_elem_of_singleton in Hin as [= -> ->].
    by vm_compute. }
  split; [done|]. split; [done|]. split; [done|]. split; [done|].
  split; [done|].
  exact (idle_run sample_repr idle_env content H1 H2 H3 H4 H5).
Defined.

(** X12. After a completed run over a log without carriage returns whose
    size did not change during the run, the saved offset is the size of
    the log, whether the run detected a rotation or not, and the lines it
    read are, joined, the text from its starting offset on. *)
Theorem saved_offset_is_log_size (py_repr : json -> str) (env : Env)
    (st : State) (w : World) (content : str) :
  main py_repr env world0 = (Ret st, w) ->
  env_log env = Some content ->
  env_getsize env = Some (utf8_len content) ->
  13%N ∉ content ->
  last_position st = utf8_len content /\
  seek (start_offset env (utf8_len content)) content
    = Ret (concat (trace_lines (w_trace w))).
Proof.
  intros Hmain Hlog Hsize Hcr.
  destruct (run_reads _ _ _ _ _ _ Hmain Hsize Hlog)
    as (rest & Hstart & Hseek & Hlines & Hpos).
  destruct (seek_suffix _ _ _ Hseek) as (pre & Hpre).
  assert (Hrest : 13%N ∉ rest).
  { intros Hin. apply Hcr. rewrite Hpre. apply elem_of_app. by right. }
  rewrite translate_newlines_id in Hlines, Hpos by done.
  rewrite Hlines, concat_split_lines. split; [|done].
  rewrite Hpos, (seek_len _ _ _ Hstart Hseek); [lia|].
  pose proof (utf8_len_nonneg content). unfold start_offset.
  destruct (utf8_len content <? last_position (env_state env)) eqn:E; lia.
Qed.

Lemma saved_offset_is_log_size_witness :
  exists w,
    main sample_repr sample_env world0 = (Ret sample_saved, w) /\
    env_log sample_env = Some sample_log /\
    env_getsize sample_env = Some (utf8_len sample_log) /\
    (13%N ∉ sample_log) /\
    last_position sample_saved = utf8_len sample_log /\
    seek (start_offset sample_env (utf8_len sample_log)) sample_log
      = Ret (concat (trace_lines (w_trace w))).
Proof.
  eexists.
  assert (H1 : main sample_repr sample_env world0 = (Ret sample_saved, _))
    by (vm_compute; reflexivity).
  assert (H2 : env_log sample_env = Some sample_log) by reflexivity.
  assert (H3 : env_getsize sample_env = Some (utf8_len sample_log)) by reflexivity.
  assert (H4 : 13%N ∉ sample_log).
  { intros H. vm_compute in H. refute_elem_of H. }
  split; [exact H1|]. split; [done|]. split; [done|]. split; [done|].
  exact (saved_offset_is_log_size sample_repr sample_env _ _ _ H1 H2 H3 H4).
Defined.

(** X13. Runs compose: no line is read twice and none is skipped. When a
    run completed over a log [c1] (without carriage returns, its size
    unchanged during the run) and the next run starts from the state it
    saved, over the same log with [c2] appended, the next run, if it
    completes, reads exactly the lines of [c2] and saves the offset of the
    first run plus the bytes of those lines. A line that was incomplete
    at the end of [c1] is thus read in two pieces. *)
Theorem next_run_reads_the_rest (py_repr : json -> str) (env1 env2 : Env)
    (st1 st2 : State) (w1 w2 : World) (c1 c2 : str) :
  main py_repr env1 world0 = (Ret st1, w1) ->
  env_log env1 = Some c1 ->
  env_getsize env1 = Some (utf8_len c1) ->
  13%N ∉ c1 ->
  env_state env2 = st1 ->
  env_log env2 = Some (c1 ++ c2) ->
  env_getsize env2 = Some (utf8_len (c1 ++ c2)) ->
  main py_repr env2 world0 = (Ret st2, w2) ->
  trace_lines (w_trace w2) = split_lines (translate_newlines c2) /\
  last_position st2
    = last_position st1 + total_bytes (split_lines (translate_newlines c2)).
Proof.
  intros Hmain1 Hlog1 Hsize1 Hcr Hstate Hlog2 Hsize2 Hmain2.
  assert (Hpos1 : last_position st1 = utf8_len c1).
  { destruct (run_reads _ _ _ _ _ _ Hmain1 Hsize1 Hlog1)
      as (rest & Hstart & Hseek & _ & Hpos).
    destruct (seek_suffix _ _ _ Hseek) as (pre & Hpre).
    rewrite translate_newlines_id in Hpos.
    - rewrite Hpos, (seek_len _ _ _ Hstart Hseek); [lia|].
      pose proof (utf8_len_nonneg c1). unfold start_offset.
      destruct (utf8_len c1 <? last_position (env_state env1)) eqn:E; lia.
    - intros Hin. apply Hcr. rewrite Hpre. apply elem_of_app. by right. }
  destruct (run_reads _ _ _ _ _ _ Hmain2 Hsize2 Hlog2)
    as (rest & _ & Hseek & Hlines & Hpos).
  assert (Hstart2 : start_offset env2 (utf8_len (c1 ++ c2)) = utf8_len c1).
  { unfold start_offset. rewrite Hstate, Hpos1, utf8_len_app.
    pose proof (utf8_len_nonneg c2).
    destruct (utf8_len c1 + utf8_len c2 <? utf8_len c1) eqn:E; lia. }
  rewrite Hstart2, seek_app in Hseek. injection Hseek as <-.
  split; [done|].
  by rewrite Hpos, Hstart2, Hpos1, total_bytes_concat, concat_split_lines.
Qed.

Lemma next_run_reads_the_rest_witness :
  let c1 := login_line (lit "203.0.113.5") in
  let c2 := login_line (lit "198.51.100.7") in
  exists st1 w1 st2 w2,
    main sample_repr first_login_env world0 = (Ret st1, w1) /\
    env_log first_login_env = Some c1 /\
    env_getsize first_login_env = Some (utf8_len c1) /\
    (13%N ∉ c1) /\
    env_state second_run_env = st1 /\
    env_log second_run_env = Some (c1 ++ c2) /\
    env_getsize second_run_env = Some (utf8_len (c1 ++ c2)) /\
    main sample_repr second_run_env world0 = (Ret st2, w2) /\
    trace_lines (w_trace w2) = split_lines (translate_newlines c2) /\
    last_position st2
      = last_position st1 + total_bytes (split_lines (translate_newlines c2)).
Proof.
  intros c1 c2. do 4 eexists.
  assert (H1 : main sample_repr first_login_env world0 = (Ret _, _))
    by (vm_compute; reflexivity).
  assert (H2 : env_log first_login_env = Some c1) by reflexivity.
  assert (H3 : env_getsize first_login_env = Some (utf8_len c1)) by reflexivity.
  assert (H4 : 13%N ∉ c1).
  { intros H. vm_compute in H. refute_elem_of H. }
  assert (H5 : env_state second_run_env = _) by reflexivity.
  assert (H6 : env_log second_run_env = Some (c1 ++ c2)) by reflexivity.
  assert (H7 : env_getsize second_run_env = Some (utf8_len (c1 ++ c2)))
    by reflexivity.
  assert (H8 : main sample_repr second_run_env world0 = (Ret _, _))
    by (vm_compute; reflexivity).
  split; [exact H1|]. split; [done|]. split; [done|]. split; [done|].
  split; [exact H5|]. split; [done|]. split; [done|]. split; [exact H8|].
  exact (next_run_reads_the_rest sample_repr first_login_env second_run_env
           _ _ _ _ c1 c2 H1 H2 H3 H4 H5 H6 H7 H8).
Defined.

(** X14. [main] asks for no rule for an address it did not find in the
    log: in every run, completed or not, each create call is for an
    address that [extract_login_ip] returned for a line read in that
    run. *)
Theorem create_calls_come_from_the_log (py_repr : json -> str) (env : Env)
    (ip : str) :
  ip ∈ put_calls (w_trace (snd (main py_repr env world0))) ->
  exists line,
    line ∈ trace_lines (w_trace (snd (main py_repr env world0))) /\
    extract_login_ip line = Ret (Some ip).
Proof.
  rewrite main_stages. cbv zeta.
  set (w0 := w_extend world0 [EvNow (env_now env 0)] 1 0 0).
  destruct (env_getsize env) as [size|];
    [|intros H; simpl in H; by apply elem_of_nil in H].
  destruct (for_each (prune_rule env _) _ _ _) as [r1 w1] eqn:Hprune.
  apply prune_events in Hprune as (trp & dd & -> & Hevp & _).
  destruct (prune_events_quiet trp Hevp) as [Hlines Hputs].
  assert (Hquiet : forall ip,
            ip ∉ put_calls (w_trace (w_extend w0 trp 0 0 dd))).
  { intros ip'. simpl. rewrite Hputs. apply not_elem_of_nil. }
  destruct r1 as [pruned|e1]; [|intros H; by apply Hquiet in H].
  destruct (env_log env) as [content|]; [|intros H; by apply Hquiet in H].
  destruct (read_lines content _) as [lines|e2];
    [|intros H; by apply Hquiet in H].
  destruct (for_each (scan_line py_repr env) _ lines _) as [r2 w2] eqn:Hscan.
  apply scan_events in Hscan as (tr & dn & dp & -> & _ & Hfrom & _).
  destruct r2 as [[pos rs]|e3]; cbn [snd w_extend w_trace];
    rewrite !put_calls_app, !trace_lines_app, Hputs, Hlines; simpl;
    rewrite ?app_nil_r; intros (line & Hl & Hx)%Hfrom; by exists line.
Qed.

Lemma create_calls_come_from_the_log_witness :
  let ip := lit "203.0.113.5" in
  ip ∈ put_calls (w_trace (snd (main sample_repr sample_env world0))) /\
  exists line,
    line ∈ trace_lines (w_trace (snd (main sample_repr sample_env world0))) /\
    extract_login_ip line = Ret (Some ip).
Proof.
  intros ip.
  assert (H : ip ∈ put_calls (w_trace (snd (main sample_repr sample_env world0)))).
  { vm_compute. left. }
  split; [exact H|].
  exact (create_calls_come_from_the_log sample_repr sample_env ip H).
Defined.

(** X15. When a turn of the scanning loop issues a create call: exactly
    when its line yields an address that is not a key of the rule set,
    and then one call for that address. Nothing else counts; an address
    whose earlier create calls failed is asked for again on its next
    line. *)
Theorem create_call_condition (py_repr : json -> str) (env : Env)
    (acc : Z * dict RuleRecord) (line : str) (w : World) :
  put_calls (w_trace (snd (scan_line py_repr env acc line w)))
  = put_calls (w_trace w) ++ expected_put (snd acc) line.
Proof.
  destruct (scan_line py_repr env acc line w) as [r w'] eqn:Hline.
  apply scan_line_outcome, scan_outcome_events in Hline
    as (chunk & dn & dp & -> & _ & _ & Hput & _).
  simpl. by rewrite put_calls_app, Hput.
Qed.

(** ** Settings *)

(** X16. The settings check at load time. The script exits with status 1
    exactly when one of [API_URL], [API_KEY], [LOG_PATH] and [STATE_PATH]
    is unset or empty; these four names are the ones it reads (the names
    its error message lists, [PANGOLIN_API_URL] and the like, are not);
    otherwise the four settings are the values of those variables. *)
Theorem load_settings_check (getenv : str -> option str) :
  (forall e, load_settings getenv = Raise e <->
     e = SystemExit 1 /\
     exists name,
       In name [lit "API_URL"; lit "API_KEY"; lit "LOG_PATH"; lit "STATE_PATH"] /\
       (getenv name = None \/ getenv name = Some [])) /\
  (forall s, load_settings getenv = Ret s ->
     exists url token log state,
       s = mkSettings (Some url) (Some token) (Some log) (Some state) /\
       getenv (lit "API_URL") = Some url /\ url <> [] /\
       getenv (lit "API_KEY") = Some token /\ token <> [] /\
       getenv (lit "LOG_PATH") = Some log /\ log <> [] /\
       getenv (lit "STATE_PATH") = Some state /\ state <> []).
Proof.
  assert (Hfalsy : forall v, env_truthy v = false <-> v = None \/ v = Some []).
  { intros [[|c v]|]; simpl; split; try done; try tauto; by intros [|]. }
  assert (Htruthy : forall v, env_truthy v = true -> exists s, v = Some s /\ s <> []).
  { intros [[|c v]|]; simpl; try done. intros _. by eexists. }
  unfold load_settings.
  cbn [forallb PANGOLIN_API_URL PANGOLIN_API_TOKEN LOG_FILE STATE_FILE].
  change (env_truthy (Some RESOURCE_ID)) with true.
  destruct (env_truthy (getenv (lit "API_URL"))) eqn:T1; cbn [andb negb].
  2: { split; [|done]. intros e. split; [|by intros (-> & _)].
       intros [= <-]. split; [done|]. exists (lit "API_URL").
       split; [simpl; tauto|by apply Hfalsy]. }
  destruct (env_truthy (getenv (lit "API_KEY"))) eqn:T2; cbn [andb negb].
  2: { split; [|done]. intros e. split; [|by intros (-> & _)].
       intros [= <-]. split; [done|]. exists (lit "API_KEY").
       split; [simpl; tauto|by apply Hfalsy]. }
  destruct (env_truthy (getenv (lit "LOG_PATH"))) eqn:T3; cbn [andb negb].
  2: { split; [|done]. intros e. split; [|by intros (-> & _)].
       intros [= <-]. split; [done|]. exists (lit "LOG_PATH").
       split; [simpl; tauto|by apply Hfalsy]. }
  destruct (env_truthy (getenv (lit "STATE_PATH"))) eqn:T4; cbn [andb negb].
  2: { split; [|done]. intros e. split; [|by intros (-> & _)].
       intros [= <-]. split; [done|]. exists (lit "STATE_PATH").
       split; [simpl; tauto|by apply Hfalsy]. }
  split.
  - intros e. split; [done|]. intros (_ & name & Hin & Hname%Hfalsy).
    simpl in Hin. destruct Hin as [<-|[<-|[<-|[<-|[]]]]]; congruence.
  - intros s [= <-].
    destruct (Htruthy _ T1) as (url & -> & ?).
    destruct (Htruthy _ T2) as (token & -> & ?).
    destruct (Htruthy _ T3) as (log & -> & ?).
    destruct (Htruthy _ T4) as (state & -> & ?).
    by exists url, token, log, state.
Qed.

(** ** State file *)

(** X17. The state file is ASCII. Whatever the state holds, strings with
    characters beyond ASCII included, a completed [save_state] with
    [json.dump(state, f, indent=2)] leaves at the target a text of ASCII
    characters only ([float.__repr__] writing nothing else), so that
    writing and reading it back do not depend on the encoding [open]
    chooses. *)
Theorem state_file_is_ascii (floatstr : pyfloat -> str) (path : str)
    (state : json) (σ : gmap str str) :
  (forall f, Forall (fun c => (c < 128)%N) (floatstr f)) ->
  exists content,
    fs_run (save_state path (iterencode floatstr 2 state 0)) σ !! path
      = Some content /\
    Forall (fun c => (c < 128)%N) content.
Proof.
  intros Hfloat. exists (concat (iterencode floatstr 2 state 0)).
  rewrite fs_run_save_state, lookup_insert_eq. split; [done|].
  apply Forall_concat. by apply iterencode_ascii.
Qed.

Lemma state_file_is_ascii_witness :
  (forall f, Forall (fun c => (c < 128)%N) (sample_floatstr f)) /\
  exists content,
    fs_run (save_state sample_path
              (iterencode sample_floatstr 2 (JStr [233%N; 128512%N]) 0)) ∅
      !! sample_path = Some content /\
    Forall (fun c => (c < 128)%N) content.
Proof.
  assert (H : forall f, Forall (fun c => (c < 128)%N) (sample_floatstr f)).
  { intros f. by repeat constructor. }
  split; [exact H|].
  exact (state_file_is_ascii sample_floatstr sample_path _ ∅ H).
Defined.

(** X18. Where [load_state] does fail open: no file, a file that is not
    JSON, and a JSON object, which is returned when it has both fields and
    replaced by the default state when it lacks one. *)
Lemma load_state_fail_open :
  load_state NoFile = Ret default_state /\
  (forall s, json_loads s = Raise JSONDecodeError ->
     load_state (Text s) = Ret default_state) /\
  (forall s d, json_loads s = Ret (JObj d) ->
     load_state (Text s) =
       Ret (if dict_mem (lit "last_position") d && dict_mem (lit "rules") d
            then JObj d else default_state)).
Proof.
  split; [reflexivity|]. split.
  - intros s Hs. unfold load_state. by rewrite Hs.
  - intros s d Hs. unfold load_state. rewrite Hs. simpl.
    destruct (dict_mem (lit "last_position") d); simpl; [|done].
    by destruct (dict_mem (lit "rules") d).
Qed.


(** X20. What [load_state] returns is the default state or the parsed
    document with both names in it, and it returns every such document.
    It does not check that the document is an object: a list that holds
    both strings is returned as it is, and [main] then fails on its first
    [state.get]. *)
Theorem load_state_returns :
  (forall f v, load_state f = Ret v ->
     v = default_state \/
     exists s, f = Text s /\ json_loads s = Ret v /\
               py_in (lit "last_position") v = Ret true /\
               py_in (lit "rules") v = Ret true) /\
  (forall s v, json_loads s = Ret v ->
     py_in (lit "last_position") v = Ret true ->
     py_in (lit "rules") v = Ret true ->
     load_state (Text s) = Ret v) /\
  (let listed := JArr [JStr (lit "rules"); JStr (lit "last_position")] in
   load_state (Text (json_dumps sample_floatstr 2 listed)) = Ret listed /\
   py_get listed (lit "last_position") (JInt 0) = Raise AttributeError).
Proof.
  split; [|split].
  - intros f v. unfold load_state.
    destruct f as [| | |s]; simpl; try done; [intros [= <-]; by left|].
    destruct (json_loads s) as [v'|e'] eqn:Hjson; simpl.
    + assert (Hin : forall key, exists b, py_in key v' = Ret b \/
                                        py_in key v' = Raise TypeError).
      { intros key. destruct v'; simpl;
          first [by eexists; left | exists true; by right]. }
      destruct (Hin (lit "last_position")) as [[] [Hpos|Hpos]]; rewrite Hpos;
        simpl; try done; [|intros [= <-]; by left].
      destruct (Hin (lit "rules")) as [[] [Hrules|Hrules]]; rewrite Hrules;
        simpl; try done; [|intros [= <-]; by left].
      intros [= <-]. right. by exists s.
    + apply json_loads_raises in Hjson as ->. simpl. intros [= <-]. by left.
  - intros s v Hjson Hpos Hrules. unfold load_state.
    rewrite Hjson. simpl. rewrite Hpos. simpl. by rewrite Hrules.
  - intros listed. split; [|done]. unfold load_state.
    rewrite json_loads_dumps by reflexivity. reflexivity.
Qed.

(** ** Rotation *)

(** X21. What holds after a rotation (the log is shorter than the saved
    offset): the run starts at byte 0 and reads the whole file, and the
    offset it saves is the byte length of the text as read, which is the
    file's size when the file has no carriage return. *)
Lemma rotation_recovery py_repr env st w size content :
  main py_repr env world0 = (Ret st, w) ->
  env_getsize env = Some size ->
  env_log env = Some content ->
  size < last_position (env_state env) ->
  concat (trace_lines (w_trace w)) = translate_newlines content /\
  last_position st = utf8_len (translate_newlines content) /\
  (13%N ∉ content -> last_position st = utf8_len content).
Proof.
  intros (size' & content' & pruned & w1 & lines & w2 & start
          & Hstart & Hsize & Hlog & Hprune & Hread & Hscan & ->)%main_completed.
  rewrite Hsize, Hlog. intros [= <-] [= <-] Hrot.
  destruct (size' <? last_position (env_state env)) eqn:E; [|lia]. subst start.
  unfold read_lines in Hread. simpl in Hread. rewrite seek_0 in Hread.
  injection Hread as <-.
  destruct (prune_trace _ _ _ _ _ _ _ Hprune) as (trp & dd & -> & Hnolines & _).
  destruct (scan_trace _ _ _ _ _ _ _ Hscan) as (tr & dn & dp & -> & _ & Hres).
  destruct (Hres _ eq_refl) as [Hlines Hpos]. simpl in Hpos.
  rewrite main_trace_lines, Hnolines, Hlines. simpl app.
  rewrite concat_split_lines. split; [done|].
  rewrite Hpos, total_bytes_concat, concat_split_lines. split; [lia|].
  intros Hcr. by rewrite translate_newlines_id.
Qed.

Lemma rotation_recovery_witness :
  let content := login_line (lit "203.0.113.5") in
  exists st w,
    main sample_repr rotated_env world0 = (Ret st, w) /\
    env_getsize rotated_env = Some 94 /\
    env_log rotated_env = Some content /\
    94 < last_position (env_state rotated_env) /\
    concat (trace_lines (w_trace w)) = translate_newlines content /\
    last_position st = utf8_len (translate_newlines content) /\
    (13%N ∉ content -> last_position st = utf8_len content).
Proof.
  intros content. do 2 eexists.
  assert (H1 : main sample_repr rotated_env world0 = (Ret _, _))
    by (vm_compute; reflexivity).
  assert (H2 : env_getsize rotated_env = Some 94) by reflexivity.
  assert (H3 : env_log rotated_env = Some content) by reflexivity.
  assert (H4 : 94 < last_position (env_state rotated_env)) by (by vm_compute).
  split; [exact H1|]. split; [done|]. split; [done|]. split; [done|].
  exact (rotation_recovery sample_repr rotated_env _ _ 94 content H1 H2 H3 H4).
Defined.
